(** * scorm-again: the run-time engine of [BaseAPI] and [Scorm12API]

    A shallow embedding of [src/BaseAPI.js] (class [BaseAPI], class
    [ScheduledCommit]) and of [Scorm12API], followed by the properties of the
    session life cycle, the path resolver, the error register, the listener
    bus and the commit scheduler.

    Conventions of the embedding.
    - An API instance is a record [session]; every method becomes a function
      from the session to the session after the call and the value returned.
    - A JavaScript exception is a [Throw] completion that carries the session
      as it was mutated up to the throw.
    - Console logging ([apiLog], [console.log]) produces no state and is left
      out.
    - Listener callbacks are opaque: invoking one is recorded in the
      session's [calls] list, in order; what a callback does itself is not
      part of the engine.
    - The resolver walks from the API object.  The walk is embedded for the
      paths rooted at the [cmi] member, the data model, and for the paths
      [listenerArray.<i>.<member>] that end on the operation name or the
      filter of a registration.  A path whose first segment names any other
      member of the API object ([currentState], [lastErrorCode], [settings],
      a method), a walk that continues below a primitive value, and the
      members [childArray] and [initialized] of a collection taken as a path
      segment fall outside the embedding: the resolver answers [None] there,
      and the properties below say which paths they are about. *)

From Stdlib Require Import ZArith List String Ascii Bool Lia DecimalString DecimalZ.
Import ListNotations.
Local Open Scope string_scope.
Local Open Scope Z_scope.

(** ** JavaScript strings *)

Module JsString.

(** [s.split(sep)] for a one-character separator: every occurrence cuts,
    empty pieces are kept, and the result is never empty. *)
Fixpoint split (sep : ascii) (s : string) : list string :=
  match s with
  | EmptyString => [EmptyString]
  | String c r =>
      if Ascii.eqb c sep then EmptyString :: split sep r
      else match split sep r with
           | h :: t => String c h :: t
           | [] => [String c EmptyString]
           end
  end.

Fixpoint startsWith (p s : string) : bool :=
  match p, s with
  | EmptyString, _ => true
  | String a p', String b s' => Ascii.eqb a b && startsWith p' s'
  | String _ _, EmptyString => false
  end.

Fixpoint drop (n : nat) (s : string) : string :=
  match n, s with
  | O, _ => s
  | S n', String _ s' => drop n' s'
  | S _, EmptyString => EmptyString
  end.

(** [s.replace(pat, '')] with a string pattern: the first occurrence of
    [pat] is removed. *)
Fixpoint remove_first (pat s : string) : string :=
  if startsWith pat s then drop (String.length pat) s
  else match s with
       | EmptyString => EmptyString
       | String c r => String c (remove_first pat r)
       end.

(** [s.substr(0, n)] *)
Fixpoint substr0 (n : nat) (s : string) : string :=
  match n, s with
  | S n', String c s' => String c (substr0 n' s')
  | _, _ => EmptyString
  end.

Definition is_digit (c : ascii) : bool :=
  let n := nat_of_ascii c in (48 <=? n)%nat && (n <=? 57)%nat.

Definition digit_value (c : ascii) : Z := Z.of_nat (nat_of_ascii c) - 48.

(** Characters skipped by [parseInt] before the sign: tab, line feed,
    vertical tab, form feed, carriage return and space (the code points of
    the white-space class that fit one byte of a path segment). *)
Definition is_space (c : ascii) : bool :=
  let n := nat_of_ascii c in
  ((9 <=? n)%nat && (n <=? 13)%nat) || (n =? 32)%nat.

Fixpoint skip_spaces (s : string) : string :=
  match s with
  | String c r => if is_space c then skip_spaces r else s
  | EmptyString => EmptyString
  end.

Fixpoint digits_value (acc : Z) (s : string) : Z :=
  match s with
  | String c r => if is_digit c then digits_value (10 * acc + digit_value c) r else acc
  | EmptyString => acc
  end.

Definition starts_with_digit (s : string) : bool :=
  match s with
  | String c _ => is_digit c
  | EmptyString => false
  end.

(** [parseInt(s, 10)]: leading white space, an optional sign, then the
    longest run of decimal digits; [None] is [NaN] (no digit).  The result
    is the mathematical integer (the rounding of integers above 2^53 to a
    double is not represented). *)
Definition parseInt (s : string) : option Z :=
  let t := skip_spaces s in
  let '(neg, body) :=
    match t with
    | String "-" r => (true, r)
    | String "+" r => (false, r)
    | _ => (false, t)
    end in
  if starts_with_digit body
  then Some (if neg then - digits_value 0 body else digits_value 0 body)
  else None.

(** [String(n)] for an integer [n]: its decimal numeral. *)
Definition of_number (n : Z) : string := NilZero.string_of_int (Z.to_int n).

(** The regular expressions of the engine are sequences of literal
    characters and [\d]; [str.match(re)] searches them at any position. *)
Inductive atom : Type :=
| Lit (c : ascii)
| Digit.

Fixpoint lits (s : string) : list atom :=
  match s with
  | EmptyString => []
  | String c r => Lit c :: lits r
  end.

Fixpoint match_here (re : list atom) (s : string) : bool :=
  match re, s with
  | [], _ => true
  | Lit a :: re', String c s' => Ascii.eqb a c && match_here re' s'
  | Digit :: re', String c s' => is_digit c && match_here re' s'
  | _ :: _, EmptyString => false
  end.

Fixpoint search (re : list atom) (s : string) : bool :=
  match_here re s ||
  match s with
  | EmptyString => false
  | String _ s' => search re s'
  end.

End JsString.

(** ** JavaScript values and the data model tree *)

(** Primitive values an SCO can pass to [setValue] and a leaf can hold.
    Numbers are the integers. *)
Inductive jsval : Type :=
| JUndefined
| JNull
| JBool (b : bool)
| JNum (n : Z)
| JStr (s : string).

(** [!!v] *)
Definition truthy (v : jsval) : bool :=
  match v with
  | JUndefined | JNull => false
  | JBool b => b
  | JNum n => negb (n =? 0)
  | JStr s => negb (String.eqb s "")
  end.

(** The exceptions the engine can meet: the [ValidationError] of
    [./exceptions], thrown by the accessors of the data model with their
    error code, and any other fault of the host (a [TypeError]). *)
Inductive exception : Type :=
| ValidationError (errorCode : Z)
| TypeError.

Inductive completion (A : Type) : Type :=
| Return (a : A)
| Throw (e : exception).
Arguments Return {A} a.
Arguments Throw {A} e.

(** Modelled from the spec: the classes of [./cmi/common] and
    [./cmi/scorm12_cmi] are absent.  A field of a data model object is either
    a plain data property or an accessor pair guarding a private value: the
    setter runs the field's validator and throws a [ValidationError] with the
    validator's code on rejection, the getter may throw as well.  Both see
    the [initialized] flag of the object that owns the field. *)
Record accessor : Type := {
  getter_fault : bool -> option Z;
  setter_fault : bool -> jsval -> option Z
}.

#[local] Set Warnings "-register-all".

(** Modelled from the spec: the three kinds of node of the data model tree
    (section 3): a scalar, a composite object with named fields, and the
    ordered collection [CMIArray] with its [childArray].  A collection also
    answers the computed, read-only members [_children] and [_count]; writing
    one throws a [ValidationError] with the collection's [errorCode].  The
    members [childArray] and [initialized], which the walkers read, are
    members of a collection as well; a path segment that names one of them is
    outside the embedding.  Other members of the objects (methods,
    [jsonString]) are not part of the tree. *)
Inductive node : Type :=
| Prim (v : jsval)
| Composite (initialized : bool) (fields : list (string * (option accessor * node)))
| Collection (initialized : bool) (children : string) (errorCode : Z)
             (childArray : list node).

Definition field : Type := (string * (option accessor * node))%type.

Definition undefined : node := Prim JUndefined.

(** [!!x] for any value: objects are truthy. *)
Definition truthy_node (x : node) : bool :=
  match x with
  | Prim v => truthy v
  | _ => true
  end.

(** [x === null || x === undefined] *)
Definition is_nullish (x : node) : bool :=
  match x with
  | Prim JUndefined | Prim JNull => true
  | _ => false
  end.

Fixpoint find_field (attribute : string) (fs : list field) : option (option accessor * node) :=
  match fs with
  | [] => None
  | (k, slot) :: fs' => if String.eqb k attribute then Some slot else find_field attribute fs'
  end.

Fixpoint put_field (attribute : string) (x : node) (fs : list field) : list field :=
  match fs with
  | [] => []
  | (k, (acc, old)) :: fs' =>
      if String.eqb k attribute then (k, (acc, x)) :: fs'
      else (k, (acc, old)) :: put_field attribute x fs'
  end.

(** Modelled from the spec: [initialize()] of the data model classes marks
    the object and the objects below it as initialized. *)
Fixpoint initialize_node (x : node) : node :=
  match x with
  | Prim v => Prim v
  | Composite _ fs =>
      Composite true (map (fun f : field =>
                             (fst f, (fst (snd f), initialize_node (snd (snd f))))) fs)
  | Collection _ ch ec cs => Collection true ch ec (map initialize_node cs)
  end.

(** [refObject.initialized] *)
Definition node_initialized (x : node) : bool :=
  match x with
  | Prim _ => false
  | Composite i _ => i
  | Collection i _ _ _ => i
  end.

(** [_checkObjectHasProperty(refObject, attribute)] on an object of the data
    model.  (On a primitive the probe ends in the [in] operator or, in
    [_commonSetCMIValue], in an assignment to a primitive, which both throw a
    [TypeError]; the walkers below treat that case themselves.) *)
Definition _checkObjectHasProperty (refObject : node) (attribute : string) : bool :=
  match refObject with
  | Prim _ => false
  | Composite _ fs =>
      match find_field attribute fs with Some _ => true | None => false end
  | Collection _ _ _ _ =>
      String.eqb attribute "_children" || String.eqb attribute "_count"
      || String.eqb attribute "childArray" || String.eqb attribute "initialized"
  end.

(** [refObject[attribute]] on an object of the data model; [None] on a
    primitive and for the array [childArray] of a collection. *)
Definition read_property (refObject : node) (attribute : string)
  : option (completion node) :=
  match refObject with
  | Prim _ => None
  | Composite i fs =>
      match find_field attribute fs with
      | None => Some (Return undefined)
      | Some (None, x) => Some (Return x)
      | Some (Some acc, x) =>
          match getter_fault acc i with
          | Some code => Some (Throw (ValidationError code))
          | None => Some (Return x)
          end
      end
  | Collection _ ch _ cs =>
      if String.eqb attribute "_children" then Some (Return (Prim (JStr ch)))
      else if String.eqb attribute "_count"
           then Some (Return (Prim (JNum (Z.of_nat (List.length cs)))))
           else if String.eqb attribute "childArray" then None
                else if String.eqb attribute "initialized"
                     then Some (Return (Prim (JBool (node_initialized refObject))))
                     else Some (Return undefined)
  end.

(** [refObject[attribute] = value] on an object of the data model that has
    the property: the object after the assignment, or the exception of the
    setter.  On a collection the setters of [_children] and [_count] throw;
    an assignment to [childArray] or [initialized] is outside the embedding
    ([None]): the collection would no longer hold an array of children. *)
Definition write_property (refObject : node) (attribute : string) (value : jsval)
  : option (node * completion unit) :=
  match refObject with
  | Prim _ => Some (refObject, Throw TypeError)
  | Composite i fs =>
      match find_field attribute fs with
      | Some (Some acc, _) =>
          match setter_fault acc i value with
          | Some code => Some (refObject, Throw (ValidationError code))
          | None => Some (Composite i (put_field attribute (Prim value) fs), Return tt)
          end
      | _ => Some (Composite i (put_field attribute (Prim value) fs), Return tt)
      end
  | Collection _ _ ec _ =>
      if String.eqb attribute "_children" || String.eqb attribute "_count"
      then Some (refObject, Throw (ValidationError ec))
      else None
  end.

(** The object held by a plain or accessor field is mutated in place by the
    walk; the tree with the mutated object is the tree with the field
    holding it. *)
Definition store_child (refObject : node) (attribute : string) (child : node) : node :=
  match refObject with
  | Composite i fs => Composite i (put_field attribute child fs)
  | _ => refObject
  end.

(** [childArray[index]], when the entry exists and is truthy. *)
Definition child_at (cs : list node) (index : Z) : option node :=
  if index <? 0 then None
  else match nth_error cs (Z.to_nat index) with
       | Some item => if truthy_node item then Some item else None
       | None => None
       end.

Fixpoint replace_nth (n : nat) (x : node) (cs : list node) : list node :=
  match n, cs with
  | O, _ :: cs' => x :: cs'
  | S n', c :: cs' => c :: replace_nth n' x cs'
  | _, [] => []
  end.

(** ** Constants *)

(** [global_constants] of [./constants/api_constants]: the two result
    tokens and the three life cycle states. *)
Definition SCORM_TRUE : string := "true".
Definition SCORM_FALSE : string := "false".

Inductive state : Type :=
| STATE_NOT_INITIALIZED
| STATE_INITIALIZED
| STATE_TERMINATED.

(** The table of error codes handed to the constructor (the members the
    engine reads).  The tables of [./constants/error_codes] are absent: the
    engine is stated for every table. *)
Record error_code_table : Type := {
  GENERAL : Z;
  INITIALIZED : Z;
  TERMINATED : Z;
  TERMINATION_BEFORE_INIT : Z;
  MULTIPLE_TERMINATION : Z;
  RETRIEVE_BEFORE_INIT : Z;
  RETRIEVE_AFTER_TERM : Z;
  STORE_BEFORE_INIT : Z;
  STORE_AFTER_TERM : Z;
  COMMIT_BEFORE_INIT : Z;
  COMMIT_AFTER_TERM : Z;
  CHILDREN_ERROR : Z;
  COUNT_ERROR : Z;
  UNDEFINED_DATA_MODEL : Z;
  VALUE_NOT_INITIALIZED : Z;
  READ_ONLY_ELEMENT : Z
}.

(** ** The session *)

(** [lastErrorCode] holds the number [0], the number of a
    [ValidationError], or the string [String(errorNumber)] written by
    [throwSCORMError]. *)
Inductive error_register : Type :=
| ErrNum (n : Z)
| ErrStr (s : string).

(** [String(this.lastErrorCode)] *)
Definition register_string (r : error_register) : string :=
  match r with
  | ErrNum n => JsString.of_number n
  | ErrStr s => s
  end.

(** [this.lastErrorCode === 0] *)
Definition register_is_number_zero (r : error_register) : bool :=
  match r with
  | ErrNum n => n =? 0
  | ErrStr _ => false
  end.

(** A registration of the listener bus; callbacks are named by a number. *)
Record listener : Type := {
  functionName : string;
  CMIElement : option string;
  callback : nat
}.

(** One invocation [callback(CMIElement, value)]; [None] is an argument
    left [undefined]. *)
Record invocation : Type := {
  inv_callback : nat;
  inv_CMIElement : option string;
  inv_value : option jsval
}.

(** Class [ScheduledCommit]: the [#cancelled] flag and the handle returned
    by [setTimeout], a positive integer. *)
Record ScheduledCommit : Type := {
  sc_cancelled : bool;
  sc_timeout : positive
}.

(** The private member [#timeout] of the API. *)
Inductive timeout_slot : Type :=
| SlotUndefined
| SlotNull
| SlotScheduled (sc : ScheduledCommit).

Record settings_t : Type := {
  autocommit : bool;
  autocommitSeconds : Z;
  lmsCommitUrl : option string;
  dataCommitFormat : string;
  mastery_override : bool
}.

(** The API instance, with the part of the host it acts on: the timers
    pending in the host ([setTimeout] handle and delay) and the callback
    invocations made so far, oldest first. *)
Record session : Type := {
  currentState : state;
  lastErrorCode : error_register;
  listenerArray : list listener;
  timeout : timeout_slot;
  settings : settings_t;
  cmi : node;
  timers : list (positive * Z);
  next_handle : positive;
  calls : list invocation
}.

Definition with_state (st : state) (s : session) : session :=
  {| currentState := st; lastErrorCode := lastErrorCode s;
     listenerArray := listenerArray s; timeout := timeout s;
     settings := settings s; cmi := cmi s; timers := timers s;
     next_handle := next_handle s; calls := calls s |}.

Definition with_error (e : error_register) (s : session) : session :=
  {| currentState := currentState s; lastErrorCode := e;
     listenerArray := listenerArray s; timeout := timeout s;
     settings := settings s; cmi := cmi s; timers := timers s;
     next_handle := next_handle s; calls := calls s |}.

Definition with_listeners (l : list listener) (s : session) : session :=
  {| currentState := currentState s; lastErrorCode := lastErrorCode s;
     listenerArray := l; timeout := timeout s;
     settings := settings s; cmi := cmi s; timers := timers s;
     next_handle := next_handle s; calls := calls s |}.

Definition with_cmi (c : node) (s : session) : session :=
  {| currentState := currentState s; lastErrorCode := lastErrorCode s;
     listenerArray := listenerArray s; timeout := timeout s;
     settings := settings s; cmi := c; timers := timers s;
     next_handle := next_handle s; calls := calls s |}.

Definition with_calls (c : list invocation) (s : session) : session :=
  {| currentState := currentState s; lastErrorCode := lastErrorCode s;
     listenerArray := listenerArray s; timeout := timeout s;
     settings := settings s; cmi := cmi s; timers := timers s;
     next_handle := next_handle s; calls := c |}.

Definition with_timer (t : timeout_slot) (pending : list (positive * Z)) (next : positive)
  (s : session) : session :=
  {| currentState := currentState s; lastErrorCode := lastErrorCode s;
     listenerArray := listenerArray s; timeout := t;
     settings := settings s; cmi := cmi s; timers := pending;
     next_handle := next; calls := calls s |}.

(** What [storeData] hands back to [commit]: the bare token of the branch
    without a destination, or the object parsed from the transport's
    response with its [result] and its numeric [errorCode], when present. *)
Inductive store_result : Type :=
| Token (s : string)
| Response (result : jsval) (errorCode : option Z).

(** [result.errorCode]: a string has no such member. *)
Definition get_errorCode (r : store_result) : option Z :=
  match r with
  | Token _ => None
  | Response _ e => e
  end.

(** [result.result]: a string has no such member. *)
Definition get_result (r : store_result) : jsval :=
  match r with
  | Token _ => JUndefined
  | Response v _ => v
  end.

(** ** Class [BaseAPI] *)

Section BaseAPI.

(** [#error_codes], the table given to the constructor, and the imported
    table [scorm12_error_codes] that [_commonGetCMIValue] reads directly. *)
Variable error_codes : error_code_table.
Variable scorm12_error_codes : error_code_table.

(** The abstract methods, overridden by the concrete API. *)
Variable getChildElement : string -> jsval -> bool -> node.
Variable getCMIValue : string -> session -> option (session * completion node).
Variable setCMIValue : string -> jsval -> session -> option (session * completion string).
Variable storeData : bool -> session -> session * store_result.

Definition isInitialized (s : session) : bool :=
  match currentState s with STATE_INITIALIZED => true | _ => false end.

Definition isNotInitialized (s : session) : bool :=
  match currentState s with STATE_NOT_INITIALIZED => true | _ => false end.

Definition isTerminated (s : session) : bool :=
  match currentState s with STATE_TERMINATED => true | _ => false end.

(** [throwSCORMError]: the message only feeds the log. *)
Definition thrown (errorNumber : Z) : error_register :=
  ErrStr (JsString.of_number errorNumber).

Definition throwSCORMError (errorNumber : Z) (s : session) : session :=
  with_error (thrown errorNumber) s.

(** [success !== undefined && success !== SCORM_FALSE] *)
Definition reports_success (success : node) : bool :=
  match success with
  | Prim JUndefined => false
  | Prim (JStr r) => negb (String.eqb r SCORM_FALSE)
  | _ => true
  end.

Definition clearSCORMError (success : node) (s : session) : session :=
  if reports_success success then with_error (ErrNum 0) s else s.

(** The constructor: the defaults of [#settings] are overlaid by the
    settings given, which is the [settings] argument here. *)
Definition constructor (settings : settings_t) (cmi : node) : session :=
  {| currentState := STATE_NOT_INITIALIZED; lastErrorCode := ErrNum 0;
     listenerArray := []; timeout := SlotNull; settings := settings;
     cmi := cmi; timers := []; next_handle := 1%positive; calls := [] |}.

Definition checkState (checkTerminated : bool) (beforeInitError afterTermError : Z)
  (s : session) : bool * session :=
  if isNotInitialized s then (false, throwSCORMError beforeInitError s)
  else if checkTerminated && isTerminated s
       then (false, throwSCORMError afterTermError s)
       else (true, s).

(** *** Listener bus *)

(** The registration pushed for one token of [listenerName].  ([split]
    never yields an empty array, so the early [return] on an empty
    [listenerSplit] is never taken.) *)
Definition registration (listenerName token : string) (callback : nat) : listener :=
  let listenerSplit := JsString.split "." token in
  let functionName := hd EmptyString listenerSplit in
  let CMIElement :=
    if (1 <? List.length listenerSplit)%nat
    then Some (JsString.remove_first (functionName ++ ".") listenerName)
    else None in
  {| functionName := functionName; CMIElement := CMIElement; callback := callback |}.

(** [on(listenerName, callback)]; [None] is a missing callback. *)
Definition on (listenerName : string) (callback : option nat) (s : session) : session :=
  match callback with
  | None => s
  | Some cb =>
      let listenerFunctions := JsString.split " " listenerName in
      with_listeners
        (listenerArray s ++ map (fun token => registration listenerName token cb)
                                listenerFunctions) s
  end.

Definition functionsMatch (l : listener) (name : string) : bool :=
  String.eqb (functionName l) name.

(** [!!listener.CMIElement] *)
Definition listenerHasCMIElement (l : listener) : bool :=
  match CMIElement l with
  | Some e => negb (String.eqb e "")
  | None => false
  end.

(** [listener.CMIElement === CMIElement] *)
Definition CMIElementsMatch (l : listener) (element : option string) : bool :=
  match CMIElement l, element with
  | Some a, Some b => String.eqb a b
  | _, _ => false
  end.

Definition fires (l : listener) (name : string) (element : option string) : bool :=
  functionsMatch l name && (negb (listenerHasCMIElement l) || CMIElementsMatch l element).

(** The invocations one call of [processListeners] makes, in order. *)
Fixpoint notifications (ls : list listener) (name : string) (element : option string)
  (value : option jsval) : list invocation :=
  match ls with
  | [] => []
  | l :: ls' =>
      if fires l name element
      then {| inv_callback := callback l; inv_CMIElement := element; inv_value := value |}
             :: notifications ls' name element value
      else notifications ls' name element value
  end.

Definition processListeners (name : string) (element : option string)
  (value : option jsval) (s : session) : session :=
  with_calls (calls s ++ notifications (listenerArray s) name element value) s.

(** *** Commit scheduler *)

(** [new ScheduledCommit(this, when)]: [setTimeout] registers a timer in
    the host and hands back its handle.  What the host runs when the timer
    fires ([wrapper]) is not represented: the properties below are about
    whether the host still holds the timer. *)
Definition scheduleCommit (when : Z) (s : session) : session :=
  let handle := next_handle s in
  with_timer (SlotScheduled {| sc_cancelled := false; sc_timeout := handle |})
             (timers s ++ [(handle, when)]) (Pos.succ handle) s.

(** [clearTimeout(handle)] *)
Definition clearTimeout (handle : positive) (pending : list (positive * Z))
  : list (positive * Z) :=
  filter (fun t => negb (Pos.eqb (fst t) handle)) pending.

(** [ScheduledCommit.cancel]: the flag is raised and the timer is cleared in
    the host (the handle, a positive integer, is truthy). *)
Definition cancel (sc : ScheduledCommit) (pending : list (positive * Z))
  : ScheduledCommit * list (positive * Z) :=
  ({| sc_cancelled := true; sc_timeout := sc_timeout sc |},
   clearTimeout (sc_timeout sc) pending).

Definition clearScheduledCommit (s : session) : session :=
  match timeout s with
  | SlotScheduled sc =>
      with_timer SlotNull (snd (cancel sc (timers s))) (next_handle s) s
  | _ => s
  end.

(** [this.#timeout === undefined] *)
Definition timeout_is_undefined (s : session) : bool :=
  match timeout s with SlotUndefined => true | _ => false end.

(** *** Path resolver *)

(** [typeof refObject._isTargetValid == 'function']: the method belongs to
    navigation objects of SCORM 2004; no object of the data model above
    carries it. *)
Definition has_isTargetValid (refObject : node) : bool := false.

Definition invalidErrorCode (scorm2004 : bool) : Z :=
  if scorm2004 then UNDEFINED_DATA_MODEL error_codes else GENERAL error_codes.

(** The loop of [_commonSetCMIValue] from segment [i] on: [structure] is
    the list of segments from [structure[i]], [refObject] the object the
    walk stands on, [err] the error register.  The result is that object
    after the mutations made below it, the register, and the completion:
    the [returnValue] at the end of the loop or the exception that left
    it.  The hook [validateCorrectResponse] is a stub here and in
    [Scorm12API] and is left out. *)
Fixpoint set_loop (scorm2004 : bool) (CMIElement : string) (value : jsval)
  (structure : list string) (refObject : node) (foundFirstIndex : bool)
  (err : error_register) {struct structure}
  : option (node * error_register * completion string) :=
  match structure with
  | [] => Some (refObject, err, Return SCORM_FALSE)
  | attribute :: tl =>
      match tl with
      | [] =>
          (* i === structure.length - 1 *)
          match refObject with
          | Prim _ => Some (refObject, err, Throw TypeError)
          | _ =>
              if scorm2004 && String.eqb (JsString.substr0 8 attribute) "{target="
                 && has_isTargetValid refObject
              then Some (refObject, thrown (READ_ONLY_ELEMENT error_codes),
                         Return SCORM_FALSE)
              else if negb (_checkObjectHasProperty refObject attribute)
              then Some (refObject, thrown (invalidErrorCode scorm2004),
                         Return SCORM_FALSE)
              else if negb scorm2004 || register_is_number_zero err
              then match write_property refObject attribute value with
                   | Some (o, Return _) => Some (o, err, Return SCORM_TRUE)
                   | Some (o, Throw e) => Some (o, err, Throw e)
                   | None => None
                   end
              else Some (refObject, err, Return SCORM_FALSE)
          end
      | next :: rest =>
          match read_property refObject attribute with
          | None => None
          | Some (Throw e) => Some (refObject, err, Throw e)
          | Some (Return child) =>
              if negb (truthy_node child)
              then (* break *)
                Some (refObject, thrown (invalidErrorCode scorm2004), Return SCORM_FALSE)
              else
                let back (f : node -> node)
                      (r : option (node * error_register * completion string)) :=
                  match r with
                  | None => None
                  | Some (x, e, c) => Some (store_child refObject attribute (f x), e, c)
                  end in
                match child with
                | Collection init ch ec cs =>
                    match JsString.parseInt next with
                    | None =>
                        back (fun x => x)
                          (set_loop scorm2004 CMIElement value tl child
                             foundFirstIndex err)
                    | Some index =>
                        match child_at cs index with
                        | Some item =>
                            back (fun x => Collection init ch ec
                                             (replace_nth (Z.to_nat index) x cs))
                              (set_loop scorm2004 CMIElement value rest item
                                 foundFirstIndex err)
                        | None =>
                            let newChild :=
                              getChildElement CMIElement value foundFirstIndex in
                            if negb (truthy_node newChild)
                            then
                              back (fun x => x)
                                (set_loop scorm2004 CMIElement value rest child true
                                   (thrown (invalidErrorCode scorm2004)))
                            else
                              match newChild, init with
                              | Prim _, true =>
                                  (* newChild.initialize is not a function *)
                                  Some (refObject, err, Throw TypeError)
                              | _, _ =>
                                  back (fun x => Collection init ch ec (cs ++ [x]))
                                    (set_loop scorm2004 CMIElement value rest
                                       (if init then initialize_node newChild
                                        else newChild)
                                       true err)
                              end
                        end
                    end
                | _ =>
                    back (fun x => x)
                      (set_loop scorm2004 CMIElement value tl child foundFirstIndex err)
                end
          end
      end
  end.

(** The API object as the root of the walk: of its members only [cmi] is
    part of the data model. *)
Definition api_object (s : session) : node := Composite false [("cmi", (None, cmi s))].

Definition api_cmi (root : node) (s : session) : node :=
  match root with
  | Composite _ fs =>
      match find_field "cmi" fs with Some (_, x) => x | None => cmi s end
  | _ => cmi s
  end.

Definition in_data_model (structure : list string) : bool :=
  match structure with
  | first :: _ => String.eqb first "cmi"
  | [] => false
  end.

(** The walk can also start at the member [listenerArray], an array of
    registrations [{functionName, CMIElement, callback}].  It is embedded
    for the paths [listenerArray.<i>.<member>]: the segment [<i>] is the
    canonical numeral of an index, so that [refObject[<i>]] is the
    registration at that index, or [undefined] past the end; [<member>] is
    [functionName] or [CMIElement], an own property of the registration.
    The member [callback], the members of the array itself, and a value that
    a registration cannot hold here (anything but a string, or [null] for
    [CMIElement]) are outside the embedding. *)
Definition in_listenerArray (structure : list string) : bool :=
  match structure with
  | first :: _ => String.eqb first "listenerArray"
  | [] => false
  end.

Definition array_index (segment : string) : option nat :=
  match JsString.parseInt segment with
  | Some n =>
      if (0 <=? n) && String.eqb (JsString.of_number n) segment
      then Some (Z.to_nat n) else None
  | None => None
  end.

(** [listener[attribute]] *)
Definition listener_member (l : listener) (attribute : string) : option jsval :=
  if String.eqb attribute "functionName" then Some (JStr (functionName l))
  else if String.eqb attribute "CMIElement"
       then Some (match CMIElement l with Some e => JStr e | None => JNull end)
       else None.

(** [listener[attribute] = value] *)
Definition set_listener_member (l : listener) (attribute : string) (value : jsval)
  : option listener :=
  if String.eqb attribute "functionName"
  then match value with
       | JStr f => Some {| functionName := f; CMIElement := CMIElement l;
                           callback := callback l |}
       | _ => None
       end
  else if String.eqb attribute "CMIElement"
       then match value with
            | JStr e => Some {| functionName := functionName l; CMIElement := Some e;
                                callback := callback l |}
            | JNull => Some {| functionName := functionName l; CMIElement := None;
                               callback := callback l |}
            | _ => None
            end
       else None.

Fixpoint replace_listener (n : nat) (l : listener) (ls : list listener) : list listener :=
  match n, ls with
  | O, _ :: ls' => l :: ls'
  | S n', x :: ls' => x :: replace_listener n' l ls'
  | _, [] => []
  end.

(** The loop of [_commonSetCMIValue] on [listenerArray.<i>.<member>]: the
    array and the registration are objects without [instanceof CMIArray];
    a missing registration is the [break] with the invalid-element error;
    the last segment is an own property and is assigned. *)
Definition set_listener (scorm2004 : bool) (value : jsval) (structure : list string)
  (s : session) : option (session * completion string) :=
  match structure with
  | [_; index; attribute] =>
      match array_index index with
      | None => None
      | Some n =>
          match nth_error (listenerArray s) n with
          | None =>
              Some (throwSCORMError (invalidErrorCode scorm2004) s, Return SCORM_FALSE)
          | Some l =>
              match set_listener_member l attribute value with
              | None => None
              | Some l' =>
                  if negb scorm2004 || register_is_number_zero (lastErrorCode s)
                  then Some (with_listeners (replace_listener n l' (listenerArray s)) s,
                             Return SCORM_TRUE)
                  else Some (s, Return SCORM_FALSE)
              end
          end
      end
  | _ => None
  end.

Definition _commonSetCMIValue (methodName : string) (scorm2004 : bool)
  (CMIElement : string) (value : jsval) (s : session)
  : option (session * completion string) :=
  if String.eqb CMIElement "" then Some (s, Return SCORM_FALSE)
  else
    let structure := JsString.split "." CMIElement in
    if in_data_model structure
    then
      match set_loop scorm2004 CMIElement value structure (api_object s) false
              (lastErrorCode s) with
      | None => None
      | Some (root, err, outcome) =>
          Some (with_error err (with_cmi (api_cmi root s) s), outcome)
      end
    else if in_listenerArray structure
         then set_listener scorm2004 value structure s
         else None.

(** How the loop of [_commonGetCMIValue] is left: by [return;] inside it,
    or at its end (or a [break]) with [refObject] and the last
    [attribute]. *)
Inductive get_exit : Type :=
| EarlyReturn
| LoopEnd (refObject : node) (attribute : option string).

Fixpoint get_loop (scorm2004 : bool) (structure : list string) (refObject : node)
  (attribute : option string) (err : error_register) {struct structure}
  : option (error_register * completion get_exit) :=
  match structure with
  | [] => Some (err, Return (LoopEnd refObject attribute))
  | attribute :: tl =>
      match refObject with
      | Prim _ => None
      | _ =>
          if scorm2004 && String.eqb (JsString.substr0 8 attribute) "{target="
             && has_isTargetValid refObject
          then None
          else if (if scorm2004 then true else match tl with [] => true | _ => false end)
                  && negb (_checkObjectHasProperty refObject attribute)
          then Some (thrown (invalidErrorCode scorm2004), Return EarlyReturn)
          else
            match read_property refObject attribute with
            | None => None
            | Some (Throw e) => Some (err, Throw e)
            | Some (Return x) =>
                if negb (truthy_node x)
                then Some (thrown (invalidErrorCode scorm2004),
                           Return (LoopEnd x (Some attribute)))
                else
                  match x, tl with
                  | Collection _ _ _ cs, next :: rest =>
                      match JsString.parseInt next with
                      | Some index =>
                          match child_at cs index with
                          | Some item =>
                              get_loop scorm2004 rest item (Some attribute) err
                          | None =>
                              Some (thrown (VALUE_NOT_INITIALIZED error_codes),
                                    Return (LoopEnd x (Some attribute)))
                          end
                      | None => get_loop scorm2004 tl x (Some attribute) err
                      end
                  | _, _ => get_loop scorm2004 tl x (Some attribute) err
                  end
            end
      end
  end.

Definition attribute_is (attribute : option string) (name : string) : bool :=
  match attribute with
  | Some a => String.eqb a name
  | None => false
  end.

(** The loop of [_commonGetCMIValue] on [listenerArray.<i>.<member>]: a
    missing registration, and a member holding [null] or the empty string,
    are the [break] with the invalid-element error; what is returned is the
    value the walk stopped on, unless it is [null] or [undefined]. *)
Definition get_listener (scorm2004 : bool) (structure : list string) (s : session)
  : option (session * completion node) :=
  match structure with
  | [_; index; attribute] =>
      match array_index index with
      | None => None
      | Some n =>
          match nth_error (listenerArray s) n with
          | None => Some (throwSCORMError (invalidErrorCode scorm2004) s, Return undefined)
          | Some l =>
              match listener_member l attribute with
              | None => None
              | Some v =>
                  if truthy v then Some (s, Return (Prim v))
                  else
                    Some (throwSCORMError (invalidErrorCode scorm2004) s,
                          Return (if is_nullish (Prim v) then undefined else Prim v))
              end
          end
      end
  | _ => None
  end.

Definition _commonGetCMIValue (methodName : string) (scorm2004 : bool)
  (CMIElement : string) (s : session) : option (session * completion node) :=
  if String.eqb CMIElement "" then Some (s, Return (Prim (JStr "")))
  else
    let structure := JsString.split "." CMIElement in
    if in_data_model structure
    then
      match get_loop scorm2004 structure (api_object s) None (lastErrorCode s) with
      | None => None
      | Some (err, Throw e) => Some (with_error err s, Throw e)
      | Some (err, Return EarlyReturn) => Some (with_error err s, Return undefined)
      | Some (err, Return (LoopEnd refObject attribute)) =>
          if is_nullish refObject
          then
            let err' :=
              if scorm2004 then err
              else if attribute_is attribute "_children"
                   then thrown (CHILDREN_ERROR scorm12_error_codes)
                   else if attribute_is attribute "_count"
                        then thrown (COUNT_ERROR scorm12_error_codes)
                        else err in
            Some (with_error err' s, Return undefined)
          else Some (with_error err s, Return refObject)
      end
    else if in_listenerArray structure
         then get_listener scorm2004 structure s
         else None.

(** *** Public operations *)

Definition initialize (callbackName : string) (s : session) : string * session :=
  let '(returnValue, s1) :=
    if isInitialized s then (SCORM_FALSE, throwSCORMError (INITIALIZED error_codes) s)
    else if isTerminated s then (SCORM_FALSE, throwSCORMError (TERMINATED error_codes) s)
    else (SCORM_TRUE,
          processListeners callbackName None None
            (with_error (ErrNum 0) (with_state STATE_INITIALIZED s))) in
  (returnValue, clearSCORMError (Prim (JStr returnValue)) s1).

Definition terminate (callbackName : string) (checkTerminated : bool) (s : session)
  : string * session :=
  let '(ok, s1) := checkState checkTerminated (TERMINATION_BEFORE_INIT error_codes)
                     (MULTIPLE_TERMINATION error_codes) s in
  let '(returnValue, s2) :=
    if ok
    then (SCORM_TRUE,
          processListeners callbackName None None
            (with_state STATE_TERMINATED
               (if checkTerminated then with_error (ErrNum 0) s1 else s1)))
    else (SCORM_FALSE, s1) in
  (returnValue, clearSCORMError (Prim (JStr returnValue)) s2).

(** [getValue]: an exception of [getCMIValue] is not caught and leaves the
    operation; [None] where the resolver is outside the embedding. *)
Definition getValue (callbackName : string) (checkTerminated : bool)
  (CMIElement : string) (s : session) : option (completion node * session) :=
  let '(ok, s1) := checkState checkTerminated (RETRIEVE_BEFORE_INIT error_codes)
                     (RETRIEVE_AFTER_TERM error_codes) s in
  if ok
  then
    let s2 := if checkTerminated then with_error (ErrNum 0) s1 else s1 in
    match getCMIValue CMIElement s2 with
    | None => None
    | Some (s3, Throw e) => Some (Throw e, s3)
    | Some (s3, Return returnValue) =>
        let s4 := processListeners callbackName (Some CMIElement) None s3 in
        Some (Return returnValue, clearSCORMError returnValue s4)
    end
  else Some (Return undefined, clearSCORMError undefined s1).

(** [setValue]: a [ValidationError] of [setCMIValue] is caught and its code
    stored, any other exception becomes the general error.  ([setCMIValue]
    always hands back a token, so the repair of an [undefined] return value
    has nothing to do.)  [None] where the resolver is outside the embedding. *)
Definition setValue (callbackName : string) (checkTerminated : bool)
  (CMIElement : string) (value : jsval) (s : session) : option (string * session) :=
  let '(ok, s1) := checkState checkTerminated (STORE_BEFORE_INIT error_codes)
                     (STORE_AFTER_TERM error_codes) s in
  let guarded :=
    if ok
    then
      let s2 := if checkTerminated then with_error (ErrNum 0) s1 else s1 in
      match setCMIValue CMIElement value s2 with
      | None => None
      | Some (s3, outcome) =>
          let '(returnValue, s4) :=
            match outcome with
            | Return r => (r, s3)
            | Throw (ValidationError code) => (SCORM_FALSE, with_error (ErrNum code) s3)
            | Throw TypeError => (SCORM_FALSE, throwSCORMError (GENERAL error_codes) s3)
            end in
          Some (returnValue,
                processListeners callbackName (Some CMIElement) (Some value) s4)
      end
    else Some (SCORM_FALSE, s1) in
  match guarded with
  | None => None
  | Some (returnValue, s5) =>
      let s6 :=
        if String.eqb (register_string (lastErrorCode s5)) "0"
        then if autocommit (settings s5) && timeout_is_undefined s5
             then scheduleCommit (autocommitSeconds (settings s5) * 1000) s5
             else s5
        else s5 in
      Some (returnValue, clearSCORMError (Prim (JStr returnValue)) s6)
  end.

Definition commit (callbackName : string) (checkTerminated : bool) (s : session)
  : jsval * session :=
  let s0 := clearScheduledCommit s in
  let '(ok, s1) := checkState checkTerminated (COMMIT_BEFORE_INIT error_codes)
                     (COMMIT_AFTER_TERM error_codes) s0 in
  let '(returnValue, s5) :=
    if ok
    then
      let '(s2, result) := storeData false s1 in
      let s3 :=
        match get_errorCode result with
        | Some code => if 0 <? code then throwSCORMError code s2 else s2
        | None => s2
        end in
      let returnValue :=
        if truthy (get_result result) then get_result result else JStr SCORM_FALSE in
      let s4 := if checkTerminated then with_error (ErrNum 0) s3 else s3 in
      (returnValue, processListeners callbackName None None s4)
    else (JStr SCORM_FALSE, s1) in
  (returnValue, clearSCORMError (Prim returnValue) s5).

Definition getLastError (callbackName : string) (s : session) : string * session :=
  (register_string (lastErrorCode s), processListeners callbackName None None s).

End BaseAPI.

(** ** Class [Scorm12API] *)

Section Scorm12API.

(** The imported table of SCORM 1.2 error codes. *)
Variable scorm12_error_codes : error_code_table.

(** The objects built by the constructors of [./cmi/scorm12_cmi]. *)
Variable CMI : node.
Variable CMIObjectivesObject : node.
Variable CMIInteractionsCorrectResponsesObject : node.
Variable CMIInteractionsObjectivesObject : node.
Variable CMIInteractionsObject : node.

(** The rendering of the tree for a commit ([renderCommitCMI], over
    [JSON.stringify] and [Utilities.flatten]), the host's synchronous POST
    ([None] when [send] throws, otherwise the members of the parsed
    response), and the derivation of the final lesson status that
    [storeData(true)] runs over [cmi.core] and [cmi.student_data].  The POST
    stands for an exchange that completes: the host opens the request and
    the answer is the JSON text of an object whose [result] is a primitive
    and whose [errorCode], if any, is an integer.  An exchange in which
    [httpReq.open] or [JSON.parse] throws (both are outside the [try]), and
    any other answer, are outside the embedding: there [commit] may not
    return. *)
Variable payload : Type.
Variable renderCommitCMI : bool -> session -> payload.
Variable httpPost : string -> payload -> option (jsval * option Z).
Variable terminationStatus : session -> session.

(** [stringMatches(str, tester)] for the patterns of this class. *)
Definition stringMatches (str : string) (tester : list JsString.atom) : bool :=
  negb (String.eqb str "") && JsString.search tester str.

Definition re_objectives : list JsString.atom :=
  JsString.lits "cmi.objectives." ++ [JsString.Digit].

Definition re_interactions : list JsString.atom :=
  JsString.lits "cmi.interactions." ++ [JsString.Digit].

Definition re_correct_responses : list JsString.atom :=
  re_interactions ++ JsString.lits ".correct_responses." ++ [JsString.Digit].

Definition re_interactions_objectives : list JsString.atom :=
  re_interactions ++ JsString.lits ".objectives." ++ [JsString.Digit].

Definition getChildElement (CMIElement : string) (value : jsval) (foundFirstIndex : bool)
  : node :=
  if stringMatches CMIElement re_objectives then CMIObjectivesObject
  else if foundFirstIndex && stringMatches CMIElement re_correct_responses
  then CMIInteractionsCorrectResponsesObject
  else if foundFirstIndex && stringMatches CMIElement re_interactions_objectives
  then CMIInteractionsObjectivesObject
  else if stringMatches CMIElement re_interactions then CMIInteractionsObject
  else undefined.

Definition setCMIValue (CMIElement : string) (value : jsval) (s : session)
  : option (session * completion string) :=
  _commonSetCMIValue scorm12_error_codes getChildElement "LMSSetValue" false
    CMIElement value s.

Definition getCMIValue (CMIElement : string) (s : session)
  : option (session * completion node) :=
  _commonGetCMIValue scorm12_error_codes scorm12_error_codes "getCMIValue" false
    CMIElement s.

(** [processHttpRequest] of [BaseAPI], for an exchange that completes: the
    [catch] around [send] answers for the destination. *)
Definition processHttpRequest (url : string) (params : payload) : store_result :=
  match httpPost url params with
  | None => Response (JStr SCORM_FALSE) (Some (GENERAL scorm12_error_codes))
  | Some (result, errorCode) => Response result errorCode
  end.

Definition storeData (terminateCommit : bool) (s : session) : session * store_result :=
  let s1 := if terminateCommit then terminationStatus s else s in
  let commitObject := renderCommitCMI terminateCommit s1 in
  match lmsCommitUrl (settings s1) with
  | Some url =>
      if negb (String.eqb url "")
      then (s1, processHttpRequest url commitObject)
      else (s1, Token SCORM_TRUE)
  | None => (s1, Token SCORM_TRUE)
  end.

(** [new Scorm12API(settings)] *)
Definition new_Scorm12API (settings : settings_t) : session :=
  constructor settings CMI.

(** [lmsInitialize]: [this.cmi.initialize()] comes first and throws when
    [cmi] no longer holds an object. *)
Definition lmsInitialize (s : session) : completion string * session :=
  match cmi s with
  | Prim _ => (Throw TypeError, s)
  | c =>
      let '(r, s') := initialize scorm12_error_codes "LMSInitialize"
                        (with_cmi (initialize_node c) s) in
      (Return r, s')
  end.

Definition lmsFinish (s : session) : string * session :=
  terminate scorm12_error_codes "LMSFinish" false s.

Definition lmsGetValue (CMIElement : string) (s : session)
  : option (completion node * session) :=
  getValue scorm12_error_codes getCMIValue "LMSGetValue" false CMIElement s.

Definition lmsSetValue (CMIElement : string) (value : jsval) (s : session)
  : option (string * session) :=
  setValue scorm12_error_codes setCMIValue "LMSSetValue" false CMIElement value s.

Definition lmsCommit (s : session) : jsval * session :=
  commit scorm12_error_codes storeData "LMSCommit" false s.

Definition lmsGetLastError (s : session) : string * session :=
  getLastError "LMSGetLastError" s.

End Scorm12API.

(** ** A sample data model

    A small tree in the shape of the SCORM 1.2 data model, used to run the
    engine on concrete calls: free-text leaves, a length-bounded leaf, a
    write-only element and the two top-level collections. *)

Module Sample.

(** A table of codes in the range of SCORM 1.2. *)
Definition error_codes : error_code_table :=
  {| GENERAL := 101; INITIALIZED := 101; TERMINATED := 101;
     TERMINATION_BEFORE_INIT := 101; MULTIPLE_TERMINATION := 101;
     RETRIEVE_BEFORE_INIT := 301; RETRIEVE_AFTER_TERM := 101;
     STORE_BEFORE_INIT := 301; STORE_AFTER_TERM := 101;
     COMMIT_BEFORE_INIT := 301; COMMIT_AFTER_TERM := 101;
     CHILDREN_ERROR := 202; COUNT_ERROR := 203;
     UNDEFINED_DATA_MODEL := 401; VALUE_NOT_INITIALIZED := 301;
     READ_ONLY_ELEMENT := 403 |}.

Definition is_string (v : jsval) : bool :=
  match v with JStr _ => true | _ => false end.

(** Free text: any string is accepted, anything else is a type mismatch. *)
Definition text : accessor :=
  {| getter_fault := fun _ => None;
     setter_fault := fun _ v => if is_string v then None else Some 405 |}.

(** A short text: a string of at most three characters, anything longer
    is out of range. *)
Definition short : accessor :=
  {| getter_fault := fun _ => None;
     setter_fault := fun _ v =>
       match v with
       | JStr s => if (String.length s <=? 3)%nat then None else Some 407
       | _ => Some 405
       end |}.

(** A write-only element: readable only before initialization. *)
Definition write_only : accessor :=
  {| getter_fault := fun initialized => if initialized then Some 404 else None;
     setter_fault := fun _ v => if is_string v then None else Some 405 |}.

Definition leaf (a : accessor) (name : string) : field := (name, (Some a, Prim (JStr ""))).
Definition child (name : string) (x : node) : field := (name, (None, x)).

Definition CMIObjectivesObject : node :=
  Composite false [leaf text "id"; leaf text "status"].

Definition CMIInteractionsObjectivesObject : node :=
  Composite false [leaf text "id"].

Definition CMIInteractionsCorrectResponsesObject : node :=
  Composite false [leaf text "pattern"].

Definition CMIInteractionsObject : node :=
  Composite false
    [leaf text "id";
     child "objectives" (Collection false "id" 402 []);
     child "correct_responses" (Collection false "pattern" 402 [])].

Definition CMI : node :=
  Composite false
    [leaf text "suspend_data";
     child "core"
       (Composite false
          [leaf text "lesson_location";
           leaf write_only "session_time";
           child "score" (Composite false [leaf short "raw"])]);
     child "objectives" (Collection false "id,status" 402 []);
     child "interactions" (Collection false "id,objectives,correct_responses" 402 [])].

Definition default_settings : settings_t :=
  {| autocommit := false; autocommitSeconds := 60; lmsCommitUrl := None;
     dataCommitFormat := "json"; mastery_override := false |}.

Definition autocommit_settings : settings_t :=
  {| autocommit := true; autocommitSeconds := 60; lmsCommitUrl := None;
     dataCommitFormat := "json"; mastery_override := false |}.

Definition getChildElement : string -> jsval -> bool -> node :=
  getChildElement CMIObjectivesObject CMIInteractionsCorrectResponsesObject
    CMIInteractionsObjectivesObject CMIInteractionsObject.

Definition renderCommitCMI (terminateCommit : bool) (s : session) : node := cmi s.

Definition httpPost (url : string) (params : node) : option (jsval * option Z) :=
  Some (JStr SCORM_TRUE, Some 0).

Definition new_api (settings : settings_t) : session := new_Scorm12API CMI settings.

Definition lmsInitialize : session -> completion string * session :=
  lmsInitialize error_codes.

Definition lmsFinish : session -> string * session := lmsFinish error_codes.

Definition lmsSetValue : string -> jsval -> session -> option (string * session) :=
  lmsSetValue error_codes CMIObjectivesObject CMIInteractionsCorrectResponsesObject
    CMIInteractionsObjectivesObject CMIInteractionsObject.

Definition lmsGetValue : string -> session -> option (completion node * session) :=
  lmsGetValue error_codes.

Definition lmsCommit : session -> jsval * session :=
  lmsCommit error_codes node renderCommitCMI httpPost (fun s => s).

(** A session right after [lmsInitialize()]. *)
Definition started (settings : settings_t) : session :=
  snd (lmsInitialize (new_api settings)).

(** [lmsSetValue] on a session, keeping the session when the call is
    outside the embedding. *)
Definition after_set (CMIElement : string) (value : string) (s : session) : session :=
  match lmsSetValue CMIElement (JStr value) s with
  | Some (_, s') => s'
  | None => s
  end.

(** [setValue] of the base class under a given operation name, without the
    termination check. *)
Definition baseSetValue (callbackName : string)
  : string -> jsval -> session -> option (string * session) :=
  setValue error_codes
    (setCMIValue error_codes CMIObjectivesObject CMIInteractionsCorrectResponsesObject
       CMIInteractionsObjectivesObject CMIInteractionsObject)
    callbackName false.

(** The session an operation leaves (the session given when the call is
    outside the embedding). *)
Definition session_after {A : Type} (r : option (A * session)) (s : session) : session :=
  match r with
  | Some (_, s') => s'
  | None => s
  end.

(** The children of the collection [cmi.interactions]. *)
Definition interactions (s : session) : list node :=
  match cmi s with
  | Composite _ fs =>
      match find_field "interactions" fs with
      | Some (_, Collection _ _ _ cs) => cs
      | _ => []
      end
  | _ => []
  end.

End Sample.

(** ** Vocabulary of the properties *)

(** The five public operations, as data. *)
Inductive operation : Type :=
| Initialize
| Terminate (checkTerminated : bool)
| GetValue (checkTerminated : bool) (CMIElement : string)
| SetValue (checkTerminated : bool) (CMIElement : string) (value : jsval)
| Commit (checkTerminated : bool).

(** The code [checkState] throws on a session, if it rejects it. *)
Definition lifecycle_failure (checkTerminated : bool) (beforeInitError afterTermError : Z)
  (s : session) : option Z :=
  if isNotInitialized s then Some beforeInitError
  else if checkTerminated && isTerminated s then Some afterTermError
  else None.

Section Operations.

Variable error_codes : error_code_table.
Variable getCMIValue : string -> session -> option (session * completion node).
Variable setCMIValue : string -> jsval -> session -> option (session * completion string).
Variable storeData : bool -> session -> session * store_result.
Variable callbackName : string.

(** One public operation on a session: what it returns (or throws) and the
    session after it. *)
Definition run (op : operation) (s : session) : option (completion node * session) :=
  match op with
  | Initialize =>
      let '(r, s') := initialize error_codes callbackName s in
      Some (Return (Prim (JStr r)), s')
  | Terminate ct =>
      let '(r, s') := terminate error_codes callbackName ct s in
      Some (Return (Prim (JStr r)), s')
  | GetValue ct p => getValue error_codes getCMIValue callbackName ct p s
  | SetValue ct p v =>
      match setValue error_codes setCMIValue callbackName ct p v s with
      | Some (r, s') => Some (Return (Prim (JStr r)), s')
      | None => None
      end
  | Commit ct =>
      let '(r, s') := commit error_codes storeData callbackName ct s in
      Some (Return (Prim r), s')
  end.

(** The life cycle error an operation meets on a session, if any. *)
Definition lifecycle_error (op : operation) (s : session) : option Z :=
  match op with
  | Initialize =>
      if isInitialized s then Some (INITIALIZED error_codes)
      else if isTerminated s then Some (TERMINATED error_codes)
      else None
  | Terminate ct =>
      lifecycle_failure ct (TERMINATION_BEFORE_INIT error_codes)
        (MULTIPLE_TERMINATION error_codes) s
  | GetValue ct _ =>
      lifecycle_failure ct (RETRIEVE_BEFORE_INIT error_codes)
        (RETRIEVE_AFTER_TERM error_codes) s
  | SetValue ct _ _ =>
      lifecycle_failure ct (STORE_BEFORE_INIT error_codes)
        (STORE_AFTER_TERM error_codes) s
  | Commit ct =>
      lifecycle_failure ct (COMMIT_BEFORE_INIT error_codes)
        (COMMIT_AFTER_TERM error_codes) s
  end.

End Operations.

(** The pending-trigger slot holds no scheduled commit. *)
Definition slot_empty (s : session) : bool :=
  match timeout s with
  | SlotScheduled _ => false
  | _ => true
  end.

(** The host still holds the timer of handle [h]. *)
Definition timer_pending (h : positive) (s : session) : Prop :=
  In h (map fst (timers s)).

(** The value of a primitive is neither [null] nor [undefined]. *)
Definition defined (v : jsval) : bool :=
  match v with
  | JUndefined | JNull => false
  | _ => true
  end.

(** What a data-access operation leaves of a session whose life cycle check
    failed with [code]: the register holds the code, and state, tree,
    invocations and registrations are those of before. *)
Definition rejected (code : Z) (s s' : session) : Prop :=
  lastErrorCode s' = thrown code /\ currentState s' = currentState s /\
  cmi s' = cmi s /\ calls s' = calls s /\ listenerArray s' = listenerArray s.

(** Two sessions agree on everything but the data model tree and the error
    register. *)
Definition same_engine (s s' : session) : Prop :=
  currentState s' = currentState s /\ listenerArray s' = listenerArray s /\
  timeout s' = timeout s /\ settings s' = settings s /\ timers s' = timers s /\
  next_handle s' = next_handle s /\ calls s' = calls s.

(** Two sessions agree on everything but the data model tree, the error
    register and the registrations. *)
Definition same_host (s s' : session) : Prop :=
  currentState s' = currentState s /\ timeout s' = timeout s /\
  settings s' = settings s /\ timers s' = timers s /\
  next_handle s' = next_handle s /\ calls s' = calls s.

(** A path of the data model: the empty path, which addresses nothing, or a
    path rooted at the member [cmi]. *)
Definition data_model_path (p : string) : bool :=
  String.eqb p "" || in_data_model (JsString.split "." p).

(** An operation that takes a path takes a path of the data model. *)
Definition addresses_data_model (op : operation) : bool :=
  match op with
  | GetValue _ p | SetValue _ p _ => data_model_path p
  | _ => true
  end.

(** The token [setValue] returns for a completion of [setCMIValue]: an
    exception is caught and reported as ['false']. *)
Definition returned (out : completion string) : string :=
  match out with
  | Return r => r
  | Throw _ => SCORM_FALSE
  end.

Definition no_fault (f : option Z) : bool :=
  match f with
  | None => true
  | Some _ => false
  end.

(** A path resolves for a value when the walk from [refObject] goes through
    composite objects with readable members and, at a collection, through a
    child that exists or through the index equal to the length (then through
    the child the factory builds), and ends on a member that is a plain
    property or an accessor whose setter accepts the value and whose getter
    does not throw. *)
Fixpoint resolves (factory : string -> jsval -> bool -> node) (CMIElement : string)
  (value : jsval) (structure : list string) (refObject : node) (foundFirstIndex : bool)
  {struct structure} : bool :=
  match structure with
  | [] => false
  | attribute :: tl =>
      match refObject with
      | Composite i fs =>
          match find_field attribute fs with
          | None => false
          | Some (acc, x) =>
              match tl with
              | [] =>
                  match acc with
                  | Some a => no_fault (setter_fault a i value) && no_fault (getter_fault a i)
                  | None => true
                  end
              | next :: rest =>
                  match acc with
                  | Some a => no_fault (getter_fault a i)
                  | None => true
                  end &&
                  match x with
                  | Prim _ => false
                  | Composite _ _ =>
                      resolves factory CMIElement value tl x foundFirstIndex
                  | Collection init _ _ cs =>
                      match JsString.parseInt next with
                      | None => false
                      | Some index =>
                          match child_at cs index with
                          | Some item =>
                              resolves factory CMIElement value rest item foundFirstIndex
                          | None =>
                              (index =? Z.of_nat (List.length cs)) &&
                              match factory CMIElement value foundFirstIndex with
                              | Composite ci cfs =>
                                  resolves factory CMIElement value rest
                                    (if init then initialize_node (Composite ci cfs)
                                     else Composite ci cfs) true
                              | _ => false
                              end
                          end
                      end
                  end
              end
          end
      | _ => false
      end
  end.

(** The sessions an SCO can bring about: a new [Scorm12API] driven through
    [on] and the LMS functions. *)
Section Reachable.

Variable scorm12_error_codes : error_code_table.
Variables CMI O1 O2 O3 O4 : node.
Variable payload : Type.
Variable renderCommitCMI : bool -> session -> payload.
Variable httpPost : string -> payload -> option (jsval * option Z).
Variable terminationStatus : session -> session.

Inductive reachable : session -> Prop :=
| reach_new (st : settings_t) : reachable (new_Scorm12API CMI st)
| reach_on (s : session) (pattern : string) (cb : option nat) :
    reachable s -> reachable (on pattern cb s)
| reach_initialize (s : session) :
    reachable s -> reachable (snd (lmsInitialize scorm12_error_codes s))
| reach_finish (s : session) :
    reachable s -> reachable (snd (lmsFinish scorm12_error_codes s))
| reach_get (s : session) (p : string) (r : completion node) (s' : session) :
    reachable s -> lmsGetValue scorm12_error_codes p s = Some (r, s') -> reachable s'
| reach_set (s : session) (p : string) (v : jsval) (r : string) (s' : session) :
    reachable s ->
    lmsSetValue scorm12_error_codes O1 O2 O3 O4 p v s = Some (r, s') -> reachable s'
| reach_commit (s : session) :
    reachable s ->
    reachable (snd (lmsCommit scorm12_error_codes payload renderCommitCMI httpPost
                      terminationStatus s)).

End Reachable.

(** ** Further members of [BaseAPI] and [Scorm12API] *)

Module Logging.

Fixpoint spaces (n : nat) : string :=
  match n with
  | O => EmptyString
  | S n' => String " " (spaces n')
  end.

(** The loop [for (i = 0; i < fillChars; i++) messageString += ' '] with
    [fillChars = width - messageString.length]: nothing is added when the
    string is already that long. *)
Definition fill (width : nat) (messageString : string) : string :=
  messageString ++ spaces (width - String.length messageString).

(** [formatMessage(functionName, CMIElement, message)]; [None] is a
    [CMIElement] of [null]. *)
Definition formatMessage (functionName : string) (CMIElement : option string)
  (message : string) : string :=
  let baseLength := 20%nat in
  let messageString := fill baseLength functionName ++ ": " in
  let messageString :=
    match CMIElement with
    | Some element =>
        if String.eqb element "" then messageString
        else
          let CMIElementBaseLength := 70%nat in
          fill CMIElementBaseLength (messageString ++ element)
    | None => messageString
    end in
  if String.eqb message "" then messageString else messageString ++ message.

(** The log levels among [global_constants] ([./constants/api_constants]
    is absent: the levels are taken as given). *)
Record log_levels : Type := {
  LOG_LEVEL_DEBUG : Z;
  LOG_LEVEL_INFO : Z;
  LOG_LEVEL_WARNING : Z;
  LOG_LEVEL_ERROR : Z
}.

(** The three sinks [apiLog] writes to. *)
Inductive sink : Type :=
| console_error
| console_warn
| console_info.

(** [apiLog(functionName, CMIElement, logMessage, messageLevel)] with the
    [apiLogLevel] of the API: the line written and its sink, or [None] when
    nothing is written. *)
Definition apiLog (levels : log_levels) (apiLogLevel : Z) (functionName : string)
  (CMIElement : option string) (logMessage : string) (messageLevel : Z)
  : option (sink * string) :=
  let logMessage := formatMessage functionName CMIElement logMessage in
  if apiLogLevel <=? messageLevel
  then
    if messageLevel =? LOG_LEVEL_ERROR levels then Some (console_error, logMessage)
    else if messageLevel =? LOG_LEVEL_WARNING levels then Some (console_warn, logMessage)
    else if messageLevel =? LOG_LEVEL_INFO levels then Some (console_info, logMessage)
    else None
  else None.

End Logging.

(** [String(v)] for a primitive value. *)
Definition js_String (v : jsval) : string :=
  match v with
  | JUndefined => "undefined"
  | JNull => "null"
  | JBool true => "true"
  | JBool false => "false"
  | JNum n => JsString.of_number n
  | JStr s => s
  end.

Section ErrorStrings.

(** The abstract [getLmsErrorMessageDetails(errorNumber, detail)]. *)
Variable getLmsErrorMessageDetails : jsval -> bool -> jsval.

(** [CMIErrorCode !== null && CMIErrorCode !== ''] *)
Definition names_a_code (CMIErrorCode : jsval) : bool :=
  match CMIErrorCode with
  | JNull => false
  | JStr s => negb (String.eqb s "")
  | _ => true
  end.

Definition getErrorString (callbackName : string) (CMIErrorCode : jsval) (s : session)
  : jsval * session :=
  if names_a_code CMIErrorCode
  then (getLmsErrorMessageDetails CMIErrorCode false,
        processListeners callbackName None None s)
  else (JStr "", s).

Definition getDiagnostic (callbackName : string) (CMIErrorCode : jsval) (s : session)
  : jsval * session :=
  if names_a_code CMIErrorCode
  then (getLmsErrorMessageDetails CMIErrorCode true,
        processListeners callbackName None None s)
  else (JStr "", s).

End ErrorStrings.

Section Scorm12ErrorStrings.

(** [constants.error_descriptions], read at a key: the [basicMessage] and
    the [detailMessage] of what the key holds, when that is truthy
    ([scorm12_constants] is absent: the table is taken as given). *)
Variable error_descriptions : string -> option (jsval * jsval).

(** [getLmsErrorMessageDetails] of [Scorm12API] *)
Definition scorm12_getLmsErrorMessageDetails (errorNumber : jsval) (detail : bool) : jsval :=
  let basicMessage := JStr "No Error" in
  let detailMessage := JStr "No Error" in
  let errorNumber := js_String errorNumber in
  let '(basicMessage, detailMessage) :=
    match error_descriptions errorNumber with
    | Some (basic, detailed) => (basic, detailed)
    | None => (basicMessage, detailMessage)
    end in
  if detail then detailMessage else basicMessage.

Definition lmsGetErrorString (CMIErrorCode : jsval) (s : session) : jsval * session :=
  getErrorString scorm12_getLmsErrorMessageDetails "LMSGetErrorString" CMIErrorCode s.

Definition lmsGetDiagnostic (CMIErrorCode : jsval) (s : session) : jsval * session :=
  getDiagnostic scorm12_getLmsErrorMessageDetails "LMSGetDiagnostic" CMIErrorCode s.

End Scorm12ErrorStrings.

(** [replaceWithAnotherScormAPI(newAPI)] *)
Definition replaceWithAnotherScormAPI (newAPI : session) (s : session) : session :=
  with_cmi (cmi newAPI) s.

(** The rank of a life cycle state in the order of a session's life. *)
Definition state_rank (st : state) : nat :=
  match st with
  | STATE_NOT_INITIALIZED => 0
  | STATE_INITIALIZED => 1
  | STATE_TERMINATED => 2
  end.

(** The character [c] occurs in [s]. *)
Fixpoint occurs (c : ascii) (s : string) : bool :=
  match s with
  | EmptyString => false
  | String a r => Ascii.eqb a c || occurs c r
  end.

(** The host's timers carry handles below the next handle to be issued. *)
Definition handles_fresh (s : session) : Prop :=
  forall h, In h (map fst (timers s)) -> (h < next_handle s)%positive.

(** The object a walk stands on after the segments [structure], when these
    name, from [refObject], members that exist, can be read and hold
    objects, and collection children that exist; a walk that would end on a
    collection, or meets anything else, has no such object. *)
Fixpoint locate (structure : list string) (refObject : node) {struct structure}
  : option node :=
  match structure with
  | [] => Some refObject
  | attribute :: tl =>
      match read_property refObject attribute with
      | Some (Return x) =>
          match x with
          | Prim _ => None
          | Composite _ _ => locate tl x
          | Collection _ _ _ cs =>
              match tl with
              | [] => None
              | next :: rest =>
                  match JsString.parseInt next with
                  | Some index =>
                      match child_at cs index with
                      | Some item => locate rest item
                      | None => None
                      end
                  | None => None
                  end
              end
          end
      | _ => None
      end
  end.

(** What a reading operation notified under [name] leaves of a session:
    everything but the invocations made. *)
Definition only_notified (name : string) (s s' : session) : Prop :=
  currentState s' = currentState s /\ lastErrorCode s' = lastErrorCode s /\
  cmi s' = cmi s /\ listenerArray s' = listenerArray s /\
  timeout s' = timeout s /\ timers s' = timers s /\
  calls s' = (calls s ++ notifications (listenerArray s) name None None)%list.

(** ** A sample LMS *)

Module SampleLms.

(** Two entries of a table of error descriptions. *)
Definition error_descriptions (key : string) : option (jsval * jsval) :=
  if String.eqb key "101"
  then Some (JStr "General Exception", JStr "No specific error code exists.")
  else if String.eqb key "301"
       then Some (JStr "Not initialized", JStr "The call was made before LMSInitialize.")
       else None.

(** Settings with a commit destination. *)
Definition commit_settings : settings_t :=
  {| autocommit := false; autocommitSeconds := 60; lmsCommitUrl := Some "/lms/commit";
     dataCommitFormat := "json"; mastery_override := false |}.

(** A destination that refuses what is posted. *)
Definition refusing (url : string) (params : node) : option (jsval * option Z) :=
  Some (JStr SCORM_FALSE, Some 101).

(** Four log levels in increasing order. *)
Definition levels : Logging.log_levels :=
  {| Logging.LOG_LEVEL_DEBUG := 1; Logging.LOG_LEVEL_INFO := 2;
     Logging.LOG_LEVEL_WARNING := 3; Logging.LOG_LEVEL_ERROR := 4 |}.

End SampleLms.
(** * Properties *)

(** ** Basic facts *)

Example split_dots : JsString.split "." "cmi.core..x" = ["cmi"; "core"; ""; "x"].
Proof. reflexivity. Qed.

Example split_empty : JsString.split "." "" = [""].
Proof. reflexivity. Qed.

Example parseInt_examples :
  JsString.parseInt "2" = Some 2 /\ JsString.parseInt "12abc" = Some 12 /\
  JsString.parseInt "-1" = Some (-1) /\ JsString.parseInt "id" = None /\
  JsString.parseInt "" = None /\ JsString.parseInt " 7" = Some 7.
Proof. repeat split; reflexivity. Qed.

Example of_number_examples :
  JsString.of_number 0 = "0" /\ JsString.of_number 301 = "301" /\
  JsString.of_number (-5) = "-5".
Proof. repeat split; reflexivity. Qed.

(** The engine on the sample session. *)

Example initialize_twice :
  let s := Sample.started Sample.default_settings in
  currentState s = STATE_INITIALIZED /\
  fst (Sample.lmsInitialize s) = Return SCORM_FALSE /\
  lastErrorCode (snd (Sample.lmsInitialize s)) = ErrStr "101".
Proof. vm_compute. repeat split; reflexivity. Qed.

Example rejected_by_validator :
  let s := Sample.started Sample.default_settings in
  let r := Sample.lmsSetValue "cmi.core.score.raw" (JStr "1000") s in
  option_map fst r = Some SCORM_FALSE /\
  lastErrorCode (Sample.session_after r s) = ErrNum 407 /\
  cmi (Sample.session_after r s) = cmi s.
Proof. vm_compute. repeat split; reflexivity. Qed.

Example unknown_element :
  let s := Sample.started Sample.default_settings in
  let r := Sample.lmsSetValue "cmi.core.nothing" (JStr "x") s in
  option_map fst r = Some SCORM_FALSE /\
  lastErrorCode (Sample.session_after r s) = ErrStr "101".
Proof. vm_compute. repeat split; reflexivity. Qed.

Example write_below_a_value :
  let s := Sample.after_set "cmi.core.score.raw" "80"
             (Sample.started Sample.default_settings) in
  let r := Sample.lmsSetValue "cmi.core.score.raw.x" (JStr "1") s in
  option_map fst r = Some SCORM_FALSE /\
  lastErrorCode (Sample.session_after r s) = ErrStr "101".
Proof. vm_compute. repeat split; reflexivity. Qed.

Example read_write_only :
  let s := Sample.after_set "cmi.core.session_time" "00:10:00"
             (Sample.started Sample.default_settings) in
  option_map fst (Sample.lmsGetValue "cmi.core.session_time" s)
  = Some (Throw (ValidationError 404)).
Proof. vm_compute. reflexivity. Qed.

Example read_count :
  let s := Sample.after_set "cmi.objectives.0.id" "o1"
             (Sample.started Sample.default_settings) in
  option_map fst (Sample.lmsGetValue "cmi.objectives._count" s)
  = Some (Return (Prim (JNum 1))) /\
  option_map fst (Sample.lmsGetValue "cmi.objectives.0.id" s)
  = Some (Return (Prim (JStr "o1"))) /\
  option_map fst (Sample.lmsGetValue "" s) = Some (Return (Prim (JStr ""))).
Proof. vm_compute. repeat split; reflexivity. Qed.

Example index_as_last_segment :
  let s := Sample.started Sample.default_settings in
  let r := Sample.lmsSetValue "cmi.interactions.0" (JStr "x") s in
  option_map fst r = Some SCORM_FALSE /\
  List.length (Sample.interactions (Sample.session_after r s)) = 1%nat.
Proof. vm_compute. repeat split; reflexivity. Qed.

Example outside_the_data_model :
  Sample.lmsSetValue "lastErrorCode" (JStr "7")
    (Sample.started Sample.default_settings) = None /\
  Sample.lmsSetValue "cmi.objectives.childArray" (JStr "x")
    (Sample.started Sample.default_settings) = None.
Proof. vm_compute. split; reflexivity. Qed.

Example read_a_registration :
  let s := on "SetValue.cmi.core.score.raw LMSFinish" (Some 7%nat)
             (Sample.started Sample.default_settings) in
  option_map fst (Sample.lmsGetValue "listenerArray.0.functionName" s)
  = Some (Return (Prim (JStr "SetValue"))) /\
  option_map fst (Sample.lmsGetValue "listenerArray.1.CMIElement" s)
  = Some (Return undefined) /\
  option_map fst (Sample.lmsGetValue "listenerArray.2.CMIElement" s)
  = Some (Return undefined) /\
  lastErrorCode (Sample.session_after (Sample.lmsGetValue "listenerArray.2.CMIElement" s) s)
  = ErrStr "101" /\
  Sample.lmsGetValue "listenerArray.length" s = None.
Proof. vm_compute. repeat split; reflexivity. Qed.

(** [String(n)] is ["0"] for the number 0 only. *)
Lemma of_number_zero (n : Z) : JsString.of_number n = "0" -> n = 0.
Proof.
  unfold JsString.of_number. intros H.
  assert (E : NilZero.int_of_string (NilZero.string_of_int (Z.to_int n))
              = Some (Decimal.Pos (Decimal.D0 Decimal.Nil)))
    by (rewrite H; reflexivity).
  destruct n as [|p|p]; [reflexivity| |]; exfalso.
  - rewrite NilZero.isi in E.
    + injection E as E. simpl in E.
      apply (f_equal Pos.of_uint) in E.
      rewrite DecimalPos.Unsigned.of_to in E. discriminate E.
    + simpl. intros C. injection C as C.
      apply (f_equal Pos.of_uint) in C.
      rewrite DecimalPos.Unsigned.of_to in C. discriminate C.
    + discriminate.
  - rewrite NilZero.isi in E.
    + discriminate E.
    + discriminate.
    + simpl. intros C. injection C as C.
      apply (f_equal Pos.of_uint) in C.
      rewrite DecimalPos.Unsigned.of_to in C. discriminate C.
Qed.

Lemma thrown_nonzero (n : Z) : n <> 0 -> register_string (thrown n) <> "0".
Proof. intros Hn H. apply Hn, of_number_zero, H. Qed.

(** The projections of a session seen through [clearSCORMError]. *)
Lemma clearSCORMError_frame (r : node) (s : session) :
  currentState (clearSCORMError r s) = currentState s /\
  cmi (clearSCORMError r s) = cmi s /\
  calls (clearSCORMError r s) = calls s /\
  timeout (clearSCORMError r s) = timeout s /\
  timers (clearSCORMError r s) = timers s /\
  listenerArray (clearSCORMError r s) = listenerArray s.
Proof. unfold clearSCORMError. destruct (reports_success r); repeat split. Qed.

Lemma clearSCORMError_success (r : node) (s : session) :
  reports_success r = true -> lastErrorCode (clearSCORMError r s) = ErrNum 0.
Proof. unfold clearSCORMError. intros ->. reflexivity. Qed.

Lemma clearSCORMError_failure (r : node) (s : session) :
  reports_success r = false -> clearSCORMError r s = s.
Proof. unfold clearSCORMError. intros ->. reflexivity. Qed.

Lemma checkState_spec (ct : bool) (before after : Z) (s : session) :
  checkState ct before after s =
  match lifecycle_failure ct before after s with
  | Some code => (false, throwSCORMError code s)
  | None => (true, s)
  end.
Proof.
  unfold checkState, lifecycle_failure.
  destruct (isNotInitialized s); [reflexivity|].
  destruct (ct && isTerminated s); reflexivity.
Qed.

(** A notification without an element reaches the registrations made
    under the name of the operation without an element filter. *)
Lemma notifications_without_element (ls : list listener) (name : string) :
  notifications ls name None None =
  map (fun l => {| inv_callback := callback l; inv_CMIElement := None;
                   inv_value := None |})
      (filter (fun l => String.eqb (functionName l) name &&
                        match CMIElement l with
                        | Some e => String.eqb e ""
                        | None => true
                        end) ls).
Proof.
  induction ls as [|l ls IH]; [reflexivity|].
  cbn [notifications filter].
  replace (fires l name None)
    with (String.eqb (functionName l) name &&
          match CMIElement l with Some e => String.eqb e "" | None => true end).
  - destruct (_ && _); cbn [map]; rewrite IH; reflexivity.
  - unfold fires, functionsMatch, listenerHasCMIElement, CMIElementsMatch.
    destruct (CMIElement l) as [e|];
      [rewrite Bool.negb_involutive, Bool.orb_false_r | ]; reflexivity.
Qed.

(** ** Session life cycle *)

Section GuardedOperations.

Variable error_codes : error_code_table.
Variable getCMIValue : string -> session -> option (session * completion node).
Variable setCMIValue : string -> jsval -> session -> option (session * completion string).
Variable storeData : bool -> session -> session * store_result.

Lemma getValue_rejected (cb : string) (ct : bool) (p : string) (s : session) (code : Z) :
  lifecycle_failure ct (RETRIEVE_BEFORE_INIT error_codes)
    (RETRIEVE_AFTER_TERM error_codes) s = Some code ->
  exists s', getValue error_codes getCMIValue cb ct p s = Some (Return undefined, s')
             /\ rejected code s s'.
Proof.
  intros H. unfold getValue. rewrite checkState_spec, H.
  eexists. split; [reflexivity|]. repeat split.
Qed.

Lemma setValue_rejected (cb : string) (ct : bool) (p : string) (v : jsval)
  (s : session) (code : Z) :
  lifecycle_failure ct (STORE_BEFORE_INIT error_codes)
    (STORE_AFTER_TERM error_codes) s = Some code ->
  exists s', setValue error_codes setCMIValue cb ct p v s = Some (SCORM_FALSE, s')
             /\ rejected code s s'.
Proof.
  intros H. unfold setValue. rewrite checkState_spec, H.
  cbv beta iota zeta.
  eexists. split; [reflexivity|].
  rewrite clearSCORMError_failure by reflexivity.
  destruct (String.eqb _ "0"); [|repeat split].
  destruct (autocommit _ && _); repeat split.
Qed.

Lemma commit_rejected (cb : string) (ct : bool) (s : session) (code : Z) :
  lifecycle_failure ct (COMMIT_BEFORE_INIT error_codes)
    (COMMIT_AFTER_TERM error_codes) s = Some code ->
  exists s', commit error_codes storeData cb ct s = (JStr SCORM_FALSE, s')
             /\ rejected code s s'.
Proof.
  intros H. unfold commit. rewrite checkState_spec.
  assert (E : lifecycle_failure ct (COMMIT_BEFORE_INIT error_codes)
                (COMMIT_AFTER_TERM error_codes) (clearScheduledCommit s) = Some code).
  { rewrite <- H. unfold lifecycle_failure, isNotInitialized, isTerminated,
      clearScheduledCommit. destruct (timeout s); reflexivity. }
  rewrite E. eexists. split; [reflexivity|].
  unfold rejected, clearScheduledCommit. destruct (timeout s); repeat split.
Qed.

(** C5: a data-access operation ([getValue], [setValue], [commit]) called
    on a session that is not initialized, or that is terminated while the
    termination check is set, fails with the matching life cycle error code
    ([getValue] returns [undefined], the others ['false'], the register
    holds the code), leaves the data model tree unchanged and notifies no
    listener. *)
Theorem guard_failure_frame (cb : string) (ct : bool) (p : string) (v : jsval)
  (s : session) :
  currentState s = STATE_NOT_INITIALIZED \/
  (ct = true /\ currentState s = STATE_TERMINATED) ->
  let code (beforeInitError afterTermError : Z) :=
    match currentState s with
    | STATE_NOT_INITIALIZED => beforeInitError
    | _ => afterTermError
    end in
  (exists s', getValue error_codes getCMIValue cb ct p s = Some (Return undefined, s')
     /\ lastErrorCode s' = thrown (code (RETRIEVE_BEFORE_INIT error_codes)
                                        (RETRIEVE_AFTER_TERM error_codes))
     /\ cmi s' = cmi s /\ calls s' = calls s /\ currentState s' = currentState s) /\
  (exists s', setValue error_codes setCMIValue cb ct p v s = Some (SCORM_FALSE, s')
     /\ lastErrorCode s' = thrown (code (STORE_BEFORE_INIT error_codes)
                                        (STORE_AFTER_TERM error_codes))
     /\ cmi s' = cmi s /\ calls s' = calls s /\ currentState s' = currentState s) /\
  (exists s', commit error_codes storeData cb ct s = (JStr SCORM_FALSE, s')
     /\ lastErrorCode s' = thrown (code (COMMIT_BEFORE_INIT error_codes)
                                        (COMMIT_AFTER_TERM error_codes))
     /\ cmi s' = cmi s /\ calls s' = calls s /\ currentState s' = currentState s).
Proof.
  intros H code.
  assert (F : forall b a, lifecycle_failure ct b a s = Some (code b a)).
  { intros b a. unfold lifecycle_failure, isNotInitialized, isTerminated, code.
    destruct H as [-> | [-> ->]]; reflexivity. }
  split; [|split].
  - destruct (getValue_rejected cb ct p s _ (F _ _)) as (s' & E & R1 & R2 & R3 & R4 & _).
    exists s'. repeat split; assumption.
  - destruct (setValue_rejected cb ct p v s _ (F _ _)) as (s' & E & R1 & R2 & R3 & R4 & _).
    exists s'. repeat split; assumption.
  - destruct (commit_rejected cb ct s _ (F _ _)) as (s' & E & R1 & R2 & R3 & R4 & _).
    exists s'. repeat split; assumption.
Qed.

(** C10: [terminate] with [checkTerminated = false] on a session that is
    already terminated succeeds again: it returns ['true'], the state stays
    [STATE_TERMINATED], the listeners of the operation are notified once
    more - the callback of every registration made under the name of the
    operation without an element filter is invoked, without arguments, in
    the order of registration - and the error register is reset to 0. *)
Theorem terminate_again_succeeds (cb : string) (s : session) :
  currentState s = STATE_TERMINATED ->
  exists s', terminate error_codes cb false s = (SCORM_TRUE, s')
    /\ currentState s' = STATE_TERMINATED
    /\ calls s' =
       (calls s ++
        map (fun l => {| inv_callback := callback l; inv_CMIElement := None;
                         inv_value := None |})
            (filter (fun l => String.eqb (functionName l) cb &&
                              match CMIElement l with
                              | Some e => String.eqb e ""
                              | None => true
                              end)
                    (listenerArray s)))%list
    /\ lastErrorCode s' = ErrNum 0
    /\ cmi s' = cmi s.
Proof.
  intros H. unfold terminate. rewrite checkState_spec.
  unfold lifecycle_failure, isNotInitialized. rewrite H. simpl.
  eexists. split; [reflexivity|]. split; [reflexivity|]. split; [|split; reflexivity].
  simpl. rewrite notifications_without_element. reflexivity.
Qed.

End GuardedOperations.

(** ** What the resolver touches *)

(** On a path of the data model the resolver leaves the registrations
    alone. *)
Lemma _commonSetCMIValue_frame (ec : error_code_table)
  (factory : string -> jsval -> bool -> node) (m : string) (scorm2004 : bool)
  (p : string) (v : jsval) (s s' : session) (c : completion string) :
  data_model_path p = true ->
  _commonSetCMIValue ec factory m scorm2004 p v s = Some (s', c) -> same_engine s s'.
Proof.
  unfold _commonSetCMIValue, data_model_path.
  destruct (String.eqb p ""); cbn [orb].
  - intros _ E. injection E as <- _. repeat split.
  - intros ->.
    destruct (set_loop _ _ _ _ _ _ _ _ _) as [[[root err] out]|]; [|discriminate].
    intros E. injection E as <- _. repeat split.
Qed.

(** On every path it leaves the state, the settings, the scheduler and the
    record of invocations alone. *)
Lemma _commonSetCMIValue_host (ec : error_code_table)
  (factory : string -> jsval -> bool -> node) (m : string) (scorm2004 : bool)
  (p : string) (v : jsval) (s s' : session) (c : completion string) :
  _commonSetCMIValue ec factory m scorm2004 p v s = Some (s', c) -> same_host s s'.
Proof.
  unfold _commonSetCMIValue.
  destruct (String.eqb p "").
  - intros E. injection E as <- _. repeat split.
  - destruct (in_data_model _).
    + destruct (set_loop _ _ _ _ _ _ _ _ _) as [[[root err] out]|]; [|discriminate].
      intros E. injection E as <- _. repeat split.
    + destruct (in_listenerArray _); [|discriminate].
      unfold set_listener.
      destruct (JsString.split "." p) as [|a [|index [|attribute [|? ?]]]];
        try discriminate.
      destruct (array_index index) as [n|]; [|discriminate].
      destruct (nth_error (listenerArray s) n) as [l|].
      * destruct (set_listener_member l attribute v) as [l'|]; [|discriminate].
        destruct (negb scorm2004 || register_is_number_zero (lastErrorCode s));
          intros E; injection E as <- _; repeat split.
      * intros E. injection E as <- _. repeat split.
Qed.

Lemma _commonGetCMIValue_frame (ec ec12 : error_code_table) (m : string)
  (scorm2004 : bool) (p : string) (s s' : session) (c : completion node) :
  _commonGetCMIValue ec ec12 m scorm2004 p s = Some (s', c) ->
  same_engine s s' /\ cmi s' = cmi s.
Proof.
  unfold _commonGetCMIValue.
  destruct (String.eqb p "").
  - intros E. injection E as <- _. repeat split.
  - destruct (in_data_model _).
    + destruct (get_loop _ _ _ _ _ _) as [[err [[|o a]|e]]|]; try discriminate.
      * intros E. injection E as <- _. repeat split.
      * destruct (is_nullish o); intros E; injection E as <- _; repeat split.
      * intros E. injection E as <- _. repeat split.
    + destruct (in_listenerArray _); [|discriminate].
      unfold get_listener.
      destruct (JsString.split "." p) as [|a [|index [|attribute [|? ?]]]];
        try discriminate.
      destruct (array_index index) as [n|]; [|discriminate].
      destruct (nth_error (listenerArray s) n) as [l|].
      * destruct (listener_member l attribute) as [x|]; [|discriminate].
        destruct (truthy x); intros E; injection E as <- _; repeat split.
      * intros E. injection E as <- _. repeat split.
Qed.

(** ** Commit scheduler *)

Lemma clearTimeout_not_pending (h : positive) (pending : list (positive * Z)) :
  ~ In h (map fst (clearTimeout h pending)).
Proof.
  unfold clearTimeout. intros H.
  apply in_map_iff in H. destruct H as ([h' w] & E & I).
  apply filter_In in I. destruct I as [_ I]. simpl in *. subst h'.
  rewrite Pos.eqb_refl in I. discriminate I.
Qed.

Lemma clearScheduledCommit_spec (s : session) :
  slot_empty (clearScheduledCommit s) = true /\
  forall sc, timeout s = SlotScheduled sc ->
             ~ timer_pending (sc_timeout sc) (clearScheduledCommit s).
Proof.
  unfold clearScheduledCommit, slot_empty, timer_pending.
  destruct (timeout s) as [| |sc0] eqn:E; simpl; rewrite ?E; split; try reflexivity;
    try discriminate.
  intros sc H. injection H as <-. apply clearTimeout_not_pending.
Qed.

Lemma clearScheduledCommit_frame (s : session) :
  currentState (clearScheduledCommit s) = currentState s /\
  settings (clearScheduledCommit s) = settings s /\
  lastErrorCode (clearScheduledCommit s) = lastErrorCode s /\
  cmi (clearScheduledCommit s) = cmi s /\
  calls (clearScheduledCommit s) = calls s /\
  listenerArray (clearScheduledCommit s) = listenerArray s.
Proof. unfold clearScheduledCommit. destruct (timeout s); repeat split. Qed.

Section Scorm12Commit.

Variable error_codes : error_code_table.
Variable payload : Type.
Variable renderCommitCMI : bool -> session -> payload.
Variable httpPost : string -> payload -> option (jsval * option Z).
Variable terminationStatus : session -> session.

Lemma storeData_false_session (s : session) :
  fst (storeData error_codes payload renderCommitCMI httpPost terminationStatus false s)
  = s.
Proof.
  unfold storeData. destruct (lmsCommitUrl (settings s)) as [url|]; [|reflexivity].
  destruct (negb (String.eqb url "")); reflexivity.
Qed.

Lemma commit_scheduler (cb : string) (ct : bool) (s : session) :
  let s' :=
    snd (commit error_codes
           (storeData error_codes payload renderCommitCMI httpPost terminationStatus)
           cb ct s) in
  timeout s' = timeout (clearScheduledCommit s) /\
  timers s' = timers (clearScheduledCommit s).
Proof.
  intros s'. subst s'.
  unfold commit. rewrite checkState_spec.
  destruct (lifecycle_failure _ _ _ _).
  - simpl. split; reflexivity.
  - pose proof (storeData_false_session (clearScheduledCommit s)) as F.
    destruct ((storeData error_codes payload renderCommitCMI httpPost terminationStatus)
        false (clearScheduledCommit s)) as [s2 result]. simpl in F. subst s2.
    cbv beta iota zeta. unfold clearSCORMError, processListeners, throwSCORMError.
    destruct (reports_success _); destruct ct;
      destruct (get_errorCode result) as [code|];
      try destruct (0 <? code); split; reflexivity.
Qed.

(** C9: every call of [commit], also one that then fails the life cycle
    check, first cancels the pending scheduled commit: when it returns the
    pending-trigger slot is empty, and the timer of a trigger that was armed
    before the call is no longer held by the host, so it never fires. *)
Theorem commit_cancels_pending_trigger (cb : string) (ct : bool) (s : session) :
  let s' :=
    snd (commit error_codes
           (storeData error_codes payload renderCommitCMI httpPost terminationStatus)
           cb ct s) in
  slot_empty s' = true /\
  forall sc, timeout s = SlotScheduled sc -> ~ timer_pending (sc_timeout sc) s'.
Proof.
  intros s'. subst s'.
  destruct (commit_scheduler cb ct s) as [T1 T2].
  destruct (clearScheduledCommit_spec s) as [E P].
  unfold slot_empty, timer_pending in *. rewrite T1, T2. split; assumption.
Qed.

(** C3 (the code departs from the claim): on an initialized session without
    a commit destination ([lmsCommitUrl] unset) [commit] returns ['false'],
    not ['true']: [storeData] hands back the bare token ['true'], of which
    [commit] reads the member [result]; the error register is left as it
    was. *)
Theorem commit_without_destination_returns_false (cb : string) (s : session) :
  currentState s = STATE_INITIALIZED ->
  lmsCommitUrl (settings s) = None ->
  exists s',
    commit error_codes
      (storeData error_codes payload renderCommitCMI httpPost terminationStatus)
      cb false s = (JStr SCORM_FALSE, s')
    /\ lastErrorCode s' = lastErrorCode s
    /\ currentState s' = STATE_INITIALIZED.
Proof.
  intros St Url.
  destruct (clearScheduledCommit_frame s) as (F1 & F2 & F3 & F4 & F5 & F6).
  unfold commit. rewrite checkState_spec.
  unfold lifecycle_failure, isNotInitialized. rewrite F1, St.
  cbn [andb]. cbv beta iota.
  unfold storeData. rewrite F2, Url.
  cbv beta iota zeta. simpl.
  eexists. split; [reflexivity|]. split; simpl; congruence.
Qed.

End Scorm12Commit.

(** ** [setValue] around a resolver that keeps to the tree and the register *)

Section SetValue.

Variable error_codes : error_code_table.
Variable setCMIValue : string -> jsval -> session -> option (session * completion string).
Variable p : string.
Variable v : jsval.
Hypothesis setCMIValue_frame :
  forall s s' c, setCMIValue p v s = Some (s', c) -> same_engine s s'.

Lemma setValue_engine (cb : string) (ct : bool)
  (s : session) (r : string) (s' : session) :
  lifecycle_failure ct (STORE_BEFORE_INIT error_codes) (STORE_AFTER_TERM error_codes) s
    = None ->
  setValue error_codes setCMIValue cb ct p v s = Some (r, s') ->
  currentState s' = currentState s /\ listenerArray s' = listenerArray s /\
  calls s' = (calls s ++ notifications (listenerArray s) cb (Some p) (Some v))%list /\
  (timeout s <> SlotUndefined -> timeout s' = timeout s /\ timers s' = timers s).
Proof.
  intros G. unfold setValue. rewrite checkState_spec, G. cbv beta iota zeta.
  destruct (setCMIValue p v _) as [[s3 outcome]|] eqn:E; [|discriminate].
  apply setCMIValue_frame in E.
  destruct E as (E1 & E2 & E3 & E4 & E5 & E6 & E7).
  assert (X : forall s0 : session, s0 = s0) by reflexivity.
  replace (currentState (if ct then with_error (ErrNum 0) s else s))
    with (currentState s) in E1 by (destruct ct; reflexivity).
  replace (listenerArray (if ct then with_error (ErrNum 0) s else s))
    with (listenerArray s) in E2 by (destruct ct; reflexivity).
  replace (timeout (if ct then with_error (ErrNum 0) s else s))
    with (timeout s) in E3 by (destruct ct; reflexivity).
  replace (timers (if ct then with_error (ErrNum 0) s else s))
    with (timers s) in E5 by (destruct ct; reflexivity).
  replace (calls (if ct then with_error (ErrNum 0) s else s))
    with (calls s) in E7 by (destruct ct; reflexivity).
  set (pair :=
         match outcome with
         | Return r0 => (r0, s3)
         | Throw (ValidationError code) => (SCORM_FALSE, with_error (ErrNum code) s3)
         | Throw TypeError => (SCORM_FALSE, throwSCORMError (GENERAL error_codes) s3)
         end).
  assert (P : same_engine s3 (snd pair)).
  { unfold pair. destruct outcome as [r0|[code|]]; repeat split. }
  destruct pair as [rv s4]. simpl in P.
  destruct P as (P1 & P2 & P3 & P4 & P5 & P6 & P7).
  intros R. injection R as <- <-.
  assert (U : timeout s <> SlotUndefined ->
              timeout_is_undefined (processListeners cb (Some p) (Some v) s4) = false).
  { intros N. unfold timeout_is_undefined. simpl. rewrite P3, E3.
    destruct (timeout s); congruence. }
  assert (L : calls (processListeners cb (Some p) (Some v) s4) =
              (calls s ++ notifications (listenerArray s) cb (Some p) (Some v))%list).
  { simpl. rewrite P7, E7, P2, E2. reflexivity. }
  assert (Q : same_engine s3 (with_calls (calls s3) (processListeners cb (Some p) (Some v) s4))).
  { repeat split; simpl; congruence. }
  destruct Q as (Q1 & Q2 & Q3 & Q4 & Q5 & Q6 & _). simpl in Q1, Q2, Q3, Q5.
  unfold clearSCORMError.
  destruct (reports_success _); destruct (String.eqb _ "0");
    try (destruct (autocommit _ && timeout_is_undefined _) eqn:T);
    simpl; (split; [congruence|]); (split; [congruence|]); (split; [exact L|]);
    intros N; try (split; congruence);
    rewrite (U N), Bool.andb_false_r in T; discriminate T.
Qed.

End SetValue.

(** ** [setValue] around a resolver that keeps to the tree, the register and
    the registrations *)

Section SetValueHost.

Variable error_codes : error_code_table.
Variable setCMIValue : string -> jsval -> session -> option (session * completion string).
Hypothesis setCMIValue_host :
  forall p v s s' c, setCMIValue p v s = Some (s', c) -> same_host s s'.

Lemma setValue_host (cb : string) (ct : bool) (p : string) (v : jsval)
  (s : session) (r : string) (s' : session) :
  lifecycle_failure ct (STORE_BEFORE_INIT error_codes) (STORE_AFTER_TERM error_codes) s
    = None ->
  setValue error_codes setCMIValue cb ct p v s = Some (r, s') ->
  currentState s' = currentState s /\
  (timeout s <> SlotUndefined -> timeout s' = timeout s /\ timers s' = timers s).
Proof.
  intros G. unfold setValue. rewrite checkState_spec, G. cbv beta iota zeta.
  destruct (setCMIValue p v _) as [[s3 outcome]|] eqn:E; [|discriminate].
  apply setCMIValue_host in E.
  destruct E as (E1 & E3 & E4 & E5 & E6 & E7).
  replace (currentState (if ct then with_error (ErrNum 0) s else s))
    with (currentState s) in E1 by (destruct ct; reflexivity).
  replace (timeout (if ct then with_error (ErrNum 0) s else s))
    with (timeout s) in E3 by (destruct ct; reflexivity).
  replace (timers (if ct then with_error (ErrNum 0) s else s))
    with (timers s) in E5 by (destruct ct; reflexivity).
  set (pair :=
         match outcome with
         | Return r0 => (r0, s3)
         | Throw (ValidationError code) => (SCORM_FALSE, with_error (ErrNum code) s3)
         | Throw TypeError => (SCORM_FALSE, throwSCORMError (GENERAL error_codes) s3)
         end).
  assert (P : same_host s3 (snd pair)).
  { unfold pair. destruct outcome as [r0|[code|]]; repeat split. }
  destruct pair as [rv s4]. simpl in P.
  destruct P as (P1 & P3 & P4 & P5 & P6 & P7).
  intros R. injection R as <- <-.
  assert (U : timeout s <> SlotUndefined ->
              timeout_is_undefined (processListeners cb (Some p) (Some v) s4) = false).
  { intros N. unfold timeout_is_undefined. simpl. rewrite P3, E3.
    destruct (timeout s); congruence. }
  unfold clearSCORMError.
  destruct (reports_success _); destruct (String.eqb _ "0");
    try (destruct (autocommit _ && timeout_is_undefined _) eqn:T);
    simpl; (split; [congruence|]);
    intros N; try (split; congruence);
    rewrite (U N), Bool.andb_false_r in T; discriminate T.
Qed.

End SetValueHost.

Lemma setCMIValue_frame (ec : error_code_table) (O1 O2 O3 O4 : node) (p : string)
  (v : jsval) (s s' : session) (c : completion string) :
  data_model_path p = true ->
  setCMIValue ec O1 O2 O3 O4 p v s = Some (s', c) -> same_engine s s'.
Proof. apply _commonSetCMIValue_frame. Qed.

Lemma setCMIValue_host (ec : error_code_table) (O1 O2 O3 O4 : node) (p : string)
  (v : jsval) (s s' : session) (c : completion string) :
  setCMIValue ec O1 O2 O3 O4 p v s = Some (s', c) -> same_host s s'.
Proof. apply _commonSetCMIValue_host. Qed.

Lemma constructor_slot (st : settings_t) (c : node) : timeout (constructor st c) = SlotNull.
Proof. reflexivity. Qed.

(** [setValue] arms a trigger on an [undefined] slot only. *)
Lemma setValue_scheduler (ec : error_code_table) (O1 O2 O3 O4 : node)
  (cb : string) (ct : bool) (p : string) (v : jsval) (s : session)
  (r : string) (s' : session) :
  timeout s <> SlotUndefined ->
  setValue ec (setCMIValue ec O1 O2 O3 O4) cb ct p v s = Some (r, s') ->
  timeout s' = timeout s /\ timers s' = timers s.
Proof.
  intros T R.
  destruct (lifecycle_failure ct (STORE_BEFORE_INIT ec) (STORE_AFTER_TERM ec) s)
    as [code|] eqn:G.
  - revert R. unfold setValue. rewrite checkState_spec, G. cbv beta iota zeta.
    rewrite clearSCORMError_failure by reflexivity.
    assert (U : timeout_is_undefined (throwSCORMError code s) = false)
      by (unfold timeout_is_undefined; simpl; destruct (timeout s); congruence).
    rewrite U, Bool.andb_false_r.
    destruct (String.eqb _ "0"); intros R; injection R as _ <-; split; reflexivity.
  - destruct (setValue_host ec _ (setCMIValue_host ec O1 O2 O3 O4) cb ct p v s r s' G R)
      as (_ & K).
    exact (K T).
Qed.

(** C2 (the code departs from the claim): [setValue] arms a commit only
    when the slot [#timeout] is [undefined], but the constructor stores
    [null] in it and [clearScheduledCommit] puts [null] back; on a session
    whose slot holds [null] no call of [setValue], successful or not, with
    autocommit enabled or not, arms a trigger: the slot stays [null] and the
    host gets no timer. *)
Theorem setValue_leaves_null_slot_unarmed (ec : error_code_table) (O1 O2 O3 O4 : node)
  (cb : string) (ct : bool) (p : string) (v : jsval) (s : session)
  (r : string) (s' : session) :
  timeout s = SlotNull ->
  setValue ec (setCMIValue ec O1 O2 O3 O4) cb ct p v s = Some (r, s') ->
  timeout s' = SlotNull /\ timers s' = timers s.
Proof.
  intros T R.
  assert (N : timeout s <> SlotUndefined) by (rewrite T; discriminate).
  destruct (setValue_scheduler ec O1 O2 O3 O4 cb ct p v s r s' N R) as [K1 K2].
  split; [rewrite K1; exact T | exact K2].
Qed.

(** ** Listener bus *)

(** C6 (the code departs from the claim): for a pattern of two tokens the
    element path recorded with each registration is cut from the whole
    pattern, not from the token: the text of the other token stays in it. *)
Theorem on_records_whole_pattern (cb : nat) (s : session) :
  listenerArray
    (on "SetValue.cmi.core.score.raw GetValue.cmi.core.score.raw" (Some cb) s) =
  (listenerArray s ++
   [ {| functionName := "SetValue";
        CMIElement := Some "cmi.core.score.raw GetValue.cmi.core.score.raw";
        callback := cb |};
     {| functionName := "GetValue";
        CMIElement := Some "SetValue.cmi.core.score.raw cmi.core.score.raw";
        callback := cb |} ])%list.
Proof. reflexivity. Qed.

Lemma notifications_filter (ls : list listener) (name : string) (element : option string)
  (value : option jsval) :
  notifications ls name element value =
  map (fun l => {| inv_callback := callback l; inv_CMIElement := element;
                   inv_value := value |})
      (filter (fun l => fires l name element) ls).
Proof.
  induction ls as [|l ls IH]; [reflexivity|].
  simpl. destruct (fires l name element); simpl; rewrite IH; reflexivity.
Qed.

Lemma fires_iff (l : listener) (name : string) (element : option string) :
  fires l name element = true <->
  functionName l = name /\
  (listenerHasCMIElement l = false \/
   exists p, CMIElement l = Some p /\ element = Some p).
Proof.
  unfold fires, functionsMatch, CMIElementsMatch.
  rewrite Bool.andb_true_iff, Bool.orb_true_iff, String.eqb_eq, Bool.negb_true_iff.
  split; intros [F H]; (split; [exact F|]); destruct H as [H|H]; auto.
  - destruct (CMIElement l) as [a|], element as [b|]; try discriminate.
    apply String.eqb_eq in H. subst b. right. exists a. split; reflexivity.
  - destruct H as (p & -> & ->). right. apply String.eqb_refl.
Qed.

Lemma on_single (cb : nat) (s : session) :
  listenerArray (on "SetValue.cmi.core.score.raw" (Some cb) s) =
  (listenerArray s ++
   [ {| functionName := "SetValue"; CMIElement := Some "cmi.core.score.raw";
        callback := cb |} ])%list.
Proof. reflexivity. Qed.

(** C7, amended: [on] appends its registrations, one for each token in
    the order of the tokens, after those made before, and [processListeners]
    goes through the registrations in that order and invokes a callback
    exactly when the registration's operation name equals the notified name
    and either it has no element-path filter ([CMIElement] is [null] or
    empty) or the filter equals the notified element path; so a callback
    registered alone with [on("SetValue.cmi.core.score.raw", cb)] on an
    initialized session is invoked by [setValue("SetValue", _, p, v)] exactly
    once, with [(p, v)], when [p] is [cmi.core.score.raw], and not at all for
    any other path of the data model (the empty path or a path rooted at
    [cmi]). *)
Theorem listeners_fire_in_registration_order :
  (forall (pattern : string) (cb : nat) (s : session),
      listenerArray (on pattern (Some cb) s)
      = (listenerArray s ++
         map (fun token => registration pattern token cb)
             (JsString.split " " pattern))%list) /\
  (forall (s : session) (name : string) (element : option string) (value : option jsval),
      calls (processListeners name element value s) =
      (calls s ++
       map (fun l => {| inv_callback := callback l; inv_CMIElement := element;
                        inv_value := value |})
           (filter (fun l => fires l name element) (listenerArray s)))%list) /\
  (forall (l : listener) (name : string) (element : option string),
      fires l name element = true <->
      functionName l = name /\
      (CMIElement l = None \/ CMIElement l = Some "" \/
       exists p, CMIElement l = Some p /\ element = Some p)) /\
  (forall (ec : error_code_table) (O1 O2 O3 O4 : node) (cb : nat) (ct : bool)
          (p : string) (v : jsval) (s : session) (r : string) (s' : session),
      currentState s = STATE_INITIALIZED ->
      listenerArray s = [] ->
      data_model_path p = true ->
      setValue ec (setCMIValue ec O1 O2 O3 O4) "SetValue" ct p v
        (on "SetValue.cmi.core.score.raw" (Some cb) s) = Some (r, s') ->
      calls s' =
      (calls s ++
       if String.eqb p "cmi.core.score.raw"
       then [ {| inv_callback := cb; inv_CMIElement := Some "cmi.core.score.raw";
                 inv_value := Some v |} ]
       else [])%list).
Proof.
  split; [|split; [|split]].
  - intros pattern cb s. reflexivity.
  - intros s name element value. simpl. rewrite notifications_filter. reflexivity.
  - intros l name element. rewrite fires_iff. unfold listenerHasCMIElement.
    split; intros [F H]; (split; [exact F|]).
    + destruct H as [H|H]; [|auto].
      destruct (CMIElement l) as [e|]; [|auto].
      apply Bool.negb_false_iff, String.eqb_eq in H. subst e. auto.
    + destruct H as [->|[->|H]]; auto.
  - intros ec O1 O2 O3 O4 cb ct p v s r s' St L D R.
    apply (setValue_engine ec _ p v
             (fun s0 s1 c => setCMIValue_frame ec O1 O2 O3 O4 p v s0 s1 c D)) in R.
    + destruct R as (_ & _ & R & _). rewrite R.
      rewrite on_single, L.
      change (calls (on "SetValue.cmi.core.score.raw" (Some cb) s)) with (calls s).
      cbn [app notifications].
      unfold fires, functionsMatch, listenerHasCMIElement, CMIElementsMatch.
      cbn [functionName CMIElement callback].
      rewrite String.eqb_refl.
      change (negb (negb (String.eqb "cmi.core.score.raw" ""))) with false.
      cbn [andb orb].
      rewrite (String.eqb_sym "cmi.core.score.raw" p).
      destruct (String.eqb_spec p "cmi.core.score.raw") as [->|]; reflexivity.
    + unfold lifecycle_failure, isNotInitialized, isTerminated, on. simpl.
      rewrite St. destruct ct; reflexivity.
Qed.

(** C7, as stated, fails: the path [listenerArray.0.CMIElement] reaches the
    registration itself.  With the callback registered for
    [cmi.core.score.raw] alone, [setValue] on that other path returns
    ['true'], leaves the registration without a filter, and the
    notification that follows invokes the callback. *)
Lemma setValue_can_blank_the_filter :
  let s := on "SetValue.cmi.core.score.raw" (Some 7%nat)
             (Sample.started Sample.default_settings) in
  let r := Sample.baseSetValue "SetValue" "listenerArray.0.CMIElement" (JStr "") s in
  currentState s = STATE_INITIALIZED /\
  listenerArray s
  = [ {| functionName := "SetValue"; CMIElement := Some "cmi.core.score.raw";
         callback := 7%nat |} ] /\
  option_map fst r = Some SCORM_TRUE /\
  listenerArray (Sample.session_after r s)
  = [ {| functionName := "SetValue"; CMIElement := Some ""; callback := 7%nat |} ] /\
  calls (Sample.session_after r s)
  = (calls s ++
     [ {| inv_callback := 7%nat; inv_CMIElement := Some "listenerArray.0.CMIElement";
          inv_value := Some (JStr "") |} ])%list.
Proof. vm_compute. repeat split; reflexivity. Qed.

(** No session an SCO can bring about has a trigger armed: the slot holds
    [null] and the host holds no timer, whatever the [autocommit] setting. *)
Lemma getValue_scheduler (ec : error_code_table) (cb : string) (ct : bool) (p : string)
  (s : session) (r : completion node) (s' : session) :
  getValue ec (getCMIValue ec) cb ct p s = Some (r, s') ->
  timeout s' = timeout s /\ timers s' = timers s.
Proof.
  unfold getValue. rewrite checkState_spec.
  destruct (lifecycle_failure _ _ _ _); cbv beta iota zeta.
  - intros E. injection E as _ <-. split; reflexivity.
  - destruct (getCMIValue ec p _) as [[s3 [x|e]]|] eqn:G; [| |discriminate];
      destruct (_commonGetCMIValue_frame _ _ _ _ _ _ _ _ G) as [G0 _];
      destruct G0 as (_ & _ & G3 & _ & G5 & _);
      intros E; injection E as _ <-; unfold clearSCORMError;
      try destruct (reports_success x); simpl; rewrite G3, G5;
      destruct ct; split; reflexivity.
Qed.

Lemma reachable_never_armed (ec : error_code_table) (CMI O1 O2 O3 O4 : node)
  (payload : Type) (render : bool -> session -> payload)
  (post : string -> payload -> option (jsval * option Z)) (term : session -> session)
  (s : session) :
  reachable ec CMI O1 O2 O3 O4 payload render post term s ->
  timeout s = SlotNull /\ timers s = [].
Proof.
  induction 1 as [st|s pattern cb _ [T P]|s _ [T P]|s _ [T P]|s p r s' _ [T P] E
                 |s p v r s' _ [T P] E|s _ [T P]].
  - split; reflexivity.
  - destruct cb; simpl; split; assumption.
  - unfold lmsInitialize. destruct (cmi s); simpl; try (split; assumption);
      unfold initialize, isInitialized, isTerminated; simpl;
      destruct (currentState s); simpl; split; assumption.
  - unfold lmsFinish, terminate. rewrite checkState_spec.
    destruct (lifecycle_failure _ _ _ _); simpl; split; assumption.
  - apply getValue_scheduler in E. destruct E as [E1 E2]. rewrite E1, E2. split; assumption.
  - apply setValue_scheduler in E; [|rewrite T; discriminate].
    destruct E as [E1 E2]. rewrite E1, E2. split; assumption.
  - destruct (commit_scheduler ec payload render post term "LMSCommit" false s) as [C1 C2].
    unfold lmsCommit. rewrite C1, C2. unfold clearScheduledCommit. rewrite T.
    split; assumption.
Qed.

(** ** Error register *)

Section RegisterAfterOperation.

Variable error_codes : error_code_table.
Variable getCMIValue : string -> session -> option (session * completion node).
Variable setCMIValue : string -> jsval -> session -> option (session * completion string).
Variable storeData : bool -> session -> session * store_result.
Variable callbackName : string.

(** Every operation ends in [clearSCORMError] on the value it returns. *)
Lemma run_success_clears (op : operation) (s : session) (out : node) (s' : session) :
  run error_codes getCMIValue setCMIValue storeData callbackName op s
  = Some (Return out, s') ->
  reports_success out = true -> lastErrorCode s' = ErrNum 0.
Proof.
  unfold run. destruct op as [|ct|ct p|ct p v|ct].
  - unfold initialize.
    destruct (isInitialized s); [|destruct (isTerminated s)]; cbv beta iota;
      intros E; injection E as <- <-; apply clearSCORMError_success.
  - unfold terminate. rewrite checkState_spec.
    destruct (lifecycle_failure _ _ _ _); cbv beta iota;
      intros E; injection E as <- <-; apply clearSCORMError_success.
  - unfold getValue. rewrite checkState_spec.
    destruct (lifecycle_failure _ _ _ _); cbv beta iota.
    + intros E; injection E as <- <-. discriminate.
    + destruct (getCMIValue p _) as [[s3 [rv|e]]|]; try discriminate.
      intros E; injection E as <- <-. apply clearSCORMError_success.
  - unfold setValue. rewrite checkState_spec.
    destruct (lifecycle_failure _ _ _ _); cbv beta iota zeta.
    + intros E; injection E as <- <-. discriminate.
    + destruct (setCMIValue p v _) as [[s3 [r0|[code|]]]|]; try discriminate;
        intros E; injection E as <- <-; apply clearSCORMError_success.
  - unfold commit. rewrite checkState_spec.
    destruct (lifecycle_failure _ _ _ _); cbv beta iota zeta.
    + intros E; injection E as <- <-. discriminate.
    + destruct (storeData false _) as [s2 result].
      intros E; injection E as <- <-. apply clearSCORMError_success.
Qed.

Lemma run_lifecycle_error (op : operation) (s : session) (code : Z) :
  lifecycle_error error_codes op s = Some code ->
  exists out s',
    run error_codes getCMIValue setCMIValue storeData callbackName op s
    = Some (Return out, s') /\
    reports_success out = false /\ lastErrorCode s' = thrown code.
Proof.
  unfold run, lifecycle_error. destruct op as [|ct|ct p|ct p v|ct]; intros H.
  - unfold initialize.
    destruct (isInitialized s); [|destruct (isTerminated s); [|discriminate]];
      injection H as <-; do 2 eexists; (split; [reflexivity|]); split; reflexivity.
  - unfold terminate. rewrite checkState_spec, H.
    do 2 eexists; (split; [reflexivity|]); split; reflexivity.
  - destruct (getValue_rejected error_codes getCMIValue callbackName ct p s code H)
      as (s' & E & R & _).
    rewrite E. exists undefined, s'. repeat split. exact R.
  - destruct (setValue_rejected error_codes setCMIValue callbackName ct p v s code H)
      as (s' & E & R & _).
    rewrite E. exists (Prim (JStr SCORM_FALSE)), s'. repeat split. exact R.
  - destruct (commit_rejected error_codes storeData callbackName ct s code H)
      as (s' & E & R & _).
    rewrite E. exists (Prim (JStr SCORM_FALSE)), s'. repeat split. exact R.
Qed.

(** C4, amended: whenever one of the five public operations returns a
    success value (anything but [undefined] and ['false']) the error
    register is 0 afterwards.  Whenever the operation is rejected by its
    life cycle check it returns a failure value and the register holds the
    code of that life cycle error, which reads nonzero when the code is
    nonzero.  Past the life cycle check [initialize] and [terminate] do not
    fail, and after a failure of one of the others the register holds the
    code of the failure wherever the failing step raises one: after
    [setValue], the code of the [ValidationError] the resolver threw, as a
    number, the general code for any other exception, and otherwise what
    the resolver left (the code it threw, if any); after [getValue], what
    the resolver left; after [commit] without the termination check, the
    positive [errorCode] of the answer of [storeData], and what the register
    held when the answer has none; after [commit] with the termination
    check, 0. *)
Theorem register_after_operation (op : operation) (s : session) :
  let result := run error_codes getCMIValue setCMIValue storeData callbackName op s in
  (forall out s', result = Some (Return out, s') ->
                  reports_success out = true -> lastErrorCode s' = ErrNum 0) /\
  (forall code, lifecycle_error error_codes op s = Some code ->
     exists out s', result = Some (Return out, s') /\
       reports_success out = false /\
       lastErrorCode s' = thrown code /\
       (code <> 0 -> register_string (lastErrorCode s') <> "0")) /\
  (lifecycle_error error_codes op s = None ->
   match op with
   | Initialize | Terminate _ =>
       exists out s', result = Some (Return out, s') /\ reports_success out = true
   | GetValue ct p =>
       forall s3 x,
         getCMIValue p (if ct then with_error (ErrNum 0) s else s) = Some (s3, Return x) ->
         reports_success x = false ->
         exists s', result = Some (Return x, s') /\ lastErrorCode s' = lastErrorCode s3
   | SetValue ct p v =>
       forall s3 out,
         setCMIValue p v (if ct then with_error (ErrNum 0) s else s) = Some (s3, out) ->
         returned out = SCORM_FALSE ->
         exists s', result = Some (Return (Prim (JStr SCORM_FALSE)), s') /\
           lastErrorCode s' =
           match out with
           | Return _ => lastErrorCode s3
           | Throw (ValidationError code) => ErrNum code
           | Throw TypeError => thrown (GENERAL error_codes)
           end
   | Commit ct =>
       forall s2 answer,
         storeData false (clearScheduledCommit s) = (s2, answer) ->
         let returnValue :=
           if truthy (get_result answer) then get_result answer else JStr SCORM_FALSE in
         reports_success (Prim returnValue) = false ->
         exists s', result = Some (Return (Prim returnValue), s') /\
           lastErrorCode s' =
           if ct then ErrNum 0
           else match get_errorCode answer with
                | Some code => if 0 <? code then thrown code else lastErrorCode s2
                | None => lastErrorCode s2
                end
   end).
Proof.
  intros result. subst result.
  split; [|split].
  - intros out s'. apply run_success_clears.
  - intros code H. destruct (run_lifecycle_error op s code H) as (out & s' & E & F & R).
    exists out, s'. repeat split; try assumption.
    intros N. rewrite R. apply thrown_nonzero, N.
  - unfold lifecycle_error, run. destruct op as [|ct|ct p|ct p v|ct]; intros L.
    + unfold initialize.
      destruct (isInitialized s); [discriminate L|].
      destruct (isTerminated s); [discriminate L|].
      do 2 eexists. split; reflexivity.
    + unfold terminate. rewrite checkState_spec, L.
      do 2 eexists. split; reflexivity.
    + intros s3 x G F. unfold getValue. rewrite checkState_spec, L.
      cbv beta iota zeta. rewrite G.
      eexists. split; [reflexivity|].
      rewrite clearSCORMError_failure by exact F. reflexivity.
    + intros s3 out G F. unfold setValue. rewrite checkState_spec, L.
      cbv beta iota zeta. rewrite G.
      destruct out as [r|[code|]]; cbn [returned] in F; try subst r;
        cbv beta iota zeta;
        (eexists; split; [reflexivity|]);
        rewrite clearSCORMError_failure by reflexivity;
        destruct (String.eqb _ "0");
        try destruct (autocommit _ && timeout_is_undefined _); reflexivity.
    + intros s2 answer G F.
      unfold commit. rewrite checkState_spec.
      assert (E : lifecycle_failure ct (COMMIT_BEFORE_INIT error_codes)
                    (COMMIT_AFTER_TERM error_codes) (clearScheduledCommit s) = None).
      { rewrite <- L. unfold lifecycle_failure, isNotInitialized, isTerminated,
          clearScheduledCommit. destruct (timeout s); reflexivity. }
      rewrite E. cbv beta iota zeta. rewrite G. cbv beta iota zeta.
      eexists. split; [reflexivity|].
      rewrite clearSCORMError_failure by exact F.
      destruct ct; [reflexivity|].
      destruct (get_errorCode answer) as [code|]; [|reflexivity].
      destruct (0 <? code); reflexivity.
Qed.

End RegisterAfterOperation.

(** C4, as stated, fails: on a freshly initialized session [setValue] with
    the empty path reports failure (['false']) and the register reads 0. *)
Lemma empty_path_failure_keeps_register_zero :
  let s := Sample.started Sample.default_settings in
  let r := Sample.lmsSetValue "" (JStr "x") s in
  currentState s = STATE_INITIALIZED /\
  option_map fst r = Some SCORM_FALSE /\
  reports_success (Prim (JStr SCORM_FALSE)) = false /\
  register_string (lastErrorCode (Sample.session_after r s)) = "0".
Proof. vm_compute. repeat split; reflexivity. Qed.

(** ** Path resolver: collections *)

Lemma put_field_find (attribute : string) (x : node) (fs : list field)
  (acc : option accessor) (old : node) :
  find_field attribute fs = Some (acc, old) ->
  find_field attribute (put_field attribute x fs) = Some (acc, x).
Proof.
  induction fs as [|[k [a o]] fs IH]; simpl; [discriminate|].
  destruct (String.eqb k attribute) eqn:E.
  - intros H. injection H as -> ->. simpl. rewrite E. reflexivity.
  - intros H. simpl. rewrite E. apply IH, H.
Qed.

Lemma put_field_same (attribute : string) (fs : list field)
  (acc : option accessor) (old : node) :
  find_field attribute fs = Some (acc, old) -> put_field attribute old fs = fs.
Proof.
  induction fs as [|[k [a o]] fs IH]; simpl; [reflexivity|].
  destruct (String.eqb k attribute) eqn:E.
  - intros H. injection H as -> ->. reflexivity.
  - intros H. rewrite (IH H). reflexivity.
Qed.

Lemma api_cmi_store (x : node) (s : session) :
  api_cmi (store_child (api_object s) "cmi" x) s = x.
Proof. reflexivity. Qed.

Lemma split_nonempty_path (p : string) (a b : string) (l : list string) :
  JsString.split "." p = a :: b :: l -> String.eqb p "" = false.
Proof. destruct p; [discriminate | reflexivity]. Qed.

(** The value [setValue] returns for a completion of [setCMIValue]. *)
Lemma setValue_resolved (ec : error_code_table)
  (setCMIValue : string -> jsval -> session -> option (session * completion string))
  (cb : string) (p : string) (v : jsval) (s s3 : session) (out : completion string) :
  currentState s = STATE_INITIALIZED ->
  setCMIValue p v s = Some (s3, out) ->
  exists s', setValue ec setCMIValue cb false p v s
             = Some (returned out, s')
             /\ cmi s' = cmi s3.
Proof.
  intros St E. unfold setValue. rewrite checkState_spec.
  unfold lifecycle_failure, isNotInitialized. rewrite St. cbn [andb].
  cbv beta iota zeta. rewrite E.
  destruct out as [r|[code|]]; cbv beta iota zeta; unfold returned;
    (eexists; split; [reflexivity|]);
    unfold clearSCORMError;
    destruct (reports_success _); destruct (String.eqb _ "0");
    try destruct (autocommit _ && timeout_is_undefined _); reflexivity.
Qed.

Lemma set_loop_last (ec : error_code_table) (factory : string -> jsval -> bool -> node)
  (p : string) (v : jsval) (attribute : string) (o : node) (ff : bool)
  (err : error_register) :
  set_loop ec factory false p v [attribute] o ff err =
  match o with
  | Prim _ => Some (o, err, Throw TypeError)
  | _ =>
      if _checkObjectHasProperty o attribute
      then match write_property o attribute v with
           | Some (o', Return _) => Some (o', err, Return SCORM_TRUE)
           | Some (o', Throw e) => Some (o', err, Throw e)
           | None => None
           end
      else Some (o, thrown (GENERAL ec), Return SCORM_FALSE)
  end.
Proof.
  destruct o; cbn [set_loop andb orb negb]; try reflexivity;
    destruct (_checkObjectHasProperty _ attribute); reflexivity.
Qed.

(** One turn of the loop of [_commonSetCMIValue] before the last segment. *)
Lemma set_loop_step (ec : error_code_table) (factory : string -> jsval -> bool -> node)
  (scorm2004 : bool) (p : string) (v : jsval) (attribute next : string)
  (rest : list string) (o : node) (ff : bool) (err : error_register) :
  set_loop ec factory scorm2004 p v (attribute :: next :: rest) o ff err =
  match read_property o attribute with
  | None => None
  | Some (Throw e) => Some (o, err, Throw e)
  | Some (Return child) =>
      if negb (truthy_node child)
      then Some (o, thrown (invalidErrorCode ec scorm2004), Return SCORM_FALSE)
      else
        let back (f : node -> node)
              (r : option (node * error_register * completion string)) :=
          match r with
          | None => None
          | Some (x, e, c) => Some (store_child o attribute (f x), e, c)
          end in
        match child with
        | Collection init ch code cs =>
            match JsString.parseInt next with
            | None =>
                back (fun x => x)
                  (set_loop ec factory scorm2004 p v (next :: rest) child ff err)
            | Some index =>
                match child_at cs index with
                | Some item =>
                    back (fun x => Collection init ch code
                                     (replace_nth (Z.to_nat index) x cs))
                      (set_loop ec factory scorm2004 p v rest item ff err)
                | None =>
                    if negb (truthy_node (factory p v ff))
                    then
                      back (fun x => x)
                        (set_loop ec factory scorm2004 p v rest child true
                           (thrown (invalidErrorCode ec scorm2004)))
                    else
                      match factory p v ff, init with
                      | Prim _, true => Some (o, err, Throw TypeError)
                      | _, _ =>
                          back (fun x => Collection init ch code (cs ++ [x]))
                            (set_loop ec factory scorm2004 p v rest
                               (if init then initialize_node (factory p v ff)
                                else factory p v ff)
                               true err)
                      end
                end
            end
        | _ =>
            back (fun x => x)
              (set_loop ec factory scorm2004 p v (next :: rest) child ff err)
        end
  end.
Proof. reflexivity. Qed.



(** ** Path resolver: writing then reading *)

Lemma get_loop_cons (ec : error_code_table) (scorm2004 : bool) (attribute : string)
  (tl : list string) (o : node) (a : option string) (err : error_register) :
  get_loop ec scorm2004 (attribute :: tl) o a err =
  match o with
  | Prim _ => None
  | _ =>
      if scorm2004 && String.eqb (JsString.substr0 8 attribute) "{target="
         && has_isTargetValid o
      then None
      else if (if scorm2004 then true else match tl with [] => true | _ => false end)
              && negb (_checkObjectHasProperty o attribute)
      then Some (thrown (invalidErrorCode ec scorm2004), Return EarlyReturn)
      else
        match read_property o attribute with
        | None => None
        | Some (Throw e) => Some (err, Throw e)
        | Some (Return x) =>
            if negb (truthy_node x)
            then Some (thrown (invalidErrorCode ec scorm2004),
                       Return (LoopEnd x (Some attribute)))
            else
              match x, tl with
              | Collection _ _ _ cs, next :: rest =>
                  match JsString.parseInt next with
                  | Some index =>
                      match child_at cs index with
                      | Some item => get_loop ec scorm2004 rest item (Some attribute) err
                      | None =>
                          Some (thrown (VALUE_NOT_INITIALIZED ec),
                                Return (LoopEnd x (Some attribute)))
                      end
                  | None => get_loop ec scorm2004 tl x (Some attribute) err
                  end
              | _, _ => get_loop ec scorm2004 tl x (Some attribute) err
              end
        end
  end.
Proof. destruct o; reflexivity. Qed.

Lemma nth_error_replace_nth (cs : list node) (n : nat) (x item : node) :
  nth_error cs n = Some item -> nth_error (replace_nth n x cs) n = Some x.
Proof.
  revert n. induction cs as [|c cs IH]; intros [|n]; simpl; try discriminate.
  - reflexivity.
  - apply IH.
Qed.

Lemma child_at_replace (cs : list node) (index : Z) (item x : node) :
  child_at cs index = Some item -> truthy_node x = true ->
  child_at (replace_nth (Z.to_nat index) x cs) index = Some x.
Proof.
  unfold child_at. destruct (index <? 0); [discriminate|].
  destruct (nth_error cs (Z.to_nat index)) as [it|] eqn:E; [|discriminate].
  intros _ T. rewrite (nth_error_replace_nth _ _ x _ E), T. reflexivity.
Qed.

Lemma child_at_append (cs : list node) (x : node) :
  truthy_node x = true -> child_at (cs ++ [x]) (Z.of_nat (List.length cs)) = Some x.
Proof.
  intros T. unfold child_at.
  destruct (Z.ltb_spec (Z.of_nat (List.length cs)) 0) as [H|_]; [lia|].
  rewrite Nat2Z.id, nth_error_app2, Nat.sub_diag by apply Nat.le_refl.
  simpl. rewrite T. reflexivity.
Qed.

Section RoundTrip.

Variable ec : error_code_table.
Variable factory : string -> jsval -> bool -> node.
Variable p : string.
Variable v : jsval.

(** Along a path that resolves, the write succeeds without touching the
    register, and the read that follows on the written tree ends its loop
    on the value written. *)
Lemma set_then_get_loop (n : nat) :
  forall (structure : list string) (refObject : node) (ff : bool) (err : error_register),
    (List.length structure <= n)%nat ->
    resolves factory p v structure refObject ff = true ->
    exists o',
      set_loop ec factory false p v structure refObject ff err
      = Some (o', err, Return SCORM_TRUE) /\
      (exists i fs, o' = Composite i fs) /\
      forall a err', exists err'' a',
          get_loop ec false structure o' a err'
          = Some (err'', Return (LoopEnd (Prim v) a')).
Proof.
  induction n as [|n IH]; intros structure refObject ff err Len R.
  - destruct structure; [discriminate R | simpl in Len; lia].
  - destruct structure as [|attribute tl]; [discriminate R|].
    destruct refObject as [pv|i fs|ci cch cec ccs]; try discriminate R.
    cbn [resolves] in R.
    destruct (find_field attribute fs) as [[acc x]|] eqn:F; [|discriminate R].
    destruct tl as [|next rest].
    + (* the last segment *)
      rewrite set_loop_last. cbn [_checkObjectHasProperty write_property]. rewrite F.
      assert (W : (match acc with
                   | Some a0 =>
                       match setter_fault a0 i v with
                       | Some code => Some (Composite i fs, Throw (ValidationError code))
                       | None =>
                           Some (Composite i (put_field attribute (Prim v) fs), Return tt)
                       end
                   | None => Some (Composite i (put_field attribute (Prim v) fs), Return tt)
                   end) = Some (Composite i (put_field attribute (Prim v) fs), Return tt)).
      { destruct acc as [a0|]; [|reflexivity].
        apply Bool.andb_true_iff in R. destruct R as [R _].
        destruct (setter_fault a0 i v); [discriminate R | reflexivity]. }
      destruct acc as [a0|].
      * rewrite W. eexists. split; [reflexivity|]. split; [eauto|].
        intros a err'. rewrite get_loop_cons.
        cbn [andb _checkObjectHasProperty read_property].
        rewrite (put_field_find attribute (Prim v) fs _ _ F). cbn [negb andb].
        apply Bool.andb_true_iff in R. destruct R as [_ R].
        destruct (getter_fault a0 i); [discriminate R|].
        cbn [truthy_node]. destruct (truthy v); cbn [negb get_loop]; eauto.
      * eexists. split; [reflexivity|]. split; [eauto|].
        intros a err'. rewrite get_loop_cons.
        cbn [andb _checkObjectHasProperty read_property].
        rewrite (put_field_find attribute (Prim v) fs _ _ F). cbn [negb andb].
        cbn [truthy_node]. destruct (truthy v); cbn [negb get_loop]; eauto.
    + (* an inner segment *)
      apply Bool.andb_true_iff in R. destruct R as [G R].
      assert (Rd : read_property (Composite i fs) attribute = Some (Return x)).
      { cbn [read_property]. rewrite F. destruct acc as [a0|]; [|reflexivity].
        destruct (getter_fault a0 i); [discriminate G | reflexivity]. }
      assert (Rd' : forall x', read_property (Composite i (put_field attribute x' fs))
                                 attribute = Some (Return x')).
      { intros x'. cbn [read_property].
        rewrite (put_field_find attribute x' fs _ _ F). destruct acc as [a0|]; [|reflexivity].
        destruct (getter_fault a0 i); [discriminate G | reflexivity]. }
      rewrite set_loop_step, Rd.
      simpl in Len.
      destruct x as [xv|xi xfs|init ch code cs]; [discriminate R| |].
      * (* a composite member *)
        cbn [truthy_node negb].
        destruct (IH (next :: rest) (Composite xi xfs) ff err ltac:(simpl; lia) R)
          as (x' & S & (i' & fs' & ->) & Gt).
        rewrite S. cbn [store_child].
        eexists. split; [reflexivity|]. split; [eauto|].
        intros a err'. rewrite get_loop_cons. cbn [andb]. rewrite Rd'.
        cbn [truthy_node negb]. apply Gt.
      * (* a collection *)
        cbn [truthy_node negb].
        destruct (JsString.parseInt next) as [index|] eqn:P; [|discriminate R].
        destruct (child_at cs index) as [item|] eqn:A.
        -- destruct (IH rest item ff err ltac:(lia) R) as (x' & S & (i' & fs' & ->) & Gt).
           rewrite S. cbn [store_child].
           eexists. split; [reflexivity|]. split; [eauto|].
           intros a err'. rewrite get_loop_cons. cbn [andb]. rewrite Rd'.
           cbn [truthy_node negb]. rewrite P.
           rewrite (child_at_replace cs index item (Composite i' fs') A eq_refl). apply Gt.
        -- apply Bool.andb_true_iff in R. destruct R as [Ix R].
           apply Z.eqb_eq in Ix. subst index.
           destruct (factory p v ff) as [fv|fi ffs|? ? ? ?] eqn:Fa; try discriminate R.
           cbn [truthy_node negb].
           destruct (IH rest _ true err ltac:(lia) R) as (x' & S & (i' & fs' & ->) & Gt).
           cbv beta iota zeta. rewrite S. cbn [store_child].
           eexists. split; [reflexivity|]. split; [eauto|].
           intros a err'. rewrite get_loop_cons. cbn [andb]. rewrite Rd'.
           cbn [truthy_node negb]. rewrite P.
           rewrite (child_at_append cs (Composite i' fs') eq_refl). apply Gt.
Qed.

End RoundTrip.

Lemma getValue_resolved (ec : error_code_table)
  (getCMIValue : string -> session -> option (session * completion node))
  (cb : string) (p : string) (s s3 : session) (x : node) :
  currentState s = STATE_INITIALIZED ->
  getCMIValue p s = Some (s3, Return x) ->
  exists s', getValue ec getCMIValue cb false p s = Some (Return x, s').
Proof.
  intros St E. unfold getValue. rewrite checkState_spec.
  unfold lifecycle_failure, isNotInitialized. rewrite St. cbn [andb].
  cbv beta iota zeta. rewrite E. eexists. reflexivity.
Qed.

(** The root of the walk keeps its shape: the API object with its [cmi]
    member, whatever the walk stored in it. *)
Lemma set_loop_root (ec : error_code_table) (factory : string -> jsval -> bool -> node)
  (p : string) (v : jsval) (tl : list string) (s : session) (err e : error_register)
  (o' : node) (c : completion string) :
  set_loop ec factory false p v ("cmi" :: tl) (api_object s) false err = Some (o', e, c) ->
  o' = Composite false [("cmi", (None, api_cmi o' s))].
Proof.
  destruct tl as [|next rest].
  - rewrite set_loop_last. cbn. intros H. injection H as <- _ _. reflexivity.
  - rewrite set_loop_step. cbn [api_object read_property find_field].
    rewrite String.eqb_refl.
    destruct (negb (truthy_node (cmi s))).
    { intros H. injection H as <- _ _. reflexivity. }
    cbv zeta.
    repeat match goal with
           | |- context [match ?x with _ => _ end] =>
               lazymatch x with
               | context [match _ with _ => _ end] => fail
               | _ => destruct x as [] eqn:?
               end
           end;
      intros H; try discriminate H; injection H as <- _ _; reflexivity.
Qed.

Section RoundTripTheorem.

Variable ec : error_code_table.
Variables O1 O2 O3 O4 : node.

(** C8, amended: on an initialized session, for a path that resolves for
    the value (it goes through members that exist and can be read, every
    collection index on it names a child that exists or equals the length of
    its collection, and its last member is a plain property or an accessor
    whose setter accepts the value and whose getter does not throw) and a
    value that is neither [null] nor [undefined], [setValue(p, v)] returns
    ['true'] and the [getValue(p)] that follows returns [v]. *)
Theorem roundtrip_on_resolved_path (s : session) (p : string) (v : jsval) :
  currentState s = STATE_INITIALIZED ->
  resolves (getChildElement O1 O2 O3 O4) p v (JsString.split "." p) (api_object s) false
  = true ->
  defined v = true ->
  exists s1, lmsSetValue ec O1 O2 O3 O4 p v s = Some (SCORM_TRUE, s1) /\
  exists s2, lmsGetValue ec p s1 = Some (Return (Prim v), s2).
Proof.
  intros St R D.
  assert (Ne : String.eqb p "" = false).
  { destruct p; [discriminate R | reflexivity]. }
  destruct (JsString.split "." p) as [|first tl] eqn:Sp; [discriminate R|].
  assert (first = "cmi") as ->.
  { cbn [resolves api_object find_field] in R.
    destruct (String.eqb_spec "cmi" first) as [<-|]; [reflexivity | discriminate R]. }
  destruct (set_then_get_loop ec _ p v _ _ _ false (lastErrorCode s) (Nat.le_refl _) R)
    as (o' & S & _ & G).
  pose proof (set_loop_root _ _ _ _ _ _ _ _ _ _ S) as Root.
  assert (E : setCMIValue ec O1 O2 O3 O4 p v s
              = Some (with_error (lastErrorCode s) (with_cmi (api_cmi o' s) s),
                      Return SCORM_TRUE)).
  { unfold setCMIValue, _commonSetCMIValue. rewrite Ne, Sp. cbn [in_data_model].
    rewrite String.eqb_refl, S. reflexivity. }
  destruct (setValue_resolved ec _ "LMSSetValue" p v s _ _ St E) as (s1 & E1 & C1).
  cbn [cmi with_error with_cmi] in C1.
  exists s1. split; [exact E1|].
  assert (St1 : currentState s1 = STATE_INITIALIZED).
  { assert (HG : lifecycle_failure false (STORE_BEFORE_INIT ec) (STORE_AFTER_TERM ec) s
                 = None)
      by (unfold lifecycle_failure, isNotInitialized; rewrite St; reflexivity).
    destruct (setValue_host ec _ (setCMIValue_host ec O1 O2 O3 O4)
                "LMSSetValue" false p v s _ s1 HG E1) as (K & _).
    rewrite K. exact St. }
  destruct (G None (lastErrorCode s1)) as (err'' & a' & G1).
  assert (E2 : getCMIValue ec p s1 = Some (with_error err'' s1, Return (Prim v))).
  { unfold getCMIValue, _commonGetCMIValue. rewrite Ne, Sp. cbn [in_data_model].
    rewrite String.eqb_refl. unfold api_object. rewrite C1, <- Root, G1.
    destruct v; try discriminate D; reflexivity. }
  apply (getValue_resolved ec _ "LMSGetValue" p s1 _ _ St1 E2).
Qed.

End RoundTripTheorem.

(** C1, as stated, fails: with one child in [cmi.interactions], the write
    to index 2 succeeds, the new child is appended (at index 1) and the
    register reads 0. *)
Lemma gap_write_appends :
  let s1 := Sample.after_set "cmi.interactions.0.id" "a"
              (Sample.started Sample.default_settings) in
  let r := Sample.lmsSetValue "cmi.interactions.2.id" (JStr "b") s1 in
  currentState s1 = STATE_INITIALIZED /\
  List.length (Sample.interactions s1) = 1%nat /\
  option_map fst r = Some SCORM_TRUE /\
  List.length (Sample.interactions (Sample.session_after r s1)) = 2%nat /\
  register_string (lastErrorCode (Sample.session_after r s1)) = "0".
Proof. vm_compute. repeat split; reflexivity. Qed.

(** C8, as stated, fails: on a freshly initialized session the value ["b"]
    is accepted by the validator of [id] and [setValue] on
    [cmi.interactions.2.id] succeeds, yet [getValue] on the same path
    returns the collection object, not ["b"]. *)
Lemma gap_write_is_not_read_back :
  let s0 := Sample.started Sample.default_settings in
  let w := Sample.lmsSetValue "cmi.interactions.2.id" (JStr "b") s0 in
  let r := Sample.lmsGetValue "cmi.interactions.2.id" (Sample.session_after w s0) in
  currentState s0 = STATE_INITIALIZED /\
  setter_fault Sample.text true (JStr "b") = None /\
  option_map fst w = Some SCORM_TRUE /\
  option_map fst r =
  Some (Return (Collection true "id,objectives,correct_responses" 402
                  (Sample.interactions (Sample.session_after w s0)))) /\
  option_map fst r <> Some (Return (Prim (JStr "b"))).
Proof.
  vm_compute. repeat split; try reflexivity. discriminate.
Qed.

(** ** The properties on the sample session *)

Lemma guard_failure_frame_witness :
  let s := Sample.new_api Sample.default_settings in
  currentState s = STATE_NOT_INITIALIZED /\
  exists s',
    Sample.lmsSetValue "cmi.core.score.raw" (JStr "80") s = Some (SCORM_FALSE, s') /\
    lastErrorCode s' = ErrStr "301" /\ cmi s' = cmi s /\ calls s' = calls s.
Proof.
  split; [reflexivity|].
  destruct (guard_failure_frame Sample.error_codes
              (getCMIValue Sample.error_codes)
              (setCMIValue Sample.error_codes Sample.CMIObjectivesObject
                 Sample.CMIInteractionsCorrectResponsesObject
                 Sample.CMIInteractionsObjectivesObject Sample.CMIInteractionsObject)
              (storeData Sample.error_codes node Sample.renderCommitCMI Sample.httpPost
                 (fun s => s))
              "LMSSetValue" false "cmi.core.score.raw" (JStr "80")
              (Sample.new_api Sample.default_settings) (or_introl eq_refl))
    as (_ & (s' & E & R & C & K & _) & _).
  exists s'. repeat split; assumption.
Defined.

Lemma terminate_again_succeeds_witness :
  let s := snd (Sample.lmsFinish
                  (on "LMSFinish" (Some 7%nat) (Sample.started Sample.default_settings))) in
  currentState s = STATE_TERMINATED /\
  calls s = [ {| inv_callback := 7%nat; inv_CMIElement := None; inv_value := None |} ] /\
  exists s', Sample.lmsFinish s = (SCORM_TRUE, s') /\
             currentState s' = STATE_TERMINATED /\ lastErrorCode s' = ErrNum 0 /\
             calls s'
             = [ {| inv_callback := 7%nat; inv_CMIElement := None; inv_value := None |};
                 {| inv_callback := 7%nat; inv_CMIElement := None; inv_value := None |} ].
Proof.
  assert (T : currentState
                (snd (Sample.lmsFinish
                        (on "LMSFinish" (Some 7%nat)
                           (Sample.started Sample.default_settings))))
              = STATE_TERMINATED) by (vm_compute; reflexivity).
  split; [exact T|]. split; [vm_compute; reflexivity|].
  destruct (terminate_again_succeeds Sample.error_codes "LMSFinish"
              (snd (Sample.lmsFinish
                      (on "LMSFinish" (Some 7%nat)
                         (Sample.started Sample.default_settings)))) T)
    as (s' & E & St & C & R & _).
  exists s'. split; [exact E|]. split; [exact St|]. split; [exact R|].
  rewrite C. vm_compute. reflexivity.
Defined.

Lemma commit_cancels_pending_trigger_witness :
  let s := scheduleCommit 1000 (Sample.started Sample.autocommit_settings) in
  timeout s = SlotScheduled {| sc_cancelled := false; sc_timeout := 1 |} /\
  timer_pending 1 s /\
  slot_empty (snd (Sample.lmsCommit s)) = true /\
  ~ timer_pending 1 (snd (Sample.lmsCommit s)).
Proof.
  assert (T : timeout (scheduleCommit 1000 (Sample.started Sample.autocommit_settings))
              = SlotScheduled {| sc_cancelled := false; sc_timeout := 1 |})
    by (vm_compute; reflexivity).
  split; [exact T|]. split; [left; vm_compute; reflexivity|].
  destruct (commit_cancels_pending_trigger Sample.error_codes node Sample.renderCommitCMI
              Sample.httpPost (fun s => s) "LMSCommit" false
              (scheduleCommit 1000 (Sample.started Sample.autocommit_settings)))
    as [E P].
  split; [exact E | exact (P _ T)].
Defined.

Lemma commit_without_destination_witness :
  let s := Sample.started Sample.default_settings in
  currentState s = STATE_INITIALIZED /\ lmsCommitUrl (settings s) = None /\
  exists s', Sample.lmsCommit s = (JStr SCORM_FALSE, s').
Proof.
  assert (St : currentState (Sample.started Sample.default_settings) = STATE_INITIALIZED)
    by (vm_compute; reflexivity).
  assert (U : lmsCommitUrl (settings (Sample.started Sample.default_settings)) = None)
    by (vm_compute; reflexivity).
  split; [exact St|]. split; [exact U|].
  destruct (commit_without_destination_returns_false Sample.error_codes node
              Sample.renderCommitCMI Sample.httpPost (fun s => s) "LMSCommit"
              (Sample.started Sample.default_settings) St U)
    as (s' & E & _).
  exists s'. exact E.
Defined.

Lemma autocommit_never_armed_witness :
  let s := Sample.started Sample.autocommit_settings in
  let r := Sample.lmsSetValue "cmi.core.lesson_location" (JStr "p3") s in
  autocommit (settings s) = true /\ timeout s = SlotNull /\
  option_map fst r = Some SCORM_TRUE /\
  timeout (Sample.session_after r s) = SlotNull /\
  timers (Sample.session_after r s) = timers s.
Proof.
  split; [vm_compute; reflexivity|]. split; [vm_compute; reflexivity|].
  split; [vm_compute; reflexivity|].
  apply (setValue_leaves_null_slot_unarmed Sample.error_codes Sample.CMIObjectivesObject
           Sample.CMIInteractionsCorrectResponsesObject
           Sample.CMIInteractionsObjectivesObject Sample.CMIInteractionsObject
           "LMSSetValue" false "cmi.core.lesson_location" (JStr "p3")
           (Sample.started Sample.autocommit_settings) SCORM_TRUE).
  - vm_compute; reflexivity.
  - vm_compute; reflexivity.
Defined.

Lemma listeners_fire_witness :
  let s0 := Sample.started Sample.default_settings in
  let s := on "SetValue.cmi.core.score.raw" (Some 7%nat) s0 in
  let hit := Sample.baseSetValue "SetValue" "cmi.core.score.raw" (JStr "80") s in
  let miss := Sample.baseSetValue "SetValue" "cmi.core.lesson_location" (JStr "p3") s in
  calls (Sample.session_after hit s)
  = (calls s0 ++
     [ {| inv_callback := 7; inv_CMIElement := Some "cmi.core.score.raw";
          inv_value := Some (JStr "80") |} ])%list /\
  calls (Sample.session_after miss s) = (calls s0 ++ [])%list.
Proof.
  destruct listeners_fire_in_registration_order as (_ & _ & _ & H).
  split.
  - apply (H Sample.error_codes Sample.CMIObjectivesObject
             Sample.CMIInteractionsCorrectResponsesObject
             Sample.CMIInteractionsObjectivesObject Sample.CMIInteractionsObject
             7%nat false "cmi.core.score.raw" (JStr "80")
             (Sample.started Sample.default_settings) SCORM_TRUE);
      vm_compute; reflexivity.
  - apply (H Sample.error_codes Sample.CMIObjectivesObject
             Sample.CMIInteractionsCorrectResponsesObject
             Sample.CMIInteractionsObjectivesObject Sample.CMIInteractionsObject
             7%nat false "cmi.core.lesson_location" (JStr "p3")
             (Sample.started Sample.default_settings) SCORM_TRUE);
      vm_compute; reflexivity.
Defined.

Lemma register_after_operation_witness :
  let good := Sample.started Sample.default_settings in
  let early := Sample.new_api Sample.default_settings in
  let r := Sample.lmsSetValue "cmi.core.score.raw" (JStr "80") good in
  let engine :=
    run Sample.error_codes (getCMIValue Sample.error_codes)
      (setCMIValue Sample.error_codes Sample.CMIObjectivesObject
         Sample.CMIInteractionsCorrectResponsesObject
         Sample.CMIInteractionsObjectivesObject Sample.CMIInteractionsObject)
      (storeData Sample.error_codes node Sample.renderCommitCMI Sample.httpPost
         (fun s => s))
      "LMSSetValue" in
  (option_map fst r = Some SCORM_TRUE /\
   lastErrorCode (Sample.session_after r good) = ErrNum 0) /\
  (exists out s',
      engine (SetValue false "cmi.core.score.raw" (JStr "80")) early
      = Some (Return out, s') /\
      reports_success out = false /\ lastErrorCode s' = ErrStr "301") /\
  (exists s',
      engine (SetValue false "cmi.core.score.raw" (JStr "1000")) good
      = Some (Return (Prim (JStr SCORM_FALSE)), s') /\
      lastErrorCode s' = ErrNum 407).
Proof.
  pose proof (register_after_operation Sample.error_codes
                (getCMIValue Sample.error_codes)
                (setCMIValue Sample.error_codes Sample.CMIObjectivesObject
                   Sample.CMIInteractionsCorrectResponsesObject
                   Sample.CMIInteractionsObjectivesObject Sample.CMIInteractionsObject)
                (storeData Sample.error_codes node Sample.renderCommitCMI Sample.httpPost
                   (fun s => s))
                "LMSSetValue") as H.
  cbv zeta. split; [|split].
  - split; [vm_compute; reflexivity|].
    destruct (H (SetValue false "cmi.core.score.raw" (JStr "80"))
                (Sample.started Sample.default_settings)) as (H1 & _).
    apply (H1 (Prim (JStr SCORM_TRUE))); vm_compute; reflexivity.
  - destruct (H (SetValue false "cmi.core.score.raw" (JStr "80"))
                (Sample.new_api Sample.default_settings)) as (_ & H2 & _).
    assert (L : lifecycle_error Sample.error_codes
                  (SetValue false "cmi.core.score.raw" (JStr "80"))
                  (Sample.new_api Sample.default_settings) = Some 301)
      by (vm_compute; reflexivity).
    destruct (H2 301 L) as (out & s' & E & F & R & _).
    exists out, s'. repeat split; assumption.
  - destruct (H (SetValue false "cmi.core.score.raw" (JStr "1000"))
                (Sample.started Sample.default_settings)) as (_ & _ & H3).
    assert (L : lifecycle_error Sample.error_codes
                  (SetValue false "cmi.core.score.raw" (JStr "1000"))
                  (Sample.started Sample.default_settings) = None)
      by (vm_compute; reflexivity).
    specialize (H3 L). cbv beta iota in H3.
    destruct (setCMIValue Sample.error_codes Sample.CMIObjectivesObject
                Sample.CMIInteractionsCorrectResponsesObject
                Sample.CMIInteractionsObjectivesObject Sample.CMIInteractionsObject
                "cmi.core.score.raw" (JStr "1000")
                (Sample.started Sample.default_settings)) as [[s3 out]|] eqn:G.
    + assert (O : out = Throw (ValidationError 407)).
      { pose proof G as G'. vm_compute in G'. injection G' as _ O. symmetry. exact O. }
      subst out.
      destruct (H3 s3 _ eq_refl eq_refl) as (s' & E & R).
      exists s'. split; [exact E | exact R].
    + vm_compute in G. discriminate G.
Defined.



Lemma roundtrip_on_resolved_path_witness :
  let s := Sample.started Sample.default_settings in
  exists s1, Sample.lmsSetValue "cmi.interactions.0.id" (JStr "a") s = Some (SCORM_TRUE, s1) /\
  exists s2, Sample.lmsGetValue "cmi.interactions.0.id" s1 = Some (Return (Prim (JStr "a")), s2).
Proof.
  apply (roundtrip_on_resolved_path Sample.error_codes Sample.CMIObjectivesObject
           Sample.CMIInteractionsCorrectResponsesObject
           Sample.CMIInteractionsObjectivesObject Sample.CMIInteractionsObject
           (Sample.started Sample.default_settings) "cmi.interactions.0.id" (JStr "a"));
    vm_compute; reflexivity.
Defined.

(** * Properties of the further members *)

(** ** Logging *)

Lemma string_length_append (a b : string) :
  String.length (a ++ b) = (String.length a + String.length b)%nat.
Proof. induction a as [|c a IH]; simpl; [reflexivity | rewrite IH; reflexivity]. Qed.

Lemma string_append_empty (a : string) : (a ++ "")%string = a.
Proof. induction a as [|c a IH]; simpl; [reflexivity | rewrite IH; reflexivity]. Qed.

Lemma string_append_assoc (a b c : string) : ((a ++ b) ++ c)%string = (a ++ (b ++ c))%string.
Proof. induction a as [|x a IH]; simpl; [reflexivity | rewrite IH; reflexivity]. Qed.

Lemma length_spaces (n : nat) : String.length (Logging.spaces n) = n.
Proof. induction n as [|n IH]; simpl; [reflexivity | rewrite IH; reflexivity]. Qed.

Lemma length_fill (width : nat) (s : string) :
  String.length (Logging.fill width s) = Nat.max width (String.length s).
Proof.
  unfold Logging.fill. rewrite string_length_append, length_spaces. lia.
Qed.

(** X1: [formatMessage] lays a log line out in columns and never cuts
    anything: the line is a header followed by the message, the header
    starts with the function name, and its width is 22 or the length of the
    name plus 2 without an element, and 70, or more when name and element
    need more, with one. *)
Theorem formatMessage_columns (functionName : string) (CMIElement : option string)
  (message : string) :
  exists padding,
    Logging.formatMessage functionName CMIElement message
    = (functionName ++ padding ++ message)%string /\
    String.length (functionName ++ padding) =
    match CMIElement with
    | Some (String c e) =>
        Nat.max 70 (Nat.max 20 (String.length functionName) + 2
                    + String.length (String c e))
    | _ => (Nat.max 20 (String.length functionName) + 2)%nat
    end.
Proof.
  assert (E : forall m, (if String.eqb message "" then m else (m ++ message)%string)
                        = (m ++ message)%string).
  { intros m. destruct (String.eqb_spec message "") as [->|_];
      [rewrite string_append_empty|]; reflexivity. }
  unfold Logging.formatMessage. cbv zeta. rewrite E.
  destruct CMIElement as [[|c e]|].
  - exists (Logging.spaces (20 - String.length functionName) ++ ": ")%string.
    cbn [String.eqb]. unfold Logging.fill. rewrite !string_append_assoc.
    split; [reflexivity|].
    rewrite !string_length_append, length_spaces.
    change (String.length ": ") with 2%nat. lia.
  - exists (Logging.spaces (20 - String.length functionName) ++ ": " ++ String c e
            ++ Logging.spaces
                 (70 - String.length (Logging.fill 20 functionName ++ ": " ++ String c e)))
           %string.
    cbn [String.eqb]. unfold Logging.fill at 1 2. rewrite !string_append_assoc.
    split; [unfold Logging.fill; rewrite !string_append_assoc; reflexivity|].
    rewrite !string_length_append, !length_spaces, length_fill.
    change (String.length ": ") with 2%nat. lia.
  - exists (Logging.spaces (20 - String.length functionName) ++ ": ")%string.
    unfold Logging.fill. rewrite !string_append_assoc.
    split; [reflexivity|].
    rewrite !string_length_append, length_spaces.
    change (String.length ": ") with 2%nat. lia.
Qed.

(** X2: [apiLog] writes a line exactly when the level of the message is
    at least the log level of the API and is one of error, warning and
    info; the line is the one [formatMessage] lays out.  A message of any
    other level, such as the debug level when it differs from these three,
    is written at no log level. *)
Theorem apiLog_writes (levels : Logging.log_levels) (apiLogLevel : Z)
  (functionName : string) (CMIElement : option string) (logMessage : string)
  (messageLevel : Z) :
  let known :=
    messageLevel = Logging.LOG_LEVEL_ERROR levels \/
    messageLevel = Logging.LOG_LEVEL_WARNING levels \/
    messageLevel = Logging.LOG_LEVEL_INFO levels in
  let written :=
    Logging.apiLog levels apiLogLevel functionName CMIElement logMessage messageLevel in
  ((exists to, written
               = Some (to, Logging.formatMessage functionName CMIElement logMessage))
   <-> apiLogLevel <= messageLevel /\ known) /\
  (written = None <-> ~ (apiLogLevel <= messageLevel /\ known)) /\
  (Logging.LOG_LEVEL_DEBUG levels <> Logging.LOG_LEVEL_ERROR levels ->
   Logging.LOG_LEVEL_DEBUG levels <> Logging.LOG_LEVEL_WARNING levels ->
   Logging.LOG_LEVEL_DEBUG levels <> Logging.LOG_LEVEL_INFO levels ->
   messageLevel = Logging.LOG_LEVEL_DEBUG levels -> written = None).
Proof.
  intros known written. subst known written. unfold Logging.apiLog. cbv zeta.
  destruct (Z.leb_spec apiLogLevel messageLevel) as [L|L];
    destruct (Z.eqb_spec messageLevel (Logging.LOG_LEVEL_ERROR levels)) as [E|E];
    destruct (Z.eqb_spec messageLevel (Logging.LOG_LEVEL_WARNING levels)) as [W|W];
    destruct (Z.eqb_spec messageLevel (Logging.LOG_LEVEL_INFO levels)) as [I|I];
    (split; [|split]);
    try (split; [intros [to H]; first [discriminate H | split; [lia | tauto]]
                | intros [H K]; first [lia | tauto | eexists; reflexivity]]);
    try (split; [intros H; first [discriminate H | intros [H1 K]; first [lia | tauto]]
                | intros H; first [reflexivity | exfalso; apply H; split; [lia | tauto]]]);
    try (intros D1 D2 D3 D; first [reflexivity | congruence]).
Qed.

(** ** Error strings *)

Lemma of_number_not_empty (n : Z) : JsString.of_number n <> "".
Proof.
  unfold JsString.of_number. destruct n as [|p|p]; simpl; try discriminate.
  unfold NilZero.string_of_uint. destruct (Pos.to_uint p); discriminate.
Qed.

Section ErrorStringTheorems.

Variable error_descriptions : string -> option (jsval * jsval).

(** [getLastError], [getErrorString] and [getDiagnostic] only read:
    they leave state, register, tree, registrations and scheduler as they
    were and notify the listeners of their own name.  [getLastError]
    returns the register as a string; the other two return the empty string,
    and notify nobody, for [null] and for the empty string, ['No Error'] for
    a code the table does not hold, and the basic, respectively the detail,
    message of the table otherwise. *)
Lemma error_strings_only_read (CMIErrorCode : jsval) (s : session) :
  let message (detail : bool) :=
    match error_descriptions (js_String CMIErrorCode) with
    | Some (basic, detailed) => if detail then detailed else basic
    | None => JStr "No Error"
    end in
  (fst (lmsGetLastError s) = register_string (lastErrorCode s) /\
   only_notified "LMSGetLastError" s (snd (lmsGetLastError s))) /\
  (if names_a_code CMIErrorCode
   then fst (lmsGetErrorString error_descriptions CMIErrorCode s) = message false /\
        only_notified "LMSGetErrorString" s
          (snd (lmsGetErrorString error_descriptions CMIErrorCode s)) /\
        fst (lmsGetDiagnostic error_descriptions CMIErrorCode s) = message true /\
        only_notified "LMSGetDiagnostic" s
          (snd (lmsGetDiagnostic error_descriptions CMIErrorCode s))
   else lmsGetErrorString error_descriptions CMIErrorCode s = (JStr "", s) /\
        lmsGetDiagnostic error_descriptions CMIErrorCode s = (JStr "", s)).
Proof.
  intros message. subst message. split.
  - split; [reflexivity|]. repeat split.
  - unfold lmsGetErrorString, lmsGetDiagnostic, getErrorString, getDiagnostic,
      scorm12_getLmsErrorMessageDetails.
    destruct (names_a_code CMIErrorCode).
    + cbn [fst snd].
      destruct (error_descriptions (js_String CMIErrorCode)) as [[basic detailed]|];
        repeat split.
    + split; reflexivity.
Qed.

(** X3: after an operation was rejected by its life cycle check, asking
    [getLastError] for the code and [getErrorString] and [getDiagnostic] for
    that code gives the basic and the detail message the table holds for the
    code of the life cycle error. *)
Theorem rejected_operation_explains_itself (ec : error_code_table)
  (getCMI : string -> session -> option (session * completion node))
  (setCMI : string -> jsval -> session -> option (session * completion string))
  (store : bool -> session -> session * store_result)
  (cb : string) (op : operation) (s : session) (code : Z) (basic detailed : jsval) :
  lifecycle_error ec op s = Some code ->
  error_descriptions (JsString.of_number code) = Some (basic, detailed) ->
  exists out s1,
    run ec getCMI setCMI store cb op s = Some (Return out, s1) /\
    let '(reported, s2) := lmsGetLastError s1 in
    reported = JsString.of_number code /\
    fst (lmsGetErrorString error_descriptions (JStr reported) s2) = basic /\
    fst (lmsGetDiagnostic error_descriptions (JStr reported) s2) = detailed.
Proof.
  intros L T.
  destruct (run_lifecycle_error ec getCMI setCMI store cb op s code L)
    as (out & s1 & E & _ & R).
  exists out, s1. split; [exact E|].
  unfold lmsGetLastError, getLastError. rewrite R. cbn [register_string thrown].
  split; [reflexivity|].
  unfold lmsGetErrorString, lmsGetDiagnostic, getErrorString, getDiagnostic,
    scorm12_getLmsErrorMessageDetails, names_a_code.
  destruct (String.eqb_spec (JsString.of_number code) "") as [C|_];
    [exfalso; exact (of_number_not_empty code C)|].
  cbn [negb fst js_String]. rewrite T. split; reflexivity.
Qed.

End ErrorStringTheorems.

(** ** Scheduling and cancelling *)

Lemma clearTimeout_fresh (h : positive) (w : Z) (pending : list (positive * Z)) :
  (forall h', In h' (map fst pending) -> (h' < h)%positive) ->
  clearTimeout h (pending ++ [(h, w)]) = pending.
Proof.
  unfold clearTimeout. intros F. rewrite filter_app. simpl.
  rewrite Pos.eqb_refl. simpl. rewrite app_nil_r.
  induction pending as [|[h' w'] pending IH]; [reflexivity|].
  simpl. destruct (Pos.eqb_spec h' h) as [->|_].
  - exfalso. specialize (F h (or_introl eq_refl)). lia.
  - simpl. rewrite IH; [reflexivity|]. intros k K. apply F. right. exact K.
Qed.

(** X4: cancelling undoes scheduling: on a session whose timers carry
    handles below the next handle, [scheduleCommit] followed by
    [clearScheduledCommit] leaves the slot holding [null] and the host with
    the timers it had; and [clearScheduledCommit] is idempotent, so
    cancelling with nothing pending changes nothing more. *)
Theorem schedule_then_clear (when : Z) (s : session) :
  handles_fresh s ->
  timeout (clearScheduledCommit (scheduleCommit when s)) = SlotNull /\
  timers (clearScheduledCommit (scheduleCommit when s)) = timers s /\
  cmi (clearScheduledCommit (scheduleCommit when s)) = cmi s /\
  lastErrorCode (clearScheduledCommit (scheduleCommit when s)) = lastErrorCode s /\
  clearScheduledCommit (clearScheduledCommit (scheduleCommit when s))
  = clearScheduledCommit (scheduleCommit when s) /\
  clearScheduledCommit (clearScheduledCommit s) = clearScheduledCommit s.
Proof.
  intros F.
  assert (E : clearScheduledCommit (scheduleCommit when s)
              = with_timer SlotNull (timers s) (Pos.succ (next_handle s)) s).
  { unfold clearScheduledCommit, scheduleCommit, cancel. cbn -[clearTimeout].
    rewrite clearTimeout_fresh by exact F. reflexivity. }
  rewrite E. repeat (split; [reflexivity|]).
  unfold clearScheduledCommit. destruct (timeout s) eqn:T; cbn; rewrite ?T; reflexivity.
Qed.

(** X5: [scheduleCommit] does not cancel the trigger it replaces: after
    two calls the slot knows the second trigger only, so
    [clearScheduledCommit] empties the slot and clears the second timer,
    while the first timer stays with the host, out of reach of any later
    cancel. *)
Theorem replaced_trigger_stays_pending (when0 when1 : Z) (s : session) :
  let armed_twice := scheduleCommit when1 (scheduleCommit when0 s) in
  let cancelled := clearScheduledCommit armed_twice in
  slot_empty cancelled = true /\
  timer_pending (next_handle s) cancelled /\
  ~ timer_pending (Pos.succ (next_handle s)) cancelled /\
  timer_pending (next_handle s) (clearScheduledCommit cancelled).
Proof.
  intros armed_twice cancelled. subst armed_twice cancelled.
  assert (P : timer_pending (next_handle s)
                (clearScheduledCommit (scheduleCommit when1 (scheduleCommit when0 s)))).
  { unfold timer_pending, clearScheduledCommit. cbn.
    unfold clearTimeout. apply in_map_iff. exists (next_handle s, when0). split; [reflexivity|].
    apply filter_In. split.
    - rewrite <- app_assoc. apply in_or_app. right. left. reflexivity.
    - cbn. destruct (Pos.eqb_spec (next_handle s) (Pos.succ (next_handle s))); [lia|reflexivity]. }
  split; [reflexivity|]. split; [exact P|]. split.
  - unfold timer_pending, clearScheduledCommit. cbn. apply clearTimeout_not_pending.
  - exact P.
Qed.

(** ** Registering listeners *)

Lemma split_without_separator (sep : ascii) (s : string) :
  occurs sep s = false -> JsString.split sep s = [s].
Proof.
  induction s as [|c s IH]; simpl; [reflexivity|].
  intros H. apply Bool.orb_false_iff in H. destruct H as [C O].
  rewrite C, (IH O). reflexivity.
Qed.

Lemma split_at_first_separator (sep : ascii) (f r : string) :
  occurs sep f = false ->
  JsString.split sep (f ++ String sep r) = f :: JsString.split sep r.
Proof.
  induction f as [|c f IH]; simpl.
  - intros _. rewrite Ascii.eqb_refl. reflexivity.
  - intros H. apply Bool.orb_false_iff in H. destruct H as [C O].
    rewrite C, (IH O). reflexivity.
Qed.

Lemma startsWith_append (p r : string) : JsString.startsWith p (p ++ r) = true.
Proof.
  induction p as [|c p IH]; simpl; [reflexivity|].
  rewrite Ascii.eqb_refl, IH. reflexivity.
Qed.

Lemma drop_length_append (p r : string) : JsString.drop (String.length p) (p ++ r) = r.
Proof. induction p as [|c p IH]; simpl; [destruct r; reflexivity | exact IH]. Qed.

Lemma remove_first_prefix (p r : string) : JsString.remove_first p (p ++ r) = r.
Proof.
  assert (E : forall s, JsString.remove_first p s =
                        if JsString.startsWith p s then JsString.drop (String.length p) s
                        else match s with
                             | EmptyString => EmptyString
                             | String c t => String c (JsString.remove_first p t)
                             end)
    by (intros s; destruct s; reflexivity).
  rewrite E, startsWith_append. apply drop_length_append.
Qed.

Lemma occurs_append (c : ascii) (a b : string) :
  occurs c (a ++ b) = occurs c a || occurs c b.
Proof.
  induction a as [|x a IH]; simpl; [reflexivity|].
  rewrite IH, Bool.orb_assoc. reflexivity.
Qed.

(** X6: a pattern of one token is registered as written: [on] with
    [operationName.elementPath], where the operation name has no dot and
    neither part has a space, appends the one registration (operation name,
    element path, callback); with an operation name alone it appends
    (operation name, no path, callback); and without a callback it leaves the
    session as it is. *)
Theorem on_single_token (operationName elementPath : string) (cb : nat) (s : session) :
  occurs " " operationName = false ->
  occurs "." operationName = false ->
  occurs " " elementPath = false ->
  listenerArray (on (operationName ++ "." ++ elementPath) (Some cb) s)
  = (listenerArray s ++
     [ {| functionName := operationName; CMIElement := Some elementPath;
          callback := cb |} ])%list /\
  listenerArray (on operationName (Some cb) s)
  = (listenerArray s ++
     [ {| functionName := operationName; CMIElement := None; callback := cb |} ])%list /\
  on (operationName ++ "." ++ elementPath) None s = s.
Proof.
  intros S1 D1 S2. split; [|split; [|reflexivity]].
  - unfold on. cbn [listenerArray with_listeners].
    rewrite split_without_separator.
    + cbn [map]. unfold registration.
      change (operationName ++ "." ++ elementPath)%string
        with (operationName ++ String "." elementPath)%string.
      rewrite (split_at_first_separator "." operationName elementPath D1).
      cbn [hd List.length].
      destruct (JsString.split "." elementPath) as [|x l] eqn:E.
      * destruct elementPath as [|c e]; [discriminate E|].
        simpl in E. destruct (Ascii.eqb c "."); [discriminate E|].
        destruct (JsString.split "." e); discriminate E.
      * cbn [List.length Nat.ltb Nat.leb].
        replace (operationName ++ String "." elementPath)%string
          with ((operationName ++ ".") ++ elementPath)%string
          by (rewrite string_append_assoc; reflexivity).
        rewrite remove_first_prefix. reflexivity.
    + rewrite occurs_append, S1. cbn [occurs append]. rewrite S2. reflexivity.
  - unfold on. cbn [listenerArray with_listeners].
    rewrite (split_without_separator " " operationName S1). cbn [map].
    unfold registration. rewrite (split_without_separator "." operationName D1).
    reflexivity.
Qed.

(** ** The factory of [Scorm12API] *)

Lemma digit_cases (d : ascii) :
  JsString.is_digit d = true ->
  In d ["0"; "1"; "2"; "3"; "4"; "5"; "6"; "7"; "8"; "9"]%char.
Proof.
  destruct d as [[] [] [] [] [] [] [] []]; intros H; try discriminate H;
    cbn; tauto.
Qed.

Lemma match_here_prefix (A B : list JsString.atom) (s : string) :
  JsString.match_here (A ++ B) s = true -> JsString.match_here A s = true.
Proof.
  revert s. induction A as [|a A IH]; intros s; [reflexivity|].
  destruct s as [|c s]; [destruct a; discriminate|].
  destruct a; cbn [app JsString.match_here]; intros H;
    apply Bool.andb_true_iff in H; destruct H as [H1 H2];
    rewrite H1, (IH _ H2); reflexivity.
Qed.

Lemma search_prefix (A B : list JsString.atom) (s : string) :
  JsString.search A s = false -> JsString.search (A ++ B) s = false.
Proof.
  induction s as [|c s IH]; cbn [JsString.search]; intros H;
    apply Bool.orb_false_iff in H; destruct H as [H1 H2];
    apply Bool.orb_false_iff; (split; [|auto]);
    destruct (JsString.match_here (A ++ B) _) eqn:E; try reflexivity;
    apply match_here_prefix in E; congruence.
Qed.

(** X7: the patterns of [getChildElement] take an index to be one digit:
    for a path under an interaction whose index has two digits or more, with
    no further [cmi.] in what follows, the factory builds an object of the
    class of interactions, also when the path names a child of the
    [objectives] or [correct_responses] collection of that interaction;
    with an index of one digit the child of [objectives] is built from its
    own class. *)
Theorem getChildElement_long_index (O1 O2 O3 O4 : node) (d1 d2 : ascii) (rest : string)
  (value : jsval) (foundFirstIndex : bool) :
  JsString.is_digit d1 = true ->
  JsString.is_digit d2 = true ->
  JsString.search (JsString.lits "cmi.") rest = false ->
  getChildElement O1 O2 O3 O4 ("cmi.interactions." ++ String d1 (String d2 rest))
    value foundFirstIndex = O4 /\
  getChildElement O1 O2 O3 O4
    ("cmi.interactions." ++ String d1 (".objectives." ++ String d2 rest)) value true = O3.
Proof.
  intros D1 D2 H.
  pose proof (search_prefix (JsString.lits "cmi.")
                (JsString.lits "objectives." ++ [JsString.Digit]) rest H) as R1.
  pose proof (search_prefix (JsString.lits "cmi.")
                (JsString.lits "interactions." ++ [JsString.Digit]
                 ++ JsString.lits ".correct_responses." ++ [JsString.Digit]) rest H) as R2.
  pose proof (search_prefix (JsString.lits "cmi.")
                (JsString.lits "interactions." ++ [JsString.Digit]
                 ++ JsString.lits ".objectives." ++ [JsString.Digit]) rest H) as R3.
  cbn [JsString.lits app] in R1, R2, R3.
  apply digit_cases in D1. apply digit_cases in D2.
  unfold getChildElement, stringMatches, re_objectives, re_correct_responses,
    re_interactions_objectives, re_interactions.
  cbn [JsString.lits app].
  cbn [In] in D1, D2.
  repeat (destruct D1 as [<-|D1]; [|]); try contradiction;
    repeat (destruct D2 as [<-|D2]; [|]); try contradiction;
    cbn; rewrite ?R1, ?R2, ?R3; destruct foundFirstIndex; split; reflexivity.
Qed.

(** ** Life cycle *)

Section LifeCycle.

Variable ec : error_code_table.
Variables O1 O2 O3 O4 : node.
Variable payload : Type.
Variable renderCommitCMI : bool -> session -> payload.
Variable httpPost : string -> payload -> option (jsval * option Z).
Variable terminationStatus : session -> session.

Lemma getValue_state (cb : string) (ct : bool) (p : string) (s : session)
  (r : completion node) (s' : session) :
  getValue ec (getCMIValue ec) cb ct p s = Some (r, s') ->
  currentState s' = currentState s /\ cmi s' = cmi s /\
  listenerArray s' = listenerArray s.
Proof.
  unfold getValue. rewrite checkState_spec.
  destruct (lifecycle_failure _ _ _ _); cbv beta iota zeta.
  - intros E. injection E as _ <-. repeat split.
  - destruct (getCMIValue ec p _) as [[s3 [x|e]]|] eqn:G; [| |discriminate];
      destruct (_commonGetCMIValue_frame _ _ _ _ _ _ _ _ G) as [G0 C];
      destruct G0 as (G1 & G2 & _);
      intros E; injection E as _ <-; unfold clearSCORMError;
      try destruct (reports_success x); simpl; rewrite G1, G2, C;
      destruct ct; repeat split.
Qed.

Lemma setValue_state (cb : string) (ct : bool) (p : string) (v : jsval) (s : session)
  (r : string) (s' : session) :
  setValue ec (setCMIValue ec O1 O2 O3 O4) cb ct p v s = Some (r, s') ->
  currentState s' = currentState s.
Proof.
  intros R.
  destruct (lifecycle_failure ct (STORE_BEFORE_INIT ec) (STORE_AFTER_TERM ec) s)
    as [code|] eqn:G.
  - destruct (setValue_rejected ec (setCMIValue ec O1 O2 O3 O4) cb ct p v s code G)
      as (s1 & E & _ & St & _ & _ & L).
    rewrite E in R. injection R as _ <-. assumption.
  - destruct (setValue_host ec _ (setCMIValue_host ec O1 O2 O3 O4) cb ct p v s r s' G R)
      as (St & _). assumption.
Qed.

Lemma commit_state (cb : string) (ct : bool) (s : session) :
  let s' :=
    snd (commit ec (storeData ec payload renderCommitCMI httpPost terminationStatus)
           cb ct s) in
  currentState s' = currentState s /\ cmi s' = cmi s /\
  listenerArray s' = listenerArray s.
Proof.
  intros s'. subst s'.
  destruct (clearScheduledCommit_frame s) as (F1 & _ & _ & F4 & _ & F6).
  unfold commit. rewrite checkState_spec.
  destruct (lifecycle_failure _ _ _ _).
  - simpl. repeat split; assumption.
  - pose proof (storeData_false_session ec payload renderCommitCMI httpPost
                  terminationStatus (clearScheduledCommit s)) as F.
    destruct (storeData ec payload renderCommitCMI httpPost terminationStatus false
                (clearScheduledCommit s)) as [s2 result].
    simpl in F. subst s2.
    cbv beta iota zeta. unfold clearSCORMError, processListeners, throwSCORMError.
    destruct (reports_success _); destruct ct;
      destruct (get_errorCode result) as [code|];
      try destruct (0 <? code); simpl; repeat split; assumption.
Qed.

(** X8: on the paths of the data model the life cycle only moves forward.
    Whatever one of the five operations does, [getValue] and [setValue]
    taking the empty path or a path rooted at [cmi], the state after it is
    the state before it or the next one: it changes only when [initialize]
    takes a session that is not initialized to [STATE_INITIALIZED] and when
    [terminate] takes an initialized session to [STATE_TERMINATED]; a
    terminated session stays terminated.  (A path that names the member
    [currentState] of the API object itself is not a path of the data
    model.) *)
Theorem lifecycle_moves_forward (cb : string) (op : operation) (s : session)
  (out : completion node) (s' : session) :
  addresses_data_model op = true ->
  run ec (getCMIValue ec) (setCMIValue ec O1 O2 O3 O4)
    (storeData ec payload renderCommitCMI httpPost terminationStatus) cb op s
  = Some (out, s') ->
  (state_rank (currentState s) <= state_rank (currentState s'))%nat /\
  (currentState s = STATE_TERMINATED -> currentState s' = STATE_TERMINATED) /\
  (currentState s' <> currentState s ->
   (op = Initialize /\ currentState s = STATE_NOT_INITIALIZED /\
    currentState s' = STATE_INITIALIZED) \/
   (exists ct, op = Terminate ct /\ currentState s = STATE_INITIALIZED /\
               currentState s' = STATE_TERMINATED)).
Proof.
  assert (Same : currentState s' = currentState s ->
                 (state_rank (currentState s) <= state_rank (currentState s'))%nat /\
                 (currentState s = STATE_TERMINATED -> currentState s' = STATE_TERMINATED) /\
                 (currentState s' <> currentState s ->
                  (op = Initialize /\ currentState s = STATE_NOT_INITIALIZED /\
                   currentState s' = STATE_INITIALIZED) \/
                  (exists ct, op = Terminate ct /\ currentState s = STATE_INITIALIZED /\
                              currentState s' = STATE_TERMINATED))).
  { intros ->. split; [lia|]. split; [auto|]. intros N. contradiction. }
  intros _.
  destruct op as [|ct|ct p|ct p v|ct]; cbn [run].
  - unfold initialize, isInitialized, isTerminated.
    destruct (currentState s) eqn:St; cbv beta iota zeta;
      intros E; injection E as _ <-; cbn; rewrite ?St; cbn;
      (split; [lia|]); (split; [try discriminate; auto|]); intros N;
      try contradiction. left. repeat split.
  - unfold terminate. rewrite checkState_spec.
    unfold lifecycle_failure, isNotInitialized, isTerminated.
    destruct (currentState s) eqn:St; destruct ct; cbn [andb]; cbv beta iota zeta;
      intros E; injection E as _ <-; cbn; rewrite ?St; cbn;
      (split; [lia|]); (split; [try discriminate; auto|]); intros N;
      try contradiction; right; eexists; repeat split.
  - intros E. apply Same. apply getValue_state in E. tauto.
  - destruct (setValue _ _ _ _ _ _ _) as [[r s1]|] eqn:E; [|discriminate].
    intros K. injection K as _ <-. apply Same. apply setValue_state in E. exact E.
  - pose proof (commit_state cb ct s) as C. cbv zeta in C.
    destruct (commit _ _ _ _ _) as [r s1]. intros K. injection K as _ <-.
    apply Same. simpl in C. tauto.
Qed.

End LifeCycle.

(** ** Committing to a destination *)

Section CommitToDestination.

Variable ec : error_code_table.
Variable payload : Type.
Variable renderCommitCMI : bool -> session -> payload.
Variable httpPost : string -> payload -> option (jsval * option Z).
Variable terminationStatus : session -> session.

(** X9: with a commit destination configured and an exchange with the
    destination that completes (the host opens the request and the answer,
    when [send] does not throw, is the JSON text of an object with a
    primitive [result] and an integer [errorCode] or none), a [commit] that
    passes the life cycle check posts the rendered tree once and answers
    with what the destination answered: it returns the [result] of the
    answer when that is truthy and ['false'] otherwise, a failed [send]
    counting as the answer (['false'], general error).  The register is 0
    when the value returned is a success value, and also whenever the
    termination check is set; only without the termination check does a
    failure keep the positive [errorCode] of the answer.  The tree is
    untouched, and the callback of every registration made under the name of
    the operation without an element filter is invoked, in the order of
    registration, in both cases.  (When [open] or [JSON.parse] throws, or
    the answer is no such object, [commit] may throw instead: these
    exchanges are not covered.) *)
Theorem commit_with_destination (cb : string) (ct : bool) (s : session) (url : string) :
  lifecycle_failure ct (COMMIT_BEFORE_INIT ec) (COMMIT_AFTER_TERM ec) s = None ->
  lmsCommitUrl (settings s) = Some url ->
  url <> "" ->
  let answer :=
    match httpPost url (renderCommitCMI false (clearScheduledCommit s)) with
    | Some a => a
    | None => (JStr SCORM_FALSE, Some (GENERAL ec))
    end in
  let returnValue := if truthy (fst answer) then fst answer else JStr SCORM_FALSE in
  exists s',
    commit ec (storeData ec payload renderCommitCMI httpPost terminationStatus) cb ct s
    = (returnValue, s') /\
    lastErrorCode s' =
    (if reports_success (Prim returnValue) then ErrNum 0
     else if ct then ErrNum 0
          else match snd answer with
               | Some code => if 0 <? code then thrown code else lastErrorCode s
               | None => lastErrorCode s
               end) /\
    cmi s' = cmi s /\
    calls s' =
    (calls s ++
     map (fun l => {| inv_callback := callback l; inv_CMIElement := None;
                      inv_value := None |})
         (filter (fun l => String.eqb (functionName l) cb &&
                           match CMIElement l with
                           | Some e => String.eqb e ""
                           | None => true
                           end)
                 (listenerArray s)))%list.
Proof.
  intros G U N answer returnValue. rewrite <- notifications_without_element.
  destruct (clearScheduledCommit_frame s) as (F1 & F2 & F3 & F4 & F5 & F6).
  assert (G' : lifecycle_failure ct (COMMIT_BEFORE_INIT ec) (COMMIT_AFTER_TERM ec)
                 (clearScheduledCommit s) = None).
  { rewrite <- G. unfold lifecycle_failure, isNotInitialized, isTerminated.
    rewrite F1. reflexivity. }
  unfold commit. rewrite checkState_spec, G'. cbv beta iota.
  unfold storeData. rewrite F2, U.
  destruct (String.eqb_spec url "") as [C|_]; [contradiction|]. cbn [negb].
  unfold processHttpRequest. subst returnValue answer.
  destruct (httpPost url (renderCommitCMI false (clearScheduledCommit s)))
    as [[result code]|]; cbv beta iota zeta; cbn [get_result get_errorCode fst snd];
    (eexists; split; [reflexivity|]);
    unfold clearSCORMError, processListeners, throwSCORMError;
    try destruct code as [code|]; try destruct (0 <? code);
    try destruct (0 <? GENERAL ec);
    destruct (reports_success _); destruct ct; cbn;
    rewrite ?F3, ?F4, ?F5, ?F6; repeat split; reflexivity.
Qed.

End CommitToDestination.

(** ** Walking to an object that exists *)

Lemma replace_nth_same (cs : list node) (n : nat) (item : node) :
  nth_error cs n = Some item -> replace_nth n item cs = cs.
Proof.
  revert n. induction cs as [|c cs IH]; intros [|n]; simpl; try discriminate.
  - intros E. injection E as ->. reflexivity.
  - intros E. rewrite (IH _ E). reflexivity.
Qed.

Lemma child_at_nth_error (cs : list node) (index : Z) (item : node) :
  child_at cs index = Some item -> nth_error cs (Z.to_nat index) = Some item.
Proof.
  unfold child_at. destruct (index <? 0); [discriminate|].
  destruct (nth_error cs (Z.to_nat index)) as [x|]; [|discriminate].
  destruct (truthy_node x); [|discriminate]. intros E. injection E as ->. reflexivity.
Qed.

(** Storing back an object that was read from a member changes nothing. *)
Lemma store_child_same (o : node) (attribute : string) (x : node) :
  read_property o attribute = Some (Return x) -> x <> undefined ->
  store_child o attribute x = o.
Proof.
  destruct o as [pv|i fs|init ch code cs]; cbn [read_property store_child];
    try reflexivity.
  destruct (find_field attribute fs) as [[acc y]|] eqn:F.
  - intros R _. assert (y = x) as ->.
    { destruct acc as [a|]; [destruct (getter_fault a i); [discriminate R|]|];
        injection R as ->; reflexivity. }
    rewrite (put_field_same _ _ _ _ F). reflexivity.
  - intros R N. injection R as <-. contradiction.
Qed.

Section Through.

Variable ec : error_code_table.
Variable factory : string -> jsval -> bool -> node.
Variable p : string.
Variable v : jsval.

(** A write whose last segments leave the object they are applied to
    unchanged leaves the whole tree unchanged. *)
Lemma set_loop_through (n : nat) :
  forall (prefix last : list string) (o o1 : node) (ff : bool)
         (err e : error_register) (c : completion string),
    (List.length prefix <= n)%nat ->
    last <> [] ->
    locate prefix o = Some o1 ->
    set_loop ec factory false p v last o1 ff err = Some (o1, e, c) ->
    set_loop ec factory false p v (prefix ++ last) o ff err = Some (o, e, c).
Proof.
  induction n as [|n IH]; intros prefix last o o1 ff err e c Len NE L S.
  - destruct prefix; [|simpl in Len; lia]. simpl in L. injection L as ->. exact S.
  - destruct prefix as [|attribute tl].
    { simpl in L. injection L as ->. exact S. }
    cbn [locate] in L. simpl in Len.
    destruct (read_property o attribute) as [[x|ex]|] eqn:R; try discriminate L.
    destruct x as [xv|xi xfs|init ch code cs]; [discriminate L| |].
    + (* through a composite member *)
      cbn [app].
      destruct (tl ++ last)%list as [|next rest] eqn:A.
      { apply app_eq_nil in A. destruct A as [_ A]. contradiction. }
      rewrite set_loop_step, R. cbn [truthy_node negb]. rewrite <- A.
      rewrite (IH tl last (Composite xi xfs) o1 ff err e c ltac:(lia) NE L S).
      rewrite (store_child_same o attribute _ R ltac:(discriminate)). reflexivity.
    + (* through a child of a collection *)
      destruct tl as [|next rest]; [discriminate L|].
      destruct (JsString.parseInt next) as [index|] eqn:P; [|discriminate L].
      destruct (child_at cs index) as [item|] eqn:C; [|discriminate L].
      cbn [app]. rewrite set_loop_step, R. cbn [truthy_node negb]. rewrite P, C.
      simpl in Len.
      rewrite (IH rest last item o1 ff err e c ltac:(lia) NE L S).
      rewrite (replace_nth_same cs _ item (child_at_nth_error _ _ _ C)).
      rewrite (store_child_same o attribute _ R ltac:(discriminate)). reflexivity.
Qed.

(** A write whose last segments change the object they are applied to
    changes the tree at that object only: the walk to it finds the changed
    object where the object was. *)
Lemma set_loop_through_update (n : nat) :
  forall (prefix last : list string) (o : node) (i : bool) (fs : list field)
         (i' : bool) (fs' : list field) (ff : bool) (err e : error_register)
         (c : completion string),
    (List.length prefix <= n)%nat ->
    last <> [] ->
    locate prefix o = Some (Composite i fs) ->
    set_loop ec factory false p v last (Composite i fs) ff err
    = Some (Composite i' fs', e, c) ->
    exists o',
      set_loop ec factory false p v (prefix ++ last) o ff err = Some (o', e, c) /\
      locate prefix o' = Some (Composite i' fs') /\
      exists io ofs, o' = Composite io ofs.
Proof.
  induction n as [|n IH]; intros prefix last o i fs i' fs' ff err e c Len NE L S.
  - destruct prefix; [|simpl in Len; lia]. simpl in L. injection L as ->.
    exists (Composite i' fs'). split; [exact S|]. split; [reflexivity | eauto].
  - destruct prefix as [|attribute tl].
    { simpl in L. injection L as ->.
      exists (Composite i' fs'). split; [exact S|]. split; [reflexivity | eauto]. }
    cbn [locate] in L. simpl in Len.
    destruct (read_property o attribute) as [[x|ex]|] eqn:R; try discriminate L.
    assert (Rd : forall x', read_property (store_child o attribute x') attribute
                            = Some (Return x') /\
                            exists io ofs, store_child o attribute x' = Composite io ofs).
    { intros x'. destruct o as [pv|oi ofs|oinit och ocode ocs].
      - discriminate R.
      - cbn [read_property store_child] in *.
        destruct (find_field attribute ofs) as [[acc y]|] eqn:F.
        + rewrite (put_field_find attribute x' ofs _ _ F).
          destruct acc as [a|]; [destruct (getter_fault a oi); [discriminate R|]|];
            split; eauto.
        + injection R as <-. discriminate L.
      - cbn [read_property] in R.
        repeat match type of R with
               | (if ?b then _ else _) = _ => destruct b
               end; try discriminate R; injection R as <-; discriminate L. }
    destruct x as [xv|xi xfs|init ch code cs]; [discriminate L| |].
    + (* through a composite member *)
      cbn [app].
      destruct (tl ++ last)%list as [|next rest] eqn:A.
      { apply app_eq_nil in A. destruct A as [_ A]. contradiction. }
      rewrite set_loop_step, R. cbn [truthy_node negb]. rewrite <- A.
      destruct (IH tl last (Composite xi xfs) i fs i' fs' ff err e c ltac:(lia) NE L S)
        as (x' & S' & L' & (xi' & xfs' & ->)).
      rewrite S'. eexists. split; [reflexivity|].
      destruct (Rd (Composite xi' xfs')) as [Rd1 Rd2].
      split; [|exact Rd2]. cbn [locate]. rewrite Rd1. exact L'.
    + (* through a child of a collection *)
      destruct tl as [|next rest]; [discriminate L|].
      destruct (JsString.parseInt next) as [index|] eqn:P; [|discriminate L].
      destruct (child_at cs index) as [item|] eqn:C; [|discriminate L].
      cbn [app]. rewrite set_loop_step, R. cbn [truthy_node negb]. rewrite P, C.
      simpl in Len.
      destruct (IH rest last item i fs i' fs' ff err e c ltac:(lia) NE L S)
        as (x' & S' & L' & (xi' & xfs' & ->)).
      rewrite S'. eexists. split; [reflexivity|].
      destruct (Rd (Collection init ch code
                      (replace_nth (Z.to_nat index) (Composite xi' xfs') cs)))
        as [Rd1 Rd2].
      split; [|exact Rd2]. cbn [locate]. rewrite Rd1, P.
      rewrite (child_at_replace cs index item (Composite xi' xfs') C eq_refl). exact L'.
Qed.

(** A read goes through the same objects. *)
Lemma get_loop_through (n : nat) :
  forall (prefix : list string) (attribute : string) (last : list string) (o o1 : node)
         (a : option string) (err : error_register),
    (List.length prefix <= n)%nat ->
    locate prefix o = Some o1 ->
    get_loop ec false (prefix ++ attribute :: last) o a err
    = get_loop ec false (attribute :: last) o1 None err.
Proof.
  assert (Any : forall attribute last o a a' err,
             get_loop ec false (attribute :: last) o a err
             = get_loop ec false (attribute :: last) o a' err).
  { intros. rewrite !get_loop_cons. reflexivity. }
  induction n as [|n IH]; intros prefix attribute last o o1 a err Len L.
  - destruct prefix; [|simpl in Len; lia]. simpl in L. injection L as ->. apply Any.
  - destruct prefix as [|seg tl].
    { simpl in L. injection L as ->. apply Any. }
    cbn [locate] in L. simpl in Len.
    destruct (read_property o seg) as [[x|ex]|] eqn:R; try discriminate L.
    assert (NP : match o with Prim _ => False | _ => True end)
      by (destruct o; [discriminate R | exact I | exact I]).
    destruct x as [xv|xi xfs|init ch code cs]; [discriminate L| |].
    + cbn [app]. rewrite get_loop_cons.
      destruct o as [pv|oi ofs|oinit och ocode ocs]; [contradiction| |];
        cbn [andb]; rewrite R; cbn [truthy_node negb];
        (destruct (tl ++ attribute :: last)%list as [|next rest] eqn:A;
         [destruct tl; discriminate A|]);
        cbn [andb]; rewrite <- A;
        apply (IH tl attribute last (Composite xi xfs) o1 _ err ltac:(lia) L).
    + destruct tl as [|next rest]; [discriminate L|].
      destruct (JsString.parseInt next) as [index|] eqn:P; [|discriminate L].
      destruct (child_at cs index) as [item|] eqn:C; [|discriminate L].
      cbn [app]. rewrite get_loop_cons. simpl in Len.
      destruct o as [pv|oi ofs|oinit och ocode ocs]; [contradiction| |];
        cbn [andb]; rewrite R; cbn [truthy_node negb]; rewrite P, C;
        apply (IH rest attribute last item o1 _ err ltac:(lia) L).
Qed.

End Through.

(** A walk from the API object starts at [cmi]. *)
Lemma locate_from_root (prefix : list string) (s : session) (o : node) :
  prefix <> [] -> locate prefix (api_object s) = Some o ->
  in_data_model prefix = true.
Proof.
  destruct prefix as [|first tl]; [contradiction|]. intros _.
  cbn [locate api_object read_property find_field in_data_model].
  rewrite (String.eqb_sym first "cmi").
  destruct (String.eqb "cmi" first); [reflexivity | discriminate].
Qed.

(** ** Failures of the resolver *)

Section ResolverFailures.

Variable ec : error_code_table.
Variables O1 O2 O3 O4 : node.

Lemma data_model_path_split (p : string) (prefix last : list string) :
  JsString.split "." p = (prefix ++ last)%list ->
  in_data_model prefix = true -> data_model_path p = true.
Proof.
  intros Sp D. unfold data_model_path. rewrite Sp.
  destruct prefix as [|first tl]; [discriminate D|].
  cbn [app in_data_model] in *. rewrite D. apply Bool.orb_true_r.
Qed.

(** [LMSSetValue] past the life cycle check on a path of the data model, in
    terms of the completion of [setCMIValue]. *)
Lemma lmsSetValue_outcome (p : string) (v : jsval) (s s3 : session)
  (out : completion string) :
  currentState s <> STATE_NOT_INITIALIZED ->
  data_model_path p = true ->
  setCMIValue ec O1 O2 O3 O4 p v s = Some (s3, out) ->
  exists s',
    lmsSetValue ec O1 O2 O3 O4 p v s = Some (returned out, s') /\
    cmi s' = cmi s3 /\
    lastErrorCode s' =
    (if String.eqb (returned out) SCORM_FALSE
     then match out with
          | Return _ => lastErrorCode s3
          | Throw (ValidationError code) => ErrNum code
          | Throw TypeError => thrown (GENERAL ec)
          end
     else ErrNum 0) /\
    calls s' = (calls s ++ notifications (listenerArray s) "LMSSetValue"
                             (Some p) (Some v))%list.
Proof.
  intros St D E.
  destruct (setCMIValue_frame ec O1 O2 O3 O4 p v s s3 out D E)
    as (_ & F2 & _ & _ & _ & _ & F7).
  unfold lmsSetValue, setValue. rewrite checkState_spec.
  unfold lifecycle_failure, isNotInitialized.
  destruct (currentState s) eqn:C; [contradiction| |];
    cbn [andb]; cbv beta iota zeta; rewrite E;
    destruct out as [r|[code|]]; cbv beta iota zeta; unfold returned;
    (eexists; split; [reflexivity|]);
    unfold clearSCORMError; cbn [reports_success];
    destruct (String.eqb _ SCORM_FALSE); cbn [negb];
    destruct (String.eqb _ "0");
    try destruct (autocommit _ && timeout_is_undefined _);
    cbn; rewrite ?F2, ?F7; repeat split; reflexivity.
Qed.

Lemma lmsGetValue_outcome (p : string) (s s3 : session) (x : node) :
  currentState s <> STATE_NOT_INITIALIZED ->
  getCMIValue ec p s = Some (s3, Return x) ->
  lmsGetValue ec p s
  = Some (Return x, clearSCORMError x (processListeners "LMSGetValue" (Some p) None s3)).
Proof.
  intros St E. unfold lmsGetValue, getValue. rewrite checkState_spec.
  unfold lifecycle_failure, isNotInitialized.
  destruct (currentState s); [contradiction| |]; cbn [andb]; cbv beta iota zeta;
    rewrite E; reflexivity.
Qed.

(** The resolver of [Scorm12API], from the loop over the segments. *)
Lemma setCMIValue_loop (p : string) (v : jsval) (s : session) (prefix last : list string)
  (root : node) (e : error_register) (c : completion string) :
  JsString.split "." p = (prefix ++ last)%list ->
  in_data_model prefix = true ->
  set_loop ec (getChildElement O1 O2 O3 O4) false p v (prefix ++ last) (api_object s)
    false (lastErrorCode s) = Some (root, e, c) ->
  setCMIValue ec O1 O2 O3 O4 p v s
  = Some (with_error e (with_cmi (api_cmi root s) s), c).
Proof.
  intros Sp D L. unfold setCMIValue, _commonSetCMIValue.
  destruct prefix as [|first tl]; [discriminate D|].
  assert (Ne : String.eqb p "" = false).
  { destruct p; [|reflexivity]. cbn in Sp. injection Sp as Hf _. subst first.
    discriminate D. }
  rewrite Ne, Sp. cbn [app in_data_model] in *. rewrite D, L. reflexivity.
Qed.

Lemma getCMIValue_loop (p : string) (s : session) (prefix last : list string) :
  JsString.split "." p = (prefix ++ last)%list ->
  in_data_model prefix = true ->
  getCMIValue ec p s
  = match get_loop ec false (prefix ++ last) (api_object s) None (lastErrorCode s) with
    | None => None
    | Some (err, Throw e) => Some (with_error err s, Throw e)
    | Some (err, Return EarlyReturn) => Some (with_error err s, Return undefined)
    | Some (err, Return (LoopEnd refObject attribute)) =>
        if is_nullish refObject
        then
          Some (with_error
                  (if attribute_is attribute "_children" then thrown (CHILDREN_ERROR ec)
                   else if attribute_is attribute "_count" then thrown (COUNT_ERROR ec)
                        else err) s, Return undefined)
        else Some (with_error err s, Return refObject)
    end.
Proof.
  intros Sp D. unfold getCMIValue, _commonGetCMIValue.
  destruct prefix as [|first tl]; [discriminate D|].
  assert (Ne : String.eqb p "" = false).
  { destruct p; [|reflexivity]. cbn in Sp. injection Sp as Hf _. subst first.
    discriminate D. }
  rewrite Ne, Sp. cbn [app in_data_model] in *. rewrite D. reflexivity.
Qed.

(** X10: an element that does not exist.  On a session past
    initialization, for a path that leads through objects that exist to an
    object without the member named last, [LMSSetValue] returns ['false'] and
    [LMSGetValue] returns [undefined]; both leave the general error code in
    the register and the tree unchanged, and both still notify their
    listeners. *)
Theorem missing_element_fails (s : session) (p : string) (v : jsval) (prefix : list string)
  (attribute : string) (i : bool) (fs : list field) :
  currentState s <> STATE_NOT_INITIALIZED ->
  JsString.split "." p = (prefix ++ [attribute])%list ->
  prefix <> [] ->
  locate prefix (api_object s) = Some (Composite i fs) ->
  find_field attribute fs = None ->
  (exists s',
      lmsSetValue ec O1 O2 O3 O4 p v s = Some (SCORM_FALSE, s') /\
      cmi s' = cmi s /\ lastErrorCode s' = thrown (GENERAL ec) /\
      calls s' = (calls s ++ notifications (listenerArray s) "LMSSetValue"
                               (Some p) (Some v))%list) /\
  (exists s',
      lmsGetValue ec p s = Some (Return undefined, s') /\
      cmi s' = cmi s /\ lastErrorCode s' = thrown (GENERAL ec) /\
      calls s' = (calls s ++ notifications (listenerArray s) "LMSGetValue"
                               (Some p) None)%list).
Proof.
  intros St Sp NE L F.
  pose proof (locate_from_root prefix s _ NE L) as D.
  split.
  - assert (S : set_loop ec (getChildElement O1 O2 O3 O4) false p v [attribute]
                  (Composite i fs) false (lastErrorCode s)
                = Some (Composite i fs, thrown (GENERAL ec), Return SCORM_FALSE)).
    { rewrite set_loop_last. cbn [_checkObjectHasProperty]. rewrite F. reflexivity. }
    pose proof (set_loop_through ec _ p v _ prefix [attribute] (api_object s) _ false
                  (lastErrorCode s) _ _ (Nat.le_refl _) ltac:(discriminate) L S) as W.
    pose proof (setCMIValue_loop p v s prefix [attribute] _ _ _ Sp D W) as E.
    destruct (lmsSetValue_outcome p v s _ _ St (data_model_path_split _ _ _ Sp D) E) as (s' & R & C & K & N).
    exists s'. split; [exact R|]. split; [exact C|]. split; [exact K | exact N].
  - pose proof (get_loop_through ec _ prefix attribute [] (api_object s) _ None
                  (lastErrorCode s) (Nat.le_refl _) L) as G.
    rewrite get_loop_cons in G. cbn [andb _checkObjectHasProperty] in G.
    rewrite F in G. cbn [negb] in G.
    pose proof (getCMIValue_loop p s prefix [attribute] Sp D) as E.
    rewrite G in E.
    rewrite (lmsGetValue_outcome p s _ _ St E).
    eexists. split; [reflexivity|]. repeat split.
Qed.



(** X13: a read at an index without a child.  On a session past
    initialization, for a path that leads to a collection and names an index
    at which the collection has no child - whatever follows the index -
    [LMSGetValue] does not fail: it returns the collection object itself,
    and the register is 0 afterwards (the not-initialized code thrown on the
    way is cleared, the value returned counting as a success). *)
Theorem read_at_missing_index (s : session) (p : string) (prefix : list string)
  (name idx : string) (rest : list string) (i : bool) (fs : list field)
  (init : bool) (ch : string) (code : Z) (cs : list node) (index : Z) :
  currentState s <> STATE_NOT_INITIALIZED ->
  JsString.split "." p = (prefix ++ name :: idx :: rest)%list ->
  prefix <> [] ->
  locate prefix (api_object s) = Some (Composite i fs) ->
  read_property (Composite i fs) name = Some (Return (Collection init ch code cs)) ->
  JsString.parseInt idx = Some index ->
  child_at cs index = None ->
  exists s',
    lmsGetValue ec p s = Some (Return (Collection init ch code cs), s') /\
    lastErrorCode s' = ErrNum 0 /\ cmi s' = cmi s.
Proof.
  intros St Sp NE L R P A.
  pose proof (locate_from_root prefix s _ NE L) as D.
  pose proof (get_loop_through ec _ prefix name (idx :: rest) (api_object s) _ None
                (lastErrorCode s) (Nat.le_refl _) L) as G.
  rewrite get_loop_cons in G. cbn [andb] in G. rewrite R in G.
  cbn [truthy_node negb] in G. rewrite P, A in G.
  pose proof (getCMIValue_loop p s prefix (name :: idx :: rest) Sp D) as E.
  rewrite G in E. cbn [is_nullish] in E.
  rewrite (lmsGetValue_outcome p s _ _ St E).
  eexists. split; [reflexivity|]. split; reflexivity.
Qed.

End ResolverFailures.

Section ResolverEdges.

Variable ec : error_code_table.
Variables O1 O2 O3 O4 : node.

(** X14: a write whose path ends at an index.  On a session past
    initialization, [LMSSetValue] on [cmi.<collection>.<index>], where the
    collection has no child at the index and the factory yields an object,
    returns ['false'] and leaves the register as it was - no error code is
    raised - and yet the collection has grown by the new child. *)
Theorem write_ending_at_index (s : session) (p name idx : string) (v : jsval)
  (i : bool) (fs : list field) (init : bool) (ch : string) (code : Z)
  (cs : list node) (index : Z) (ci : bool) (cfs : list field) :
  currentState s <> STATE_NOT_INITIALIZED ->
  JsString.split "." p = ["cmi"; name; idx] ->
  cmi s = Composite i fs ->
  find_field name fs = Some (None, Collection init ch code cs) ->
  JsString.parseInt idx = Some index ->
  child_at cs index = None ->
  getChildElement O1 O2 O3 O4 p v false = Composite ci cfs ->
  exists s',
    lmsSetValue ec O1 O2 O3 O4 p v s = Some (SCORM_FALSE, s') /\
    lastErrorCode s' = lastErrorCode s /\
    cmi s' = Composite i
               (put_field name
                  (Collection init ch code
                     (cs ++ [if init then initialize_node (Composite ci cfs)
                             else Composite ci cfs])) fs).
Proof.
  intros St Sp C F P A N.
  assert (L : set_loop ec (getChildElement O1 O2 O3 O4) false p v ["cmi"; name; idx]
                (api_object s) false (lastErrorCode s)
              = Some (store_child (api_object s) "cmi"
                        (Composite i
                           (put_field name
                              (Collection init ch code
                                 (cs ++ [if init then initialize_node (Composite ci cfs)
                                         else Composite ci cfs])) fs)),
                      lastErrorCode s, Return SCORM_FALSE)).
  { rewrite set_loop_step. cbn [api_object read_property find_field].
    rewrite String.eqb_refl. rewrite C. cbn [truthy_node negb].
    rewrite set_loop_step. cbn [read_property]. rewrite F. cbn [truthy_node negb].
    rewrite P, A, N. cbn [truthy_node negb set_loop store_child].
    destruct init; reflexivity. }
  pose proof (setCMIValue_loop ec O1 O2 O3 O4 p v s ["cmi"] [name; idx] _ _ _ Sp
                eq_refl L) as E.
  destruct (lmsSetValue_outcome ec O1 O2 O3 O4 p v s _ _ St
              (data_model_path_split p ["cmi"] [name; idx] Sp eq_refl) E)
    as (s' & R & Cm & K & _).
  exists s'. split; [exact R|]. split; [exact K|].
  rewrite Cm. cbn [cmi with_error with_cmi]. apply api_cmi_store.
Qed.

(** X15: reading changes nothing but the register and the record of
    notifications.  Whatever the path and the session, an [LMSGetValue] that
    returns leaves
    the data tree, the life cycle state, the listeners, the settings and the
    commit trigger as they were; it notifies the listeners of [LMSGetValue]
    for this element exactly when the life cycle check lets it through, also
    when the element could not be read. *)
Theorem lmsGetValue_reads_only (p : string) (s : session) (r : node) (s' : session) :
  lmsGetValue ec p s = Some (Return r, s') ->
  cmi s' = cmi s /\ currentState s' = currentState s /\
  listenerArray s' = listenerArray s /\ settings s' = settings s /\
  timeout s' = timeout s /\ timers s' = timers s /\
  calls s' = (if isNotInitialized s then calls s
              else (calls s ++ notifications (listenerArray s) "LMSGetValue"
                                 (Some p) None)%list).
Proof.
  unfold lmsGetValue, getValue. rewrite checkState_spec. unfold lifecycle_failure.
  destruct (isNotInitialized s); cbn [andb]; cbv beta iota zeta.
  - intros E. injection E as _ <-. repeat split.
  - destruct (getCMIValue ec p s) as [[s3 [x|e]]|] eqn:G; [| |discriminate].
    + destruct (_commonGetCMIValue_frame _ _ _ _ _ _ _ _ G)
        as [(G1 & G2 & G3 & G4 & G5 & _ & G7) C].
      intros E. injection E as _ <-. unfold clearSCORMError.
      destruct (reports_success x); cbn; rewrite ?G1, ?G2, ?G3, ?G4, ?G5, ?G7, ?C;
        repeat split.
    + intros E. discriminate E.
Qed.

End ResolverEdges.

(** ** Path resolver: a collection index without a child *)

Section CollectionWrite.

Variable ec : error_code_table.
Variables O1 O2 O3 O4 : node.

(** A walk that starts on a collection object, not through an index,
    leaves the collection as it is. *)
Lemma set_loop_at_collection (structure : list string) (init : bool) (ch : string)
  (code : Z) (cs : list node) (p : string) (v : jsval) (ff : bool)
  (err e : error_register) (x : node) (out : completion string) :
  set_loop ec (getChildElement O1 O2 O3 O4) false p v structure
    (Collection init ch code cs) ff err = Some (x, e, out) ->
  x = Collection init ch code cs.
Proof.
  destruct structure as [|attribute [|next rest]].
  - intros E. injection E as <- _ _. reflexivity.
  - rewrite set_loop_last.
    destruct (_checkObjectHasProperty _ attribute).
    + cbn [write_property].
      destruct (String.eqb attribute "_children" || String.eqb attribute "_count");
        [|discriminate].
      intros E. injection E as <- _ _. reflexivity.
    + intros E. injection E as <- _ _. reflexivity.
  - rewrite set_loop_step.
    destruct (read_property (Collection init ch code cs) attribute) as [[child|ex]|] eqn:R;
      [| |discriminate].
    + destruct (negb (truthy_node child)).
      { intros E. injection E as <- _ _. reflexivity. }
      assert (K : exists pv, child = Prim pv).
      { cbn [read_property] in R.
        repeat match type of R with
               | (if ?b then _ else _) = _ => destruct b
               end; try discriminate R; injection R as R';
          rewrite <- R'; eexists; reflexivity. }
      destruct K as [pv ->]. cbv zeta.
      destruct (set_loop ec _ false p v (next :: rest) (Prim pv) ff err)
        as [[[x' e'] out']|]; [|discriminate].
      intros E. injection E as <- _ _. reflexivity.
    + intros E. injection E as <- _ _. reflexivity.
Qed.

(** C1, amended: on an initialized session, a write whose path leads,
    through members and collection children that exist, to a collection at
    any depth of the tree and names an index at which the collection has no
    child (the index is the length, or beyond it, or negative) asks the
    per-variant factory [getChildElement] for a child, whatever follows the
    index.  When the factory yields an object, the object (initialized if
    the collection is) is appended at position [length], whatever the index
    written, and the rest of the path is written on it: the collection
    grows by exactly one, the call returns what the rest of the walk gives
    on the new child, and with one member after the index it returns
    ['true'] exactly when the new child has the member and its setter
    accepts the value.  When the factory yields none, nothing is appended:
    the tree is left as it was, whatever follows the index (a segment that
    names the member [childArray] or [initialized] of the collection object
    itself apart), and when the path ends at the index the call returns
    ['false'] with the general error code. *)
Theorem collection_write_without_child (s : session) (p : string)
  (prefix : list string) (name idx : string) (rest : list string) (value : jsval)
  (i : bool) (fs : list field) (init : bool) (ch : string) (code : Z)
  (cs : list node) (index : Z) :
  currentState s = STATE_INITIALIZED ->
  JsString.split "." p = (prefix ++ name :: idx :: rest)%list ->
  prefix <> [] ->
  locate prefix (api_object s) = Some (Composite i fs) ->
  read_property (Composite i fs) name = Some (Return (Collection init ch code cs)) ->
  JsString.parseInt idx = Some index ->
  child_at cs index = None ->
  let newChild := getChildElement O1 O2 O3 O4 p value false in
  let grown (x : node) :=
    Composite i (put_field name (Collection init ch code (cs ++ [x])) fs) in
  (forall ci cfs, newChild = Composite ci cfs ->
     let fresh := if init then initialize_node (Composite ci cfs)
                  else Composite ci cfs in
     (forall x e out,
         set_loop ec (getChildElement O1 O2 O3 O4) false p value rest fresh true
           (lastErrorCode s) = Some (x, e, out) ->
         exists s',
           lmsSetValue ec O1 O2 O3 O4 p value s = Some (returned out, s') /\
           locate prefix (api_object s') = Some (grown x)) /\
     (forall attribute, rest = [attribute] ->
        let written :=
          if _checkObjectHasProperty fresh attribute
          then match write_property fresh attribute value with
               | Some (w, _) => w
               | None => fresh
               end
          else fresh in
        exists r s',
          lmsSetValue ec O1 O2 O3 O4 p value s = Some (r, s') /\
          locate prefix (api_object s') = Some (grown written) /\
          (r = SCORM_TRUE <->
           _checkObjectHasProperty fresh attribute = true /\
           exists w, write_property fresh attribute value = Some (w, Return tt)))) /\
  (truthy_node newChild = false ->
   (forall attribute more,
       rest = attribute :: more ->
       attribute <> "childArray" /\ attribute <> "initialized") ->
   (forall x e out,
       set_loop ec (getChildElement O1 O2 O3 O4) false p value rest
         (Collection init ch code cs) true (thrown (GENERAL ec)) = Some (x, e, out) ->
       exists r s',
         lmsSetValue ec O1 O2 O3 O4 p value s = Some (r, s') /\ cmi s' = cmi s) /\
   (rest = [] ->
    exists s',
      lmsSetValue ec O1 O2 O3 O4 p value s = Some (SCORM_FALSE, s') /\
      lastErrorCode s' = thrown (GENERAL ec) /\ cmi s' = cmi s)).
Proof.
  intros St Sp NE L R P A newChild grown.
  assert (St' : currentState s <> STATE_NOT_INITIALIZED) by (rewrite St; discriminate).
  pose proof (locate_from_root prefix s _ NE L) as D.
  pose proof (data_model_path_split p prefix (name :: idx :: rest) Sp D) as DP.
  assert (F : exists acc, find_field name fs = Some (acc, Collection init ch code cs)).
  { cbn [read_property] in R.
    destruct (find_field name fs) as [[[a|] y]|]; [| |discriminate R].
    - destruct (getter_fault a i); [discriminate R|]. injection R as ->. eauto.
    - injection R as ->. eauto. }
  destruct F as [acc F].
  (* the walk from the API object, for a walk from the collection's owner *)
  assert (Up : forall fs' e out,
             set_loop ec (getChildElement O1 O2 O3 O4) false p value
               (name :: idx :: rest) (Composite i fs) false (lastErrorCode s)
             = Some (Composite i fs', e, out) ->
             exists s',
               lmsSetValue ec O1 O2 O3 O4 p value s = Some (returned out, s') /\
               locate prefix (api_object s') = Some (Composite i fs') /\
               lastErrorCode s' =
               (if String.eqb (returned out) SCORM_FALSE
                then match out with
                     | Return _ => e
                     | Throw (ValidationError c) => ErrNum c
                     | Throw TypeError => thrown (GENERAL ec)
                     end
                else ErrNum 0)).
  { intros fs' e out W.
    destruct (set_loop_through_update ec _ p value _ prefix (name :: idx :: rest)
                (api_object s) i fs i fs' false (lastErrorCode s) e out
                (Nat.le_refl _) ltac:(discriminate) L W) as (root & Wr & Lr & _).
    pose proof (setCMIValue_loop ec O1 O2 O3 O4 p value s prefix _ _ _ _ Sp D Wr) as E.
    destruct (lmsSetValue_outcome ec O1 O2 O3 O4 p value s _ _ St' DP E)
      as (s' & Rv & Cm & K & _).
    exists s'. split; [exact Rv|].
    cbn [cmi with_cmi with_error lastErrorCode] in Cm, K.
    assert (Root : root = api_object s').
    { destruct prefix as [|first tl]; [contradiction|].
      cbn [in_data_model] in D. apply String.eqb_eq in D. subst first.
      cbn [app] in Wr. rewrite (set_loop_root _ _ _ _ _ _ _ _ _ _ Wr).
      unfold api_object. rewrite Cm. reflexivity. }
    rewrite <- Root. split; [exact Lr | exact K]. }
  split.
  - intros ci cfs Fa fresh.
    assert (Step : forall x e out,
               set_loop ec (getChildElement O1 O2 O3 O4) false p value rest fresh true
                 (lastErrorCode s) = Some (x, e, out) ->
               set_loop ec (getChildElement O1 O2 O3 O4) false p value
                 (name :: idx :: rest) (Composite i fs) false (lastErrorCode s)
               = Some (grown x, e, out)).
    { intros x e out W. rewrite set_loop_step, R. cbn [truthy_node negb].
      rewrite P, A. fold newChild. rewrite Fa. cbn [truthy_node negb].
      fold fresh. rewrite W. reflexivity. }
    assert (Walk : forall x e out,
               set_loop ec (getChildElement O1 O2 O3 O4) false p value rest fresh true
                 (lastErrorCode s) = Some (x, e, out) ->
               exists s',
                 lmsSetValue ec O1 O2 O3 O4 p value s = Some (returned out, s') /\
                 locate prefix (api_object s') = Some (grown x)).
    { intros x e out W. destruct (Up _ _ _ (Step _ _ _ W)) as (s' & Rv & Lr & _).
      exists s'. split; assumption. }
    split; [exact Walk|].
    intros attribute -> written.
    assert (K : exists fi ffs, fresh = Composite fi ffs).
    { subst fresh. destruct init; cbn [initialize_node]; eauto. }
    destruct K as (fi & ffs & K).
    pose proof (set_loop_last ec (getChildElement O1 O2 O3 O4) p value attribute fresh
                  true (lastErrorCode s)) as Last.
    subst written. rewrite K in Last |- *.
    destruct (_checkObjectHasProperty (Composite fi ffs) attribute) eqn:H.
    + destruct (write_property (Composite fi ffs) attribute value)
        as [[w [[]|ex]]|] eqn:Wp.
      * rewrite <- K in Last. destruct (Walk _ _ _ Last) as (s' & Rv & Lr).
        exists SCORM_TRUE, s'. split; [exact Rv|]. split; [exact Lr|].
        split; [intros _; split; [reflexivity | eauto] | reflexivity].
      * rewrite <- K in Last. destruct (Walk _ _ _ Last) as (s' & Rv & Lr).
        exists SCORM_FALSE, s'. split; [exact Rv|]. split; [exact Lr|].
        split; [intros X; discriminate X|]. intros [_ [w' X]]. discriminate X.
      * exfalso. cbn [write_property] in Wp.
        destruct (find_field attribute ffs) as [[[a|] y]|];
          try destruct (setter_fault a fi value); discriminate Wp.
    + rewrite <- K in Last. destruct (Walk _ _ _ Last) as (s' & Rv & Lr).
      rewrite K in Lr.
      exists SCORM_FALSE, s'. split; [exact Rv|]. split; [exact Lr|].
      split; [intros X; discriminate X|]. intros [X _]. discriminate X.
  - intros Fa _.
    assert (Same : forall x e out,
               set_loop ec (getChildElement O1 O2 O3 O4) false p value rest
                 (Collection init ch code cs) true (thrown (GENERAL ec))
               = Some (x, e, out) ->
               exists s',
                 lmsSetValue ec O1 O2 O3 O4 p value s = Some (returned out, s') /\
                 lastErrorCode s' =
                 (if String.eqb (returned out) SCORM_FALSE
                  then match out with
                       | Return _ => e
                       | Throw (ValidationError c) => ErrNum c
                       | Throw TypeError => thrown (GENERAL ec)
                       end
                  else ErrNum 0) /\
                 cmi s' = cmi s).
    { intros x e out W.
      pose proof (set_loop_at_collection _ _ _ _ _ _ _ _ _ _ _ _ W) as ->.
      assert (Step : set_loop ec (getChildElement O1 O2 O3 O4) false p value
                       (name :: idx :: rest) (Composite i fs) false (lastErrorCode s)
                     = Some (Composite i fs, e, out)).
      { rewrite set_loop_step, R. cbn [truthy_node negb].
        rewrite P, A. fold newChild. rewrite Fa. cbn [negb invalidErrorCode].
        rewrite W. cbn [store_child]. rewrite (put_field_same _ _ _ _ F). reflexivity. }
      pose proof (set_loop_through ec _ p value _ prefix (name :: idx :: rest)
                    (api_object s) _ false (lastErrorCode s) _ _ (Nat.le_refl _)
                    ltac:(discriminate) L Step) as Wr.
      pose proof (setCMIValue_loop ec O1 O2 O3 O4 p value s prefix _ _ _ _ Sp D Wr) as E.
      destruct (lmsSetValue_outcome ec O1 O2 O3 O4 p value s _ _ St' DP E)
        as (s' & Rv & Cm & K & _).
      exists s'. split; [exact Rv|]. split; [exact K | exact Cm]. }
    split.
    + intros x e out W. destruct (Same _ _ _ W) as (s' & Rv & _ & Cm).
      exists (returned out), s'. split; assumption.
    + intros ->. destruct (Same _ _ _ eq_refl) as (s' & Rv & K & Cm).
      exists s'. split; [exact Rv|]. split; [exact K | exact Cm].
Qed.

End CollectionWrite.

(** ** Replacing the data model *)

Section Replacement.

Variable ec : error_code_table.

(** What a read walks to does not depend on the register it starts with. *)
Lemma get_loop_value (n : nat) :
  forall (structure : list string) (o : node) (a : option string)
         (e1 e2 : error_register),
    (List.length structure <= n)%nat ->
    option_map snd (get_loop ec false structure o a e1)
    = option_map snd (get_loop ec false structure o a e2).
Proof.
  induction n as [|n IH]; intros structure o a e1 e2 Len.
  - destruct structure; [reflexivity | simpl in Len; lia].
  - destruct structure as [|attribute tl]; [reflexivity|].
    simpl in Len. rewrite !get_loop_cons.
    destruct o as [pv|oi ofs|oinit och ocode ocs]; [reflexivity| |];
      cbn [andb];
      match goal with
      | |- context [if ?c then _ else _] => destruct c; [reflexivity|]
      end;
      match goal with
      | |- context [read_property ?x ?y] =>
          destruct (read_property x y) as [[x0|ex]|]; [|reflexivity|reflexivity]
      end;
      (destruct (negb (truthy_node x0)); [reflexivity|]);
      destruct x0 as [xv|xi xfs|init ch code cs];
      try (apply IH; lia);
      (destruct tl as [|next rest]; [apply IH; simpl; lia|]);
      (destruct (JsString.parseInt next) as [index|]; [|apply IH; lia]);
      (destruct (child_at cs index) as [item|]; [|reflexivity]);
      apply IH; simpl in Len |- *; lia.
Qed.

(** On a path of the data model the value [LMSGetValue] returns is a
    function of the data tree. *)
Lemma lmsGetValue_of_tree (p : string) (s t : session) :
  data_model_path p = true ->
  currentState s <> STATE_NOT_INITIALIZED ->
  currentState t <> STATE_NOT_INITIALIZED ->
  cmi s = cmi t ->
  option_map fst (lmsGetValue ec p s) = option_map fst (lmsGetValue ec p t).
Proof.
  intros D Ss St C.
  assert (G : option_map snd (getCMIValue ec p s) = option_map snd (getCMIValue ec p t)).
  { unfold getCMIValue, _commonGetCMIValue. unfold data_model_path in D.
    destruct (String.eqb p ""); [reflexivity|]. cbn [orb] in D. rewrite D.
    unfold api_object. rewrite C.
    pose proof (get_loop_value _ (JsString.split "." p)
                  (Composite false [("cmi", (None, cmi t))]) None
                  (lastErrorCode s) (lastErrorCode t) (Nat.le_refl _)) as V.
    destruct (get_loop ec false _ _ None (lastErrorCode s)) as [[e1 [[|o1 a1]|x1]]|];
      destruct (get_loop ec false _ _ None (lastErrorCode t)) as [[e2 [[|o2 a2]|x2]]|];
      try discriminate V; try reflexivity.
    - injection V as <- <-. destruct (is_nullish o1); reflexivity.
    - injection V as <-. reflexivity. }
  unfold lmsGetValue, getValue. rewrite !checkState_spec.
  unfold lifecycle_failure, isNotInitialized.
  destruct (currentState s); [contradiction| |];
    (destruct (currentState t); [contradiction| |]);
    cbn [andb]; cbv beta iota zeta;
    destruct (getCMIValue ec p s) as [[s3 [x|e]]|];
    destruct (getCMIValue ec p t) as [[t3 [y|f]]|];
    try discriminate G; try reflexivity;
    injection G as <-; reflexivity.
Qed.

(** X16: after [replaceWithAnotherScormAPI], reads of the data model
    answer as the donor does.  When both APIs are past initialization,
    [LMSGetValue] on the API whose data model was replaced returns, for the
    empty path and for every path rooted at [cmi], what it returns on the API
    the model was taken from, whatever else differs between the two; the
    replacement itself touches nothing but the data model.  (A path that
    names another member of the API object, such as [currentState], reads
    the API it is called on and is not covered.) *)
Theorem replaced_model_reads_as_donor (p : string) (newAPI s : session) :
  data_model_path p = true ->
  currentState s <> STATE_NOT_INITIALIZED ->
  currentState newAPI <> STATE_NOT_INITIALIZED ->
  option_map fst (lmsGetValue ec p (replaceWithAnotherScormAPI newAPI s))
  = option_map fst (lmsGetValue ec p newAPI) /\
  same_engine s (replaceWithAnotherScormAPI newAPI s) /\
  lastErrorCode (replaceWithAnotherScormAPI newAPI s) = lastErrorCode s.
Proof.
  intros D Ss Sn. split; [|split; [repeat split | reflexivity]].
  apply lmsGetValue_of_tree; [exact D | exact Ss | exact Sn | reflexivity].
Qed.

End Replacement.

(** ** The further properties on the sample session *)

Lemma apiLog_writes_witness :
  Logging.apiLog SampleLms.levels 1 "LMSGetValue" (Some "cmi.core.nothing") "x" 1 = None.
Proof.
  destruct (apiLog_writes SampleLms.levels 1 "LMSGetValue" (Some "cmi.core.nothing") "x" 1)
    as (_ & _ & H).
  apply H; vm_compute; first [reflexivity | discriminate].
Defined.

Lemma rejected_operation_explains_itself_witness :
  let early := Sample.new_api Sample.default_settings in
  lifecycle_error Sample.error_codes (GetValue false "cmi.core.lesson_location") early
  = Some 301 /\
  exists out s1,
    run Sample.error_codes (getCMIValue Sample.error_codes)
      (setCMIValue Sample.error_codes Sample.CMIObjectivesObject
         Sample.CMIInteractionsCorrectResponsesObject
         Sample.CMIInteractionsObjectivesObject Sample.CMIInteractionsObject)
      (storeData Sample.error_codes node Sample.renderCommitCMI Sample.httpPost
         (fun s => s))
      "LMSGetValue" (GetValue false "cmi.core.lesson_location") early
    = Some (Return out, s1) /\
    let '(reported, s2) := lmsGetLastError s1 in
    reported = "301" /\
    fst (lmsGetErrorString SampleLms.error_descriptions (JStr reported) s2)
    = JStr "Not initialized" /\
    fst (lmsGetDiagnostic SampleLms.error_descriptions (JStr reported) s2)
    = JStr "The call was made before LMSInitialize.".
Proof.
  assert (L : lifecycle_error Sample.error_codes (GetValue false "cmi.core.lesson_location")
                (Sample.new_api Sample.default_settings) = Some 301)
    by (vm_compute; reflexivity).
  split; [exact L|].
  apply (rejected_operation_explains_itself SampleLms.error_descriptions Sample.error_codes
           (getCMIValue Sample.error_codes)
           (setCMIValue Sample.error_codes Sample.CMIObjectivesObject
              Sample.CMIInteractionsCorrectResponsesObject
              Sample.CMIInteractionsObjectivesObject Sample.CMIInteractionsObject)
           (storeData Sample.error_codes node Sample.renderCommitCMI Sample.httpPost
              (fun s => s))
           "LMSGetValue" (GetValue false "cmi.core.lesson_location")
           (Sample.new_api Sample.default_settings) 301
           (JStr "Not initialized") (JStr "The call was made before LMSInitialize.") L).
  vm_compute; reflexivity.
Defined.

Lemma schedule_then_clear_witness :
  let s := scheduleCommit 1000 (Sample.started Sample.autocommit_settings) in
  timers s = [(1%positive, 1000)] /\
  timeout (clearScheduledCommit (scheduleCommit 500 s)) = SlotNull /\
  timers (clearScheduledCommit (scheduleCommit 500 s)) = [(1%positive, 1000)].
Proof.
  assert (T : timers (scheduleCommit 1000 (Sample.started Sample.autocommit_settings))
              = [(1%positive, 1000)]) by (vm_compute; reflexivity).
  split; [exact T|].
  destruct (schedule_then_clear 500
              (scheduleCommit 1000 (Sample.started Sample.autocommit_settings)))
    as (H1 & H2 & _).
  - intros h H. rewrite T in H. destruct H as [<-|[]]. vm_compute; reflexivity.
  - split; [exact H1|]. rewrite H2. exact T.
Defined.

Lemma on_single_token_witness :
  let s := Sample.started Sample.default_settings in
  listenerArray (on "LMSSetValue.cmi.core.score.raw" (Some 7%nat) s)
  = (listenerArray s ++
     [ {| functionName := "LMSSetValue"; CMIElement := Some "cmi.core.score.raw";
          callback := 7%nat |} ])%list.
Proof.
  apply (on_single_token "LMSSetValue" "cmi.core.score.raw" 7%nat
           (Sample.started Sample.default_settings));
    vm_compute; reflexivity.
Defined.

Lemma getChildElement_long_index_witness :
  Sample.getChildElement "cmi.interactions.10.objectives.0.id" (JStr "a") true
  = Sample.CMIInteractionsObject /\
  Sample.getChildElement "cmi.interactions.1.objectives.0.id" (JStr "a") true
  = Sample.CMIInteractionsObjectivesObject.
Proof.
  split.
  - apply (getChildElement_long_index Sample.CMIObjectivesObject
             Sample.CMIInteractionsCorrectResponsesObject
             Sample.CMIInteractionsObjectivesObject Sample.CMIInteractionsObject
             "1" "0" ".objectives.0.id" (JStr "a") true);
      vm_compute; reflexivity.
  - apply (getChildElement_long_index Sample.CMIObjectivesObject
             Sample.CMIInteractionsCorrectResponsesObject
             Sample.CMIInteractionsObjectivesObject Sample.CMIInteractionsObject
             "1" "0" ".id" (JStr "a") true);
      vm_compute; reflexivity.
Defined.

Lemma lifecycle_moves_forward_witness :
  let s := Sample.started Sample.default_settings in
  let engine :=
    run Sample.error_codes (getCMIValue Sample.error_codes)
      (setCMIValue Sample.error_codes Sample.CMIObjectivesObject
         Sample.CMIInteractionsCorrectResponsesObject
         Sample.CMIInteractionsObjectivesObject Sample.CMIInteractionsObject)
      (storeData Sample.error_codes node Sample.renderCommitCMI Sample.httpPost
         (fun s => s)) in
  currentState s = STATE_INITIALIZED /\
  data_model_path "cmi.core.lesson_location" = true /\
  (exists out s',
      engine "LMSSetValue" (SetValue false "cmi.core.lesson_location" (JStr "p3")) s
      = Some (out, s') /\
      (state_rank (currentState s) <= state_rank (currentState s'))%nat) /\
  (exists out s',
      engine "LMSFinish" (Terminate false) s = Some (out, s') /\
      (state_rank (currentState s) <= state_rank (currentState s'))%nat).
Proof.
  split; [vm_compute; reflexivity|]. split; [vm_compute; reflexivity|]. cbv zeta.
  split.
  - destruct (run Sample.error_codes (getCMIValue Sample.error_codes)
                (setCMIValue Sample.error_codes Sample.CMIObjectivesObject
                   Sample.CMIInteractionsCorrectResponsesObject
                   Sample.CMIInteractionsObjectivesObject Sample.CMIInteractionsObject)
                (storeData Sample.error_codes node Sample.renderCommitCMI Sample.httpPost
                   (fun s => s))
                "LMSSetValue" (SetValue false "cmi.core.lesson_location" (JStr "p3"))
                (Sample.started Sample.default_settings))
      as [[out s']|] eqn:E.
    + exists out, s'. split; [reflexivity|].
      apply (lifecycle_moves_forward Sample.error_codes Sample.CMIObjectivesObject
               Sample.CMIInteractionsCorrectResponsesObject
               Sample.CMIInteractionsObjectivesObject Sample.CMIInteractionsObject
               node Sample.renderCommitCMI Sample.httpPost (fun s => s)
               "LMSSetValue" (SetValue false "cmi.core.lesson_location" (JStr "p3"))
               (Sample.started Sample.default_settings) out s'
               ltac:(vm_compute; reflexivity) E).
    + vm_compute in E. discriminate E.
  - destruct (run Sample.error_codes (getCMIValue Sample.error_codes)
                (setCMIValue Sample.error_codes Sample.CMIObjectivesObject
                   Sample.CMIInteractionsCorrectResponsesObject
                   Sample.CMIInteractionsObjectivesObject Sample.CMIInteractionsObject)
                (storeData Sample.error_codes node Sample.renderCommitCMI Sample.httpPost
                   (fun s => s))
                "LMSFinish" (Terminate false) (Sample.started Sample.default_settings))
      as [[out s']|] eqn:E.
    + exists out, s'. split; [reflexivity|].
      apply (lifecycle_moves_forward Sample.error_codes Sample.CMIObjectivesObject
               Sample.CMIInteractionsCorrectResponsesObject
               Sample.CMIInteractionsObjectivesObject Sample.CMIInteractionsObject
               node Sample.renderCommitCMI Sample.httpPost (fun s => s)
               "LMSFinish" (Terminate false) (Sample.started Sample.default_settings)
               out s' eq_refl E).
    + vm_compute in E. discriminate E.
Defined.

Lemma commit_with_destination_witness :
  let s := Sample.started SampleLms.commit_settings in
  lmsCommitUrl (settings s) = Some "/lms/commit" /\
  exists s',
    commit Sample.error_codes
      (storeData Sample.error_codes node Sample.renderCommitCMI SampleLms.refusing
         (fun s => s)) "LMSCommit" false s
    = (JStr SCORM_FALSE, s') /\
    lastErrorCode s' = thrown 101 /\ cmi s' = cmi s.
Proof.
  assert (U : lmsCommitUrl (settings (Sample.started SampleLms.commit_settings))
              = Some "/lms/commit") by (vm_compute; reflexivity).
  split; [exact U|].
  destruct (commit_with_destination Sample.error_codes node Sample.renderCommitCMI
              SampleLms.refusing (fun s => s) "LMSCommit" false
              (Sample.started SampleLms.commit_settings) "/lms/commit")
    as (s' & E & R & C & _);
    [vm_compute; reflexivity | exact U | discriminate |].
  exists s'. split; [exact E|]. split; [exact R | exact C].
Defined.

Lemma missing_element_fails_witness :
  let s := Sample.started Sample.default_settings in
  (exists s',
      Sample.lmsSetValue "cmi.core.nothing" (JStr "x") s = Some (SCORM_FALSE, s') /\
      cmi s' = cmi s /\ lastErrorCode s' = thrown 101) /\
  (exists s',
      Sample.lmsGetValue "cmi.core.nothing" s = Some (Return undefined, s') /\
      cmi s' = cmi s /\ lastErrorCode s' = thrown 101).
Proof.
  edestruct (missing_element_fails Sample.error_codes Sample.CMIObjectivesObject
               Sample.CMIInteractionsCorrectResponsesObject
               Sample.CMIInteractionsObjectivesObject Sample.CMIInteractionsObject
               (Sample.started Sample.default_settings) "cmi.core.nothing" (JStr "x")
               ["cmi"; "core"] "nothing")
    as [(s1 & E1 & C1 & R1 & _) (s2 & E2 & C2 & R2 & _)];
    [vm_compute; discriminate | vm_compute; reflexivity | discriminate
    | vm_compute; reflexivity | vm_compute; reflexivity |].
  split; [exists s1 | exists s2]; repeat split; assumption.
Defined.



Lemma read_at_missing_index_witness :
  let s := Sample.started Sample.default_settings in
  exists c s',
    Sample.lmsGetValue "cmi.interactions.0.id" s = Some (Return c, s') /\
    c = Collection true "id,objectives,correct_responses" 402 [] /\
    lastErrorCode s' = ErrNum 0.
Proof.
  edestruct (read_at_missing_index Sample.error_codes
               (Sample.started Sample.default_settings) "cmi.interactions.0.id"
               ["cmi"] "interactions" "0" ["id"])
    as (s' & E & R & _);
    [vm_compute; discriminate | vm_compute; reflexivity | discriminate
    | vm_compute; reflexivity | vm_compute; reflexivity | vm_compute; reflexivity
    | vm_compute; reflexivity |].
  eexists. exists s'. split; [exact E|]. split; [reflexivity | exact R].
Defined.

Lemma write_ending_at_index_witness :
  let s := Sample.started Sample.default_settings in
  exists s',
    Sample.lmsSetValue "cmi.objectives.0" (JStr "x") s = Some (SCORM_FALSE, s') /\
    lastErrorCode s' = lastErrorCode s /\ cmi s' <> cmi s.
Proof.
  edestruct (write_ending_at_index Sample.error_codes Sample.CMIObjectivesObject
               Sample.CMIInteractionsCorrectResponsesObject
               Sample.CMIInteractionsObjectivesObject Sample.CMIInteractionsObject
               (Sample.started Sample.default_settings) "cmi.objectives.0"
               "objectives" "0" (JStr "x"))
    as (s' & E & R & C);
    [vm_compute; discriminate | vm_compute; reflexivity | vm_compute; reflexivity
    | vm_compute; reflexivity | vm_compute; reflexivity | vm_compute; reflexivity
    | vm_compute; reflexivity |].
  exists s'. split; [exact E|]. split; [exact R|].
  rewrite C. vm_compute. discriminate.
Defined.

Lemma lmsGetValue_reads_only_witness :
  let s := Sample.started Sample.default_settings in
  exists x s',
    Sample.lmsGetValue "cmi.core.lesson_location" s = Some (Return x, s') /\
    cmi s' = cmi s /\ currentState s' = currentState s.
Proof.
  cbv zeta.
  destruct (Sample.lmsGetValue "cmi.core.lesson_location"
              (Sample.started Sample.default_settings)) as [[[x|e] s']|] eqn:E.
  - exists x, s'. split; [reflexivity|].
    destruct (lmsGetValue_reads_only Sample.error_codes "cmi.core.lesson_location"
                (Sample.started Sample.default_settings) x s' E) as (C & St & _).
    split; [exact C | exact St].
  - vm_compute in E. discriminate E.
  - vm_compute in E. discriminate E.
Defined.

Lemma replaced_model_reads_as_donor_witness :
  let donor := Sample.after_set "cmi.core.lesson_location" "p3"
                 (Sample.started Sample.default_settings) in
  let s := snd (Sample.lmsFinish (Sample.started Sample.autocommit_settings)) in
  option_map fst (Sample.lmsGetValue "cmi.core.lesson_location" donor)
  = Some (Return (Prim (JStr "p3"))) /\
  option_map fst (Sample.lmsGetValue "cmi.core.lesson_location"
                    (replaceWithAnotherScormAPI donor s))
  = Some (Return (Prim (JStr "p3"))).
Proof.
  assert (D : option_map fst
                (Sample.lmsGetValue "cmi.core.lesson_location"
                   (Sample.after_set "cmi.core.lesson_location" "p3"
                      (Sample.started Sample.default_settings)))
              = Some (Return (Prim (JStr "p3")))) by (vm_compute; reflexivity).
  split; [exact D|]. cbv zeta. rewrite <- D.
  apply (replaced_model_reads_as_donor Sample.error_codes "cmi.core.lesson_location"
           (Sample.after_set "cmi.core.lesson_location" "p3"
              (Sample.started Sample.default_settings))
           (snd (Sample.lmsFinish (Sample.started Sample.autocommit_settings))));
    [vm_compute; reflexivity | vm_compute; discriminate | vm_compute; discriminate].
Defined.

Lemma collection_write_without_child_witness :
  let s1 := Sample.after_set "cmi.interactions.0.id" "a"
              (Sample.started Sample.default_settings) in
  exists s',
    Sample.lmsSetValue "cmi.interactions.0.objectives.5.id" (JStr "o") s1
    = Some (SCORM_TRUE, s').
Proof.
  edestruct (collection_write_without_child Sample.error_codes Sample.CMIObjectivesObject
               Sample.CMIInteractionsCorrectResponsesObject
               Sample.CMIInteractionsObjectivesObject Sample.CMIInteractionsObject
               (Sample.after_set "cmi.interactions.0.id" "a"
                  (Sample.started Sample.default_settings))
               "cmi.interactions.0.objectives.5.id" ["cmi"; "interactions"; "0"]
               "objectives" "5" ["id"] (JStr "o"))
    as [H _];
    [vm_compute; reflexivity | vm_compute; reflexivity | discriminate
    | vm_compute; reflexivity | vm_compute; reflexivity | vm_compute; reflexivity
    | vm_compute; reflexivity |].
  edestruct H as [_ H2]; [vm_compute; reflexivity|].
  destruct (H2 "id" eq_refl) as (r & s' & E & _ & Iff).
  assert (T : r = SCORM_TRUE).
  { apply Iff. split; [vm_compute; reflexivity|]. eexists. vm_compute. reflexivity. }
  subst r. exists s'. exact E.
Defined.
